(** * Console phonebook: the record store of [main.py]

    A shallow embedding of [main.py] (classes [CSVDataStorage] and
    [Directory]) together with the parts of the Python runtime and of pandas
    that the program calls:

    - Python [str] values are lists of Unicode code points; [str.isdigit],
      [str.isspace] and [str.strip] follow CPython 3.11 (Unicode 14.0);
    - [Series.str.contains] is [re.search] on a fragment of the pattern
      syntax: ordinary characters, [.] and backslash-escaped punctuation;
    - a [DataFrame] is a list of column labels and a list of rows of
      dynamically typed cells (pandas 2.x, where a cell assignment of a
      string into an integer column turns the column into an object column);
    - [DataFrame.to_csv] follows the [csv] writer of CPython 3.11, writing
      the file as UTF-8 line by line: a lone surrogate cannot be encoded,
      and the call raises [UnicodeEncodeError] with the lines before it in
      the file;
    - [pandas.read_csv] is modelled on unquoted input without NUL, with its
      column type inference for integer and text columns;
    - standard input is a list of lines and standard output a trace of
      events, the text that [input] returns and that [print] is given:
      the encodings and error handlers of the two streams belong to the
      environment and are not modelled.

    Results outside the modelled fragments are reported as [Unmodelled],
    never guessed. *)

From Stdlib Require Import String Ascii.
From Stdlib Require Import List ZArith NArith Lia Bool.
From Stdlib Require DecimalFacts DecimalPos.
Import ListNotations.

(** ** Python strings *)

Module PyStr.

Definition char := N.
Bind Scope N_scope with char.
Definition str := list char.

(** Decoding of the UTF-8 bytes of a Rocq string literal, used only to
    write the program's string constants legibly. *)
Fixpoint bytes_of (s : string) : list N :=
  match s with
  | EmptyString => []
  | String a r => N_of_ascii a :: bytes_of r
  end.

Fixpoint decode (bs : list N) : str :=
  match bs with
  | [] => []
  | b :: r =>
      if (b <? 128)%N then b :: decode r
      else if (b <? 224)%N then
        match r with
        | b1 :: r1 => ((b - 192) * 64 + (b1 - 128))%N :: decode r1
        | _ => []
        end
      else if (b <? 240)%N then
        match r with
        | b1 :: b2 :: r2 =>
            ((b - 224) * 4096 + (b1 - 128) * 64 + (b2 - 128))%N :: decode r2
        | _ => []
        end
      else
        match r with
        | b1 :: b2 :: b3 :: r3 =>
            ((b - 240) * 262144 + (b1 - 128) * 4096
             + (b2 - 128) * 64 + (b3 - 128))%N :: decode r3
        | _ => []
        end
  end.

Definition utf8 (s : string) : str := decode (bytes_of s).

Definition char_eqb (a b : char) : bool := (a =? b)%N.

Fixpoint str_eqb (s t : str) : bool :=
  match s, t with
  | [], [] => true
  | a :: s', b :: t' => char_eqb a b && str_eqb s' t'
  | _, _ => false
  end.

(** A surrogate code point.  A [str] can hold one on its own (reading
    standard input with [surrogateescape] produces them), but UTF-8 has no
    encoding for it: [str.encode] and every write to a UTF-8 text file
    raise [UnicodeEncodeError] on it. *)
Definition is_surrogate (c : char) : bool :=
  (55296 <=? c)%N && (c <=? 57343)%N.

(** [s.encode("utf-8")] succeeds. *)
Definition encodable (s : str) : bool := negb (existsb is_surrogate s).

Definition in_ranges (tbl : list (N * N)) (c : char) : bool :=
  existsb (fun r => (fst r <=? c)%N && (c <=? snd r)%N) tbl.

(** [Py_UNICODE_ISSPACE]: the characters removed by [str.strip()]. *)
Definition space_ranges : list (N * N) :=
  [(9, 13); (28, 32); (133, 133); (160, 160); (5760, 5760); (8192, 8202);
   (8232, 8233); (8239, 8239); (8287, 8287); (12288, 12288)]%N.

Definition isspace_char : char -> bool := in_ranges space_ranges.

(** Characters with Numeric_Type Digit or Decimal: what [str.isdigit]
    accepts (Unicode 14.0). *)
Definition digit_ranges : list (N * N) :=
  [(48, 57); (178, 179); (185, 185); (1632, 1641); (1776, 1785);
   (1984, 1993); (2406, 2415); (2534, 2543); (2662, 2671); (2790, 2799);
   (2918, 2927); (3046, 3055); (3174, 3183); (3302, 3311); (3430, 3439);
   (3558, 3567); (3664, 3673); (3792, 3801); (3872, 3881); (4160, 4169);
   (4240, 4249); (4969, 4977); (6112, 6121); (6160, 6169); (6470, 6479);
   (6608, 6618); (6784, 6793); (6800, 6809); (6992, 7001); (7088, 7097);
   (7232, 7241); (7248, 7257); (8304, 8304); (8308, 8313); (8320, 8329);
   (9312, 9320); (9332, 9340); (9352, 9360); (9450, 9450); (9461, 9469);
   (9471, 9471); (10102, 10110); (10112, 10120); (10122, 10130);
   (42528, 42537); (43216, 43225); (43264, 43273); (43472, 43481);
   (43504, 43513); (43600, 43609); (44016, 44025); (65296, 65305);
   (66720, 66729); (68160, 68163); (68912, 68921); (69216, 69224);
   (69714, 69722); (69734, 69743); (69872, 69881); (69942, 69951);
   (70096, 70105); (70384, 70393); (70736, 70745); (70864, 70873);
   (71248, 71257); (71360, 71369); (71472, 71481); (71904, 71913);
   (72016, 72025); (72784, 72793); (73040, 73049); (73120, 73129);
   (92768, 92777); (92864, 92873); (93008, 93017); (120782, 120831);
   (123200, 123209); (123632, 123641); (125264, 125273); (127232, 127242);
   (130032, 130041)]%N.

Definition isdigit_char : char -> bool := in_ranges digit_ranges.

(** The ten ASCII decimal digits [0]..[9]. *)
Definition is_ascii_digit (c : char) : bool := (48 <=? c)%N && (c <=? 57)%N.

Definition is_ascii (c : char) : bool := (c <? 128)%N.

(** [s.isdigit()]: at least one character, and all of them digits. *)
Definition isdigit (s : str) : bool :=
  match s with
  | [] => false
  | _ => forallb isdigit_char s
  end.

Fixpoint lstrip (s : str) : str :=
  match s with
  | [] => []
  | c :: r => if isspace_char c then lstrip r else s
  end.

Definition rstrip (s : str) : str := rev (lstrip (rev s)).

(** [s.strip()] with no argument. *)
Definition strip (s : str) : str := rstrip (lstrip s).

Fixpoint startswith (s p : str) : bool :=
  match p, s with
  | [], _ => true
  | a :: p', b :: s' => char_eqb a b && startswith s' p'
  | _ :: _, [] => false
  end.

(** [k in s]: literal substring containment. *)
Fixpoint contains (s k : str) : bool :=
  startswith s k ||
  match s with
  | [] => false
  | _ :: r => contains r k
  end.

(** [str(n)] for an [int]. *)
Fixpoint digits_of_uint (u : Decimal.uint) : str :=
  match u with
  | Decimal.Nil => []
  | Decimal.D0 r => 48%N :: digits_of_uint r
  | Decimal.D1 r => 49%N :: digits_of_uint r
  | Decimal.D2 r => 50%N :: digits_of_uint r
  | Decimal.D3 r => 51%N :: digits_of_uint r
  | Decimal.D4 r => 52%N :: digits_of_uint r
  | Decimal.D5 r => 53%N :: digits_of_uint r
  | Decimal.D6 r => 54%N :: digits_of_uint r
  | Decimal.D7 r => 55%N :: digits_of_uint r
  | Decimal.D8 r => 56%N :: digits_of_uint r
  | Decimal.D9 r => 57%N :: digits_of_uint r
  end.

Definition str_of_int (z : Z) : str :=
  match Z.to_int z with
  | Decimal.Pos u => digits_of_uint u
  | Decimal.Neg u => 45%N :: digits_of_uint u
  end.

Fixpoint join (sep : str) (l : list str) : str :=
  match l with
  | [] => []
  | [x] => x
  | x :: r => x ++ sep ++ join sep r
  end.

(** Pieces of [s] between occurrences of [sep]; never the empty list. *)
Fixpoint split_on (sep : char) (s : str) : list str :=
  match s with
  | [] => [[]]
  | c :: r =>
      if char_eqb c sep then [] :: split_on sep r
      else match split_on sep r with
           | [] => [[c]]
           | w :: ws => (c :: w) :: ws
           end
  end.

End PyStr.

Import PyStr.


(** ** The fragment of Python's [re] used by [Series.str.contains] *)

Module Re.

Inductive atom : Type :=
| Lit (c : char)
| AnyChar.

(** The characters with a special meaning in a pattern. *)
Definition special : str :=
  [46; 94; 36; 42; 43; 63; 123; 125; 91; 93; 92; 124; 40; 41]%N.

Definition is_special (c : char) : bool := existsb (char_eqb c) special.

Definition is_ascii_alnum (c : char) : bool :=
  is_ascii_digit c
  || ((65 <=? c)%N && (c <=? 90)%N)
  || ((97 <=? c)%N && (c <=? 122)%N).

(** [re.compile(p)] on the fragment: an ordinary character matches
    itself, [.] matches any character but a newline, a backslash before a
    character that is not an ASCII letter or digit makes it literal.
    [None]: the pattern uses more of the syntax (or is rejected by
    [re.compile]); it is not modelled. *)
Fixpoint compile (p : str) : option (list atom) :=
  match p with
  | [] => Some []
  | c :: r =>
      if char_eqb c 46 then option_map (cons AnyChar) (compile r)
      else if char_eqb c 92 then
        match r with
        | e :: r' =>
            if is_ascii_alnum e then None
            else option_map (cons (Lit e)) (compile r')
        | [] => None
        end
      else if is_special c then None
      else option_map (cons (Lit c)) (compile r)
  end.

Definition atom_matches (a : atom) (c : char) : bool :=
  match a with
  | Lit x => char_eqb c x
  | AnyChar => negb (char_eqb c 10)
  end.

Fixpoint match_here (p : list atom) (s : str) : bool :=
  match p, s with
  | [], _ => true
  | a :: p', c :: s' => atom_matches a c && match_here p' s'
  | _ :: _, [] => false
  end.

(** [pat.search(s) is not None] *)
Fixpoint search (p : list atom) (s : str) : bool :=
  match_here p s ||
  match s with
  | [] => false
  | _ :: r => search p r
  end.

End Re.

(** ** Outcomes of a call *)

Inductive exn : Type :=
| KeyError (key : str)
| EOFError
| EmptyDataError
| UnicodeEncodeError.

Inductive result (A : Type) : Type :=
| Ok (a : A)
| Raise (e : exn)
| Unmodelled.

Arguments Ok {A} a.
Arguments Raise {A} e.
Arguments Unmodelled {A}.

(** ** The fragment of pandas *)

Module Pandas.

Inductive cell : Type :=
| CInt (z : Z)
| CStr (s : str)
| CNaN.

Definition row := list cell.

Record DataFrame : Type := mkDataFrame {
  columns : list str;
  rows : list row
}.

(** [len(df)] *)
Definition len (df : DataFrame) : Z := Z.of_nat (length (rows df)).

(** [str(v)] of a cell, as [Series.astype(str)] gives it. *)
Definition astype_str (c : cell) : str :=
  match c with
  | CInt z => str_of_int z
  | CStr s => s
  | CNaN => [110; 97; 110]%N
  end.

Fixpoint index_of (k : str) (cols : list str) : option nat :=
  match cols with
  | [] => None
  | c :: r => if str_eqb c k then Some 0%nat else option_map S (index_of k r)
  end.

Definition mem (k : str) (l : list str) : bool := existsb (str_eqb k) l.

(** Python dictionaries, in insertion order. *)
Definition dict (V : Type) := list (str * V).

Fixpoint dict_get {V} (d : dict V) (k : str) : option V :=
  match d with
  | [] => None
  | (k', v) :: r => if str_eqb k' k then Some v else dict_get r k
  end.

Fixpoint dict_set {V} (d : dict V) (k : str) (v : V) : dict V :=
  match d with
  | [] => [(k, v)]
  | (k', v') :: r =>
      if str_eqb k' k then (k', v) :: r else (k', v') :: dict_set r k v
  end.

Definition dict_values {V} (d : dict V) : list V := map snd d.

(** [{**d, **e}] *)
Definition dict_update {V} (d e : dict V) : dict V :=
  fold_left (fun acc kv => dict_set acc (fst kv) (snd kv)) e d.

(** [pd.DataFrame([rec], columns=cols)]: one row, the cells taken from
    [rec] by column label.  A label missing from [rec] would give a NaN
    column whose dtype changes the others on [concat]: not modelled. *)
Fixpoint row_of_record (cols : list str) (rec : dict cell) : option row :=
  match cols with
  | [] => Some []
  | c :: r =>
      match dict_get rec c, row_of_record r rec with
      | Some v, Some vs => Some (v :: vs)
      | _, _ => None
      end
  end.

(** [pd.concat([df, one_row], ignore_index=True)] for a one-row frame
    with the columns of [df]. *)
Definition concat_row (df : DataFrame) (r : row) : DataFrame :=
  mkDataFrame (columns df) (rows df ++ [r]).

Fixpoint row_set (cols : list str) (r : row) (key : str) (v : cell) : row :=
  match cols, r with
  | c :: cs, x :: xs =>
      (if str_eqb c key then v else x) :: row_set cs xs key v
  | _, _ => r
  end.

Fixpoint update_nth {A} (n : nat) (f : A -> A) (l : list A) : list A :=
  match l, n with
  | [], _ => []
  | x :: r, O => f x :: r
  | x :: r, S m => x :: update_nth m f r
  end.

(** [df.at[index, key] = v] on a frame with a [RangeIndex]. *)
Definition set_at (df : DataFrame) (index : nat) (key : str) (v : cell)
  : DataFrame :=
  mkDataFrame (columns df)
    (update_nth index (fun r => row_set (columns df) r key v) (rows df)).

Definition cell_eq_int (c : cell) (z : Z) : bool :=
  match c with
  | CInt x => (x =? z)%Z
  | _ => false
  end.

(** Positions of the rows selected by [df[col] == z], in order. *)
Fixpoint positions_from (i : nat) (j : nat) (z : Z) (rs : list row)
  : list nat :=
  match rs with
  | [] => []
  | r :: rest =>
      if cell_eq_int (nth j r CNaN) z
      then i :: positions_from (S i) j z rest
      else positions_from (S i) j z rest
  end.

(** *** Writing: [df.to_csv(path, index=False)] *)

Definition needs_quote (s : str) : bool :=
  existsb (fun c => char_eqb c 44 || char_eqb c 34 || char_eqb c 10) s.

Fixpoint double_quotes (s : str) : str :=
  match s with
  | [] => []
  | c :: r =>
      if char_eqb c 34 then 34%N :: 34%N :: double_quotes r
      else c :: double_quotes r
  end.

Definition csv_field (s : str) : str :=
  if needs_quote s then 34%N :: double_quotes s ++ [34%N] else s.

(** One record of the [csv] writer; a lone empty field is quoted. *)
Definition csv_line (fields : list str) : str :=
  match fields with
  | [[]] => [34; 34; 10]%N
  | _ => join [44%N] (map csv_field fields) ++ [10%N]
  end.

Definition csv_text (c : cell) : str :=
  match c with
  | CInt z => str_of_int z
  | CStr s => s
  | CNaN => []
  end.

Definition to_csv (df : DataFrame) : str :=
  csv_line (columns df)
  ++ List.concat (map (fun r => csv_line (map csv_text r)) (rows df)).

(** The same text as the writer produces it: the line of the labels,
    then one line per record. *)
Definition csv_lines (df : DataFrame) : list str :=
  csv_line (columns df) :: map (fun r => csv_line (map csv_text r)) (rows df).

(** The lines go to the UTF-8 file one [write] at a time.  The first line
    that cannot be encoded raises; the lines before it have been written
    and stay in the file, which was truncated when it was opened.  The
    result is the content of the file and whether every line went in. *)
Fixpoint write_lines (ls : list str) : str * bool :=
  match ls with
  | [] => ([], true)
  | l :: rest =>
      if encodable l
      then let '(text, done) := write_lines rest in (l ++ text, done)
      else ([], false)
  end.

(** *** Reading: [pd.read_csv(path)] *)

Definition is_blank_ws (c : char) : bool := char_eqb c 32 || char_eqb c 9.

Definition isspace_ascii (c : char) : bool :=
  char_eqb c 32 || ((9 <=? c)%N && (c <=? 13)%N).

Fixpoint skip_spaces (s : str) : str :=
  match s with
  | [] => []
  | c :: r => if isspace_ascii c then skip_spaces r else s
  end.

Fixpoint take_digits (acc : Z) (s : str) : Z * str :=
  match s with
  | [] => (acc, [])
  | c :: r =>
      if is_ascii_digit c
      then take_digits (10 * acc + (Z.of_N c - 48))%Z r
      else (acc, s)
  end.

(** The tokenizer's [str_to_int64]: blanks, a sign, digits, blanks; the
    value has to fit 64 bits. *)
Definition str_to_int64 (t : str) : option Z :=
  let p := skip_spaces t in
  let '(neg, p) :=
    match p with
    | 45%N :: r => (true, r)
    | 43%N :: r => (false, r)
    | _ => (false, p)
    end in
  match p with
  | c :: _ =>
      if is_ascii_digit c then
        let '(v, rest) := take_digits 0%Z p in
        let z := if neg then (- v)%Z else v in
        match skip_spaces rest with
        | [] =>
            if ((- 2 ^ 63 <=? z) && (z <=? 2 ^ 63 - 1))%Z
            then Some z else None
        | _ => None
        end
      else None
  | [] => None
  end.

(** The default missing-value markers of [read_csv] (pandas 2.x). *)
Definition na_values : list str :=
  [] :: map utf8 ["#N/A"; "#N/A N/A"; "#NA"; "-1.#IND"; "-1.#QNAN"; "-NaN";
                  "-nan"; "1.#IND"; "1.#QNAN"; "<NA>"; "N/A"; "NA"; "NULL";
                  "NaN"; "None"; "n/a"; "nan"; "null"]%string.

Definition bool_words : list str :=
  map utf8 ["True"; "TRUE"; "true"; "False"; "FALSE"; "false"]%string.

Definition lower_ascii (c : char) : char :=
  if (65 <=? c)%N && (c <=? 90)%N then (c + 32)%N else c.

(** A token that can be neither a number, a truth value nor a missing
    value: it does not start with a blank, a digit, a sign or a point,
    nor (in any case) with [inf] or [nan], and is no marker word. *)
Definition definitely_text (t : str) : bool :=
  match t with
  | [] => false
  | c :: _ =>
      negb (isspace_ascii c || is_ascii_digit c
            || existsb (char_eqb c) [43; 45; 46]%N)
      && negb (startswith (map lower_ascii t) [105; 110; 102]%N)
      && negb (startswith (map lower_ascii t) [110; 97; 110]%N)
      && negb (mem t na_values) && negb (mem t bool_words)
  end.

Fixpoint all_some {A} (l : list (option A)) : option (list A) :=
  match l with
  | [] => Some []
  | Some x :: r => option_map (cons x) (all_some r)
  | None :: _ => None
  end.

(** Type inference of one column from its tokens: an integer column, or
    an object column of text and missing values.  Columns that pandas
    would read as floating point or boolean are not modelled. *)
Definition infer_column (tokens : list str) : option (list cell) :=
  match all_some (map str_to_int64 tokens) with
  | Some zs => Some (map CInt zs)
  | None =>
      if existsb definitely_text tokens
      then Some (map (fun t => if mem t na_values then CNaN else CStr t)
                     tokens)
      else None
  end.

(** Column [j] of a table of tokens. *)
Definition column_at {A} (d : A) (table : list (list A)) (j : nat) : list A :=
  map (fun r => nth j r d) table.

Fixpoint no_dup (l : list str) : bool :=
  match l with
  | [] => true
  | x :: r => negb (mem x r) && no_dup r
  end.

(** [pd.read_csv] on the decoded text of the file.  Not modelled: quoted
    fields, carriage returns, a byte-order mark, NUL (the C tokenizer ends
    a field at it), surrogates (no UTF-8 file decodes to one), repeated
    or empty labels (pandas renames them), and rows with more or fewer
    fields than labels. *)
Definition read_csv (content : str) : result DataFrame :=
  if existsb (fun c => char_eqb c 34 || char_eqb c 13 || char_eqb c 65279
                       || char_eqb c 0 || is_surrogate c)
             content
  then Unmodelled
  else
    let lines :=
      filter (fun l => negb (forallb is_blank_ws l)) (split_on 10 content) in
    match lines with
    | [] => Raise EmptyDataError
    | header :: body =>
        let names := split_on 44 header in
        let table := map (split_on 44) body in
        if negb (no_dup names) || mem [] names
           || negb (forallb (fun r => (length r =? length names)%nat) table)
        then Unmodelled
        else
          match table with
          | [] => Ok (mkDataFrame names [])
          | _ =>
              match all_some (map (fun j => infer_column (column_at [] table j))
                                  (seq 0 (length names))) with
              | Some cols =>
                  Ok (mkDataFrame names
                        (map (fun i => column_at CNaN cols i)
                             (seq 0 (length table))))
              | None => Unmodelled
              end
          end
    end.

End Pandas.

Import Pandas.

(** ** The program: [main.py] *)

(** The schema, as [CSVDataStorage.load] spells it. *)
Definition col_ID : str :=
  Eval vm_compute in utf8 "ID".
Definition col_surname : str :=
  Eval vm_compute in utf8 "Фамилия".
Definition col_name : str :=
  Eval vm_compute in utf8 "Имя".
Definition col_patronymic : str :=
  Eval vm_compute in utf8 "Отчество".
Definition col_organization : str :=
  Eval vm_compute in utf8 "Организация".
Definition col_work_phone : str :=
  Eval vm_compute in utf8 "Рабочий телефон".
Definition col_mobile_phone : str :=
  Eval vm_compute in utf8 "Сотовый телефон".

Definition schema : list str :=
  [col_ID; col_surname; col_name; col_patronymic; col_organization;
   col_work_phone; col_mobile_phone].

Definition msg_fields_required : str :=
  Eval vm_compute in utf8 "Все поля должны быть заполнены. Запись не была добавлена.".
Definition msg_phones_invalid : str :=
  Eval vm_compute in utf8 "Один или оба номера телефонов невалидны. Запись не была добавлена.".
Definition msg_added : str :=
  Eval vm_compute in utf8 "Запись успешно добавлена.".
Definition msg_not_found : str :=
  Eval vm_compute in utf8 "Запись с таким ID не найдена.".
Definition msg_current : str :=
  Eval vm_compute in utf8 "Текущая запись:".
Definition msg_updated : str :=
  Eval vm_compute in utf8 "Запись успешно обновлена.".
Definition edit_prompt (col : str) : str :=
  col ++ utf8 " (оставьте пустым, чтобы не менять): ".
Definition msg_invalid (key : str) : str :=
  key ++ utf8 " невалиден. Изменения не сохранены.".

(** What the process does that can be observed from outside, in order. *)
Inductive event : Type :=
| EvPrint (line : str)
| EvPrompt (prompt : str)
| EvTable (df : DataFrame)
| EvRow (cols : list str) (r : row)
| EvSave (df : DataFrame).

(** The [Directory] instance. *)
Record Directory : Type := mkDirectory {
  data : DataFrame;
  next_id : Z
}.

(** The instance together with its surroundings: the content of
    [records.csv] ([None]: no such file), the lines waiting on standard
    input, and the events so far. *)
Record World : Type := mkWorld {
  self : Directory;
  file : option str;
  stdin : list str;
  trace : list event
}.

Definition M (A : Type) : Type := World -> result A * World.

Definition ret {A} (a : A) : M A := fun w => (Ok a, w).

Definition bind {A B} (m : M A) (k : A -> M B) : M B :=
  fun w =>
    match m w with
    | (Ok a, w') => k a w'
    | (Raise e, w') => (Raise e, w')
    | (Unmodelled, w') => (Unmodelled, w')
    end.

Notation "x <- m ;; k" := (bind m (fun x => k))
  (at level 61, m at next level, right associativity).
Notation "m ;; k" := (bind m (fun _ => k))
  (at level 61, right associativity).

Definition raise {A} (e : exn) : M A := fun w => (Raise e, w).
Definition unmodelled {A} : M A := fun w => (Unmodelled, w).

Definition get_self : M Directory := fun w => (Ok (self w), w).

Definition set_data (df : DataFrame) : M unit :=
  fun w => (Ok tt, mkWorld (mkDirectory df (next_id (self w)))
                           (file w) (stdin w) (trace w)).

Definition set_next_id (n : Z) : M unit :=
  fun w => (Ok tt, mkWorld (mkDirectory (data (self w)) n)
                           (file w) (stdin w) (trace w)).

Definition emit (e : event) : M unit :=
  fun w => (Ok tt, mkWorld (self w) (file w) (stdin w) (trace w ++ [e])).

Definition print (line : str) : M unit := emit (EvPrint line).

(** [input(prompt)] *)
Definition input (prompt : str) : M str :=
  fun w =>
    match stdin w with
    | [] => (Raise EOFError,
             mkWorld (self w) (file w) [] (trace w ++ [EvPrompt prompt]))
    | l :: rest =>
        (Ok l, mkWorld (self w) (file w) rest (trace w ++ [EvPrompt prompt]))
    end.

(** *** [CSVDataStorage] *)

(** [load]: [read_csv], and the empty frame of the schema when the file
    does not exist. *)
Definition CSVDataStorage_load (f : option str) : result DataFrame :=
  match f with
  | Some content => read_csv content
  | None => Ok (mkDataFrame schema [])
  end.

(** [save]: [to_csv] opens the file for writing and sends it the lines
    of the frame.  When all of them can be encoded the file holds the CSV
    text of the frame; otherwise the call raises [UnicodeEncodeError] and
    the file holds the lines written before the one that failed. *)
Definition CSVDataStorage_save (df : DataFrame) : M unit :=
  fun w =>
    let '(text, done) := write_lines (csv_lines df) in
    (if done then Ok tt else Raise UnicodeEncodeError,
     mkWorld (self w) (Some text) (stdin w) (trace w ++ [EvSave df])).

(** *** [Directory] *)

(** [Directory.__new__]: the instance if there is one, else a new one
    loaded from [records.csv]. *)
Definition Directory_new (instance : option Directory) (f : option str)
  : result Directory :=
  match instance with
  | Some d => Ok d
  | None =>
      match CSVDataStorage_load f with
      | Ok df => Ok (mkDirectory df (len df + 1))
      | Raise e => Raise e
      | Unmodelled => Unmodelled
      end
  end.

Definition print_records : M unit :=
  d <- get_self ;; emit (EvTable (data d)).

Definition validate_phone (phone : str) : bool := isdigit phone.

(** [record[key]] *)
Definition getitem (record : dict str) (key : str) : M str :=
  match dict_get record key with
  | Some v => ret v
  | None => raise (KeyError key)
  end.

(** [{"ID": id, **record}] *)
Definition record_with_id (id : Z) (record : dict str) : dict cell :=
  dict_update [(col_ID, CInt id)]
              (map (fun kv => (fst kv, CStr (snd kv))) record).

Definition add_record (record : dict str) : M unit :=
  if existsb (fun value => str_eqb (strip value) []) (dict_values record)
  then print msg_fields_required
  else
    work <- getitem record col_work_phone ;;
    if negb (validate_phone work) then print msg_phones_invalid
    else
      mobile <- getitem record col_mobile_phone ;;
      if negb (validate_phone mobile) then print msg_phones_invalid
      else
        d <- get_self ;;
        match row_of_record (columns (data d))
                            (record_with_id (next_id d) record) with
        | None => unmodelled
        | Some new_row =>
            set_data (concat_row (data d) new_row) ;;
            d1 <- get_self ;;
            CSVDataStorage_save (data d1) ;;
            set_next_id (next_id d1 + 1) ;;
            print msg_added
        end.

(** The mask [row.astype(str).str.contains(keyword).any()] of one row. *)
Definition row_matches (p : list Re.atom) (r : row) : bool :=
  existsb (fun c => Re.search p (astype_str c)) r.

(** [self.data[self.data.apply(..., axis=1)]]; on a frame without rows
    [apply] gives an empty float series, which selects no column. *)
Definition search_result (p : list Re.atom) (df : DataFrame) : DataFrame :=
  match rows df with
  | [] => mkDataFrame [] []
  | _ => mkDataFrame (columns df) (filter (row_matches p) (rows df))
  end.

Definition search_records (keyword : str) : M unit :=
  d <- get_self ;;
  match Re.compile keyword with
  | None => unmodelled
  | Some p => emit (EvTable (search_result p (data d)))
  end.

(** The dictionary comprehension of [edit_record]: one [input] per column
    other than [ID], in column order. *)
Fixpoint read_fields (cols : list str) (record : dict str) : M (dict str) :=
  match cols with
  | [] => ret record
  | col :: rest =>
      if str_eqb col col_ID then read_fields rest record
      else
        value <- input (edit_prompt col) ;;
        read_fields rest (dict_set record col value)
  end.

Definition is_phone_column (key : str) : bool :=
  mem key [col_work_phone; col_mobile_phone].

(** The loop over [record.items()]; [false] when it left the method
    through its [return]. *)
Fixpoint apply_fields (index : nat) (items : dict str) : M bool :=
  match items with
  | [] => ret true
  | (key, value) :: rest =>
      if negb (str_eqb value []) then
        if is_phone_column key && negb (validate_phone value)
        then print (msg_invalid key) ;; ret false
        else
          d <- get_self ;;
          set_data (set_at (data d) index key (CStr value)) ;;
          apply_fields index rest
      else apply_fields index rest
  end.

Definition edit_record (record_id : Z) : M unit :=
  d <- get_self ;;
  match index_of col_ID (columns (data d)) with
  | None => raise (KeyError col_ID)
  | Some j =>
      match positions_from 0 j record_id (rows (data d)) with
      | [] => print msg_not_found
      | index :: _ =>
          print msg_current ;;
          emit (EvRow (columns (data d)) (nth index (rows (data d)) [])) ;;
          record <- read_fields (columns (data d)) [] ;;
          finished <- apply_fields index record ;;
          if finished then
            d1 <- get_self ;;
            CSVDataStorage_save (data d1) ;;
            print msg_updated
          else ret tt
      end
  end.

(** The frames handed to [save], oldest first. *)
Fixpoint saves (t : list event) : list DataFrame :=
  match t with
  | [] => []
  | EvSave df :: r => df :: saves r
  | _ :: r => saves r
  end.

(** ** Notions used to state the properties *)

(** Characters with Numeric_Type Decimal ([str.isdecimal], Unicode 14.0):
    the decimal digits of all scripts. *)
Definition decimal_ranges : list (N * N) :=
  [(48, 57); (1632, 1641); (1776, 1785); (1984, 1993); (2406, 2415);
   (2534, 2543); (2662, 2671); (2790, 2799); (2918, 2927); (3046, 3055);
   (3174, 3183); (3302, 3311); (3430, 3439); (3558, 3567); (3664, 3673);
   (3792, 3801); (3872, 3881); (4160, 4169); (4240, 4249); (6112, 6121);
   (6160, 6169); (6470, 6479); (6608, 6617); (6784, 6793); (6800, 6809);
   (6992, 7001); (7088, 7097); (7232, 7241); (7248, 7257); (42528, 42537);
   (43216, 43225); (43264, 43273); (43472, 43481); (43504, 43513);
   (43600, 43609); (44016, 44025); (65296, 65305); (66720, 66729);
   (68912, 68921); (69734, 69743); (69872, 69881); (69942, 69951);
   (70096, 70105); (70384, 70393); (70736, 70745); (70864, 70873);
   (71248, 71257); (71360, 71369); (71472, 71481); (71904, 71913);
   (72016, 72025); (72784, 72793); (73040, 73049); (73120, 73129);
   (92768, 92777); (92864, 92873); (93008, 93017); (120782, 120831);
   (123200, 123209); (123632, 123641); (125264, 125273);
   (130032, 130041)]%N.

Definition isdecimal_char : char -> bool := in_ranges decimal_ranges.

(** Empty or white space only. *)
Definition blank (s : str) : bool := forallb isspace_char s.


Definition nonempty (s : str) : bool := negb (str_eqb s []).

(** Non-empty and made of the digits [0]..[9] only. *)
Definition decimal_only (s : str) : bool :=
  match s with
  | [] => false
  | _ => forallb is_ascii_digit s
  end.

(** Non-empty and made of decimal digits of any script. *)
Definition unicode_decimal_only (s : str) : bool :=
  match s with
  | [] => false
  | _ => forallb isdecimal_char s
  end.





(** A keyword occurs literally in the text of some field of the row. *)
Definition literal_matches (keyword : str) (r : row) : bool :=
  existsb (fun c => contains (astype_str c) keyword) r.

Definition non_id_columns (cols : list str) : list str :=
  filter (fun c => negb (str_eqb c col_ID)) cols.

(** The candidates of an edit: the non-ID columns paired with the lines
    typed, as the dictionary comprehension builds them. *)
Definition field_dict (cols : list str) (inputs : list str) : dict str :=
  fold_left (fun acc ci => dict_set acc (fst ci) (snd ci))
            (combine (non_id_columns cols) inputs) [].

(** The frame after writing the non-empty candidates of [items] into the
    row at [index]. *)
Definition apply_items (df : DataFrame) (index : nat) (items : dict str)
  : DataFrame :=
  fold_left
    (fun d kv =>
       if str_eqb (snd kv) [] then d else set_at d index (fst kv) (CStr (snd kv)))
    items df.

(** The prompts of an edit, in order. *)
Definition edit_prompts (cols : list str) : list event :=
  map (fun c => EvPrompt (edit_prompt c)) (non_id_columns cols).


(** The world after a successful [add_record] that appended [r]. *)
Definition added_world (w : World) (r : row) : World :=
  let df := concat_row (data (self w)) r in
  mkWorld (mkDirectory df (next_id (self w) + 1)) (Some (to_csv df))
          (stdin w) (trace w ++ [EvSave df; EvPrint msg_added]).

(** The world after a call that only printed [line]. *)
Definition printed_world (w : World) (line : str) : World :=
  mkWorld (self w) (file w) (stdin w) (trace w ++ [EvPrint line]).

(** No cell of the row, and no label or cell of the frame, holds a
    surrogate: the text of the frame can be written to the file. *)
Definition row_encodable (r : row) : bool :=
  forallb (fun c => encodable (csv_text c)) r.

Definition frame_encodable (df : DataFrame) : bool :=
  forallb encodable (columns df) && forallb row_encodable (rows df).

(** The world after an [add_record] whose [save] raised: the record is in
    the collection, [next_id] has not advanced, nothing was reported, and
    the file holds the lines that went in before the failing one. *)
Definition unsaved_world (w : World) (r : row) : World :=
  let df := concat_row (data (self w)) r in
  mkWorld (mkDirectory df (next_id (self w)))
          (Some (fst (write_lines (csv_lines df))))
          (stdin w) (trace w ++ [EvSave df]).

(** The number of additions that the program has reported as done. *)
Fixpoint additions (t : list event) : nat :=
  match t with
  | [] => 0
  | EvPrint line :: r =>
      if str_eqb line msg_added then S (additions r) else additions r
  | _ :: r => additions r
  end.


(** The candidate at which the loop of [edit_record] gives up: not empty,
    for a phone column, and refused by [validate_phone]. *)
Definition item_fails (kv : str * str) : bool :=
  nonempty (snd kv) && is_phone_column (fst kv)
  && negb (validate_phone (snd kv)).

(** The world after the loop of [edit_record] wrote [applied]. *)
Definition edited_world (w : World) (index : nat) (applied : dict str)
  : World :=
  mkWorld (mkDirectory (apply_items (data (self w)) index applied)
                       (next_id (self w)))
          (file w) (stdin w) (trace w).

(** *** Sample data *)

Definition ivanov (work mobile : string) : dict str :=
  [(col_surname, utf8 "Ivanov"); (col_name, utf8 "Ivan");
   (col_patronymic, utf8 "Ivanovich"); (col_organization, utf8 "Acme");
   (col_work_phone, utf8 work); (col_mobile_phone, utf8 mobile)].

(** A fresh process in a directory without [records.csv]. *)
Definition fresh_world (lines : list str) : World :=
  mkWorld (mkDirectory (mkDataFrame schema []) 1) None lines [].

(** The same after one successful [add_record]. *)
Definition one_record_world (work mobile : string) (lines : list str)
  : World :=
  let w := snd (add_record (ivanov work mobile) (fresh_world [])) in
  mkWorld (self w) (file w) lines [].

(** The line of a user who only presses Enter. *)
Definition enter : str := [].

Definition ivanov_row (id : Z) (work mobile : string) : row :=
  [CInt id; CStr (utf8 "Ivanov"); CStr (utf8 "Ivan");
   CStr (utf8 "Ivanovich"); CStr (utf8 "Acme");
   CStr (utf8 work); CStr (utf8 mobile)].

(** *** Well-formed frames *)

(** Every row has one cell per column. *)
Definition rectangular (df : DataFrame) : bool :=
  forallb (fun r => (length r =? length (columns df))%nat) (rows df).

(** At least one column, the labels distinct and not empty, and every row
    with one cell per column. *)
Definition well_formed (df : DataFrame) : bool :=
  negb (length (columns df) =? 0)%nat
  && no_dup (columns df) && negb (mem [] (columns df)) && rectangular df.

(** *** The menu loop: [main] *)

(** [Py_ISSPACE], the blanks that [int] skips around a number. *)
Definition Py_ISSPACE (c : char) : bool :=
  char_eqb c 32 || ((9 <=? c)%N && (c <=? 13)%N).

(** [Py_UNICODE_TODECIMAL]: the value of a decimal digit of any script. *)
Definition decimal_value (c : char) : option N :=
  match find (fun r => (fst r <=? c)%N && (c <=? snd r)%N) decimal_ranges with
  | Some r => Some ((c - fst r) mod 10)%N
  | None => None
  end.

(** What [int] makes of a character before it parses: characters below
    127 stay, other white space becomes a space, other decimal digits
    become ASCII digits, anything else a question mark. *)
Definition to_ascii (c : char) : char :=
  if (c <? 127)%N then c
  else if isspace_char c then 32%N
  else match decimal_value c with
       | Some v => (48 + v)%N
       | None => 63%N
       end.

Fixpoint skip_py_spaces (s : str) : str :=
  match s with
  | [] => []
  | c :: r => if Py_ISSPACE c then skip_py_spaces r else s
  end.

(** Digits and single underscores between them; the value, the number of
    digits and what follows. *)
Fixpoint scan_digits (after_underscore : bool) (acc : Z) (n : nat) (s : str)
  : option (Z * nat * str) :=
  match s with
  | [] => if after_underscore then None else Some (acc, n, [])
  | c :: r =>
      if is_ascii_digit c
      then scan_digits false (10 * acc + (Z.of_N c - 48))%Z (S n) r
      else if char_eqb c 95
           then if after_underscore then None else scan_digits true acc n r
           else if after_underscore then None else Some (acc, n, s)
  end.

(** [int(s)] for a string; [None] stands for [ValueError].  At most 4300
    digits are accepted. *)
Definition int_of_str (s : str) : option Z :=
  let p := skip_py_spaces (map to_ascii s) in
  let '(negative, p) :=
    match p with
    | 45%N :: r => (true, r)
    | 43%N :: r => (false, r)
    | _ => (false, p)
    end in
  match p with
  | 95%N :: _ => None
  | _ =>
      match scan_digits false 0%Z 0%nat p with
      | Some (v, n, rest) =>
          if (n =? 0)%nat || (4300 <? n)%nat then None
          else match skip_py_spaces rest with
               | [] => Some (if negative then (- v)%Z else v)
               | _ => None
               end
      | None => None
      end
  end.

Definition menu : str :=
  Eval vm_compute in utf8 "1. Просмотреть записи
2. Добавить запись
3. Поиск записи
4. Редактировать запись
5. Выйти
Ваш выбор: ".

Definition add_prompt (col : str) : str := col ++ [58; 32]%N.
Definition search_prompt : str :=
  Eval vm_compute in utf8 "Поиск по ключевому слову: ".
Definition id_prompt : str :=
  Eval vm_compute in utf8 "Введите ID записи для редактирования: ".
Definition msg_unknown : str :=
  Eval vm_compute in utf8 "Неизвестный выбор".

(** The dictionary comprehension of choice 2: one [input] per column
    other than [ID]. *)
Fixpoint ask_fields (cols : list str) (record : dict str) : M (dict str) :=
  match cols with
  | [] => ret record
  | col :: rest =>
      if str_eqb col col_ID then ask_fields rest record
      else
        value <- input (add_prompt col) ;;
        ask_fields rest (dict_set record col value)
  end.

(** How one round of the loop ends: another round, the [break], or the
    [ValueError] of [int]. *)
Inductive flow : Type :=
| Again
| Leave
| ValueError.

(** The body of [while True]. *)
Definition menu_round : M flow :=
  choice <- input menu ;;
  if str_eqb choice [49%N] then print_records ;; ret Again
  else if str_eqb choice [50%N] then
    d <- get_self ;;
    record <- ask_fields (columns (data d)) [] ;;
    add_record record ;; ret Again
  else if str_eqb choice [51%N] then
    keyword <- input search_prompt ;;
    search_records keyword ;; ret Again
  else if str_eqb choice [52%N] then
    line <- input id_prompt ;;
    match int_of_str line with
    | Some index => edit_record index ;; ret Again
    | None => ret ValueError
    end
  else if str_eqb choice [53%N] then ret Leave
  else print msg_unknown ;; ret Again.

(** How the process ends. *)
Inductive ending : Type :=
| Returned
| Uncaught (e : exn)
| UncaughtValueError
| NotModelled.

(** The loop, for at most [fuel] rounds; [None] when they do not
    suffice. *)
Fixpoint main_loop (fuel : nat) (w : World) : option (ending * World) :=
  match fuel with
  | O => None
  | S n =>
      match menu_round w with
      | (Ok Again, w') => main_loop n w'
      | (Ok Leave, w') => Some (Returned, w')
      | (Ok ValueError, w') => Some (UncaughtValueError, w')
      | (Raise e, w') => Some (Uncaught e, w')
      | (Unmodelled, w') => Some (NotModelled, w')
      end
  end.

(** [main]: [Directory()], then the loop.  The world is missing from the
    result when [Directory()] itself raised. *)
Definition main (fuel : nat) (instance : option Directory) (f : option str)
           (lines : list str) : option (ending * option World) :=
  match Directory_new instance f with
  | Ok d =>
      match main_loop fuel (mkWorld d f lines []) with
      | Some (e, w) => Some (e, Some w)
      | None => None
      end
  | Raise e => Some (Uncaught e, None)
  | Unmodelled => Some (NotModelled, None)
  end.

(** A line that is none of the five choices of the menu. *)
Definition is_choice (line : str) : bool :=
  mem line [[49%N]; [50%N]; [51%N]; [52%N]; [53%N]].

(** What holds of the rows throughout a session that started with the
    instance [d], whose [ID] column is column [j]: the columns are those
    of [d], the loaded records keep their identifiers, and the record at
    position [i] beyond them has identifier [i + 1]. *)
Definition session_rows (d : Directory) (j : nat) (w : World) : Prop :=
  columns (data (self w)) = columns (data d)
  /\ (length (rows (data d)) <= length (rows (data (self w))))%nat
  /\ (forall i r0 r,
        nth_error (rows (data d)) i = Some r0 ->
        nth_error (rows (data (self w))) i = Some r ->
        nth_error r j = nth_error r0 j)
  /\ (forall i r,
        (length (rows (data d)) <= i)%nat ->
        nth_error (rows (data (self w))) i = Some r ->
        nth_error r j = Some (CInt (Z.of_nat i + 1))).

(** Between two rounds of the menu, [next_id] is moreover the number of
    records plus one. *)
Definition session_numbered (d : Directory) (j : nat) (w : World) : Prop :=
  session_rows d j w
  /\ next_id (self w) = (len (data (self w)) + 1)%Z.

(** *** Frames that survive the CSV file *)

(** Characters that the writer writes as they are and the reader reads
    as they are: no separator, quote, line end or byte-order mark, no NUL
    (the tokenizer ends a field at it) and no surrogate (UTF-8 cannot
    encode it). *)
Definition plain_char (c : char) : bool :=
  negb (char_eqb c 44 || char_eqb c 34 || char_eqb c 10
        || char_eqb c 13 || char_eqb c 65279
        || char_eqb c 0 || is_surrogate c).

Definition plain (s : str) : bool := forallb plain_char s.

Definition is_int64 (c : cell) : bool :=
  match c with
  | CInt z => ((- 2 ^ 63 <=? z) && (z <=? 2 ^ 63 - 1))%Z
  | _ => false
  end.

Definition is_text (c : cell) : bool :=
  match c with
  | CStr s => definitely_text s
  | _ => false
  end.

Definition is_object (c : cell) : bool :=
  match c with
  | CStr s => plain s && negb (mem s na_values)
  | CNaN => true
  | CInt _ => false
  end.

(** A column as [read_csv] types it: 64-bit integers throughout, or text
    and missing values with at least one value that is text beyond
    doubt. *)
Definition column_ok (cells : list cell) : bool :=
  forallb is_int64 cells || (existsb is_text cells && forallb is_object cells).

(** At least two columns with distinct, non-empty, plain labels, one cell
    per column in every row, and every column typed as [read_csv] types
    it. *)
Definition storable (df : DataFrame) : bool :=
  (2 <=? length (columns df))%nat
  && no_dup (columns df) && negb (mem [] (columns df))
  && forallb plain (columns df)
  && rectangular df
  && forallb (fun j => column_ok (column_at CNaN (rows df) j))
             (seq 0 (length (columns df))).

(** *** Phones in the file *)




(** ** The model at work *)

Example utf8_samples :
  utf8 "ID" = [73; 68]%N /\ utf8 "²" = [178]%N
  /\ utf8 "Имя" = [1048; 1084; 1103]%N.
Proof. repeat (split; [vm_compute; reflexivity|]). vm_compute. reflexivity. Qed.

Example str_of_int_samples :
  str_of_int 0 = utf8 "0" /\ str_of_int (-407) = utf8 "-407".
Proof. split; vm_compute; reflexivity. Qed.

Example strip_sample : strip (utf8 "  a b  ") = utf8 "a b".
Proof. vm_compute. reflexivity. Qed.

Example isdigit_samples :
  map isdigit [utf8 "0123"; enter; utf8 "12a"; utf8 "+7"; utf8 "1 2"; utf8 "٣"]
  = [true; false; false; false; false; true].
Proof. vm_compute. reflexivity. Qed.

Example compile_samples :
  Re.compile (utf8 "a.c") = Some [Re.Lit 97; Re.AnyChar; Re.Lit 99]
  /\ Re.compile (utf8 "+7") = None.
Proof. split; vm_compute; reflexivity. Qed.

Example str_to_int64_samples :
  map str_to_int64
      (map utf8 ["007"; "+7"; " 12 "; "-"; "1 2"; "9223372036854775808"]%string)
  = [Some 7%Z; Some 7%Z; Some 12%Z; None; None; None].
Proof. vm_compute. reflexivity. Qed.

Example to_csv_sample :
  to_csv (mkDataFrame [utf8 "a"; utf8 "b"]
                      [[CInt 1; CStr (utf8 "x,y")]; [CNaN; CStr (utf8 "z")]])
  = utf8 "a,b" ++ [10%N] ++ utf8 "1," ++ [34%N] ++ utf8 "x,y" ++ [34; 10]%N
    ++ utf8 ",z" ++ [10%N].
Proof. vm_compute. reflexivity. Qed.

Example read_csv_sample :
  read_csv (utf8 "a,b
1,NA
02,Ivanov
")
  = Ok (mkDataFrame [utf8 "a"; utf8 "b"]
                    [[CInt 1; CNaN]; [CInt 2; CStr (utf8 "Ivanov")]]).
Proof. vm_compute. reflexivity. Qed.

(** The scenario of the specification: two additions get the identifiers
    1 and 2, a valid mobile phone replaces the old one, an invalid one is
    refused and leaves it. *)
Example concrete_scenario :
  let w1 := snd (add_record (ivanov "1234567" "7654321") (fresh_world [])) in
  let w2 := snd (add_record (ivanov "1234567" "7654321") w1) in
  let typed l := mkWorld (self w2) (file w2) l [] in
  let w3 :=
    snd (edit_record 1 (typed [enter; enter; enter; enter; enter;
                               utf8 "000"])) in
  let w4 :=
    snd (edit_record 1 (mkWorld (self w3) (file w3)
                          [enter; enter; enter; enter; enter; utf8 "abc"] [])) in
  rows (data (self w2))
  = [ivanov_row 1 "1234567" "7654321"; ivanov_row 2 "1234567" "7654321"]
  /\ rows (data (self w3))
     = [ivanov_row 1 "1234567" "000"; ivanov_row 2 "1234567" "7654321"]
  /\ saves (trace w3) = [data (self w3)]
  /\ data (self w4) = data (self w3)
  /\ saves (trace w4) = [].
Proof.
  repeat (split; [vm_compute; reflexivity|]). vm_compute. reflexivity.
Qed.

(** ** Facts about strings *)

Lemma char_eqb_eq (a b : char) : char_eqb a b = true <-> a = b.
Proof. unfold char_eqb. apply N.eqb_eq. Qed.

Lemma str_eqb_eq (s t : str) : str_eqb s t = true <-> s = t.
Proof.
  revert t. induction s as [|a s IH]; intros [|b t]; simpl;
    try (split; [discriminate | congruence]); try tauto.
  rewrite andb_true_iff, char_eqb_eq, IH.
  split; [intros [-> ->]; reflexivity | intros H; inversion H; auto].
Qed.

Lemma str_eqb_refl (s : str) : str_eqb s s = true.
Proof. apply str_eqb_eq. reflexivity. Qed.

Lemma str_eqb_neq (s t : str) : str_eqb s t = false <-> s <> t.
Proof.
  rewrite <- str_eqb_eq. destruct (str_eqb s t); split; congruence.
Qed.

Lemma str_eqb_nil (s : str) : str_eqb s [] = true <-> s = [].
Proof. apply str_eqb_eq. Qed.

Lemma lstrip_blank (s : str) : lstrip s = [] <-> blank s = true.
Proof.
  unfold blank. induction s as [|c s IH]; simpl; [tauto|].
  destruct (isspace_char c); simpl; [exact IH|].
  split; discriminate.
Qed.

Lemma blank_app (s t : str) : blank (s ++ t) = blank s && blank t.
Proof. unfold blank. apply forallb_app. Qed.

Lemma blank_rev (s : str) : blank (rev s) = blank s.
Proof.
  induction s as [|c s IH]; simpl; [reflexivity|].
  rewrite blank_app, IH. unfold blank at 2. simpl.
  rewrite andb_true_r. apply andb_comm.
Qed.

Lemma lstrip_head (s : str) (c : char) (r : str) :
  lstrip s = c :: r -> isspace_char c = false.
Proof.
  induction s as [|a s IH]; simpl; [discriminate|].
  destruct (isspace_char a) eqn:E; [exact IH|].
  intros H; inversion H; subst; exact E.
Qed.

Lemma rev_nil_inv {A} (l : list A) : rev l = [] -> l = [].
Proof.
  intros H. rewrite <- (rev_involutive l), H. reflexivity.
Qed.

(** [value.strip()] is the empty string exactly for the blank values. *)
Lemma strip_blank (s : str) : str_eqb (strip s) [] = blank s.
Proof.
  apply eq_true_iff_eq. rewrite str_eqb_nil. unfold strip, rstrip. split.
  - intros H. apply rev_nil_inv in H. apply lstrip_blank in H.
    rewrite blank_rev in H. apply lstrip_blank.
    destruct (lstrip s) as [|c r] eqn:E; [reflexivity|].
    apply lstrip_head in E. unfold blank in H. simpl in H.
    rewrite E in H. discriminate.
  - intros H. apply lstrip_blank in H. rewrite H. reflexivity.
Qed.

Lemma in_ranges_below (tbl : list (N * N)) (b c : N) :
  forallb (fun r => (b <=? fst r)%N) tbl = true ->
  (c < b)%N -> in_ranges tbl c = false.
Proof.
  unfold in_ranges. induction tbl as [|[lo hi] tbl IH]; simpl; [reflexivity|].
  rewrite andb_true_iff. intros [Hlo Hrest] Hc.
  rewrite (IH Hrest Hc), orb_false_r.
  apply N.leb_le in Hlo. apply andb_false_iff. left.
  apply N.leb_gt. lia.
Qed.

(** Below 128 the digits of [str.isdigit] are [0]..[9]. *)
Lemma isdigit_char_ascii (c : char) :
  is_ascii c = true -> isdigit_char c = is_ascii_digit c.
Proof.
  unfold is_ascii. intros H. apply N.ltb_lt in H.
  unfold isdigit_char.
  replace digit_ranges with ((48, 57)%N :: tl digit_ranges) by reflexivity.
  unfold in_ranges at 1. cbn [existsb fst snd].
  fold (in_ranges (tl digit_ranges) c).
  rewrite (@in_ranges_below (tl digit_ranges) 128 c);
    [apply orb_false_r | vm_compute; reflexivity | exact H].
Qed.

Lemma isdigit_ascii (s : str) :
  forallb is_ascii s = true -> isdigit s = decimal_only s.
Proof.
  unfold isdigit, decimal_only. destruct s as [|a s]; [reflexivity|].
  generalize (a :: s). intros l. induction l as [|c l IH]; simpl; [reflexivity|].
  rewrite andb_true_iff. intros [Hc Hl].
  rewrite (isdigit_char_ascii _ Hc), (IH Hl). reflexivity.
Qed.

Lemma ascii_digit_is_ascii (c : char) :
  is_ascii_digit c = true -> is_ascii c = true.
Proof.
  unfold is_ascii_digit, is_ascii. rewrite andb_true_iff.
  intros [_ H]. apply N.leb_le in H. apply N.ltb_lt. lia.
Qed.

Lemma decimal_only_isdigit (s : str) :
  decimal_only s = true -> isdigit s = true.
Proof.
  intros H. rewrite isdigit_ascii; [exact H|].
  unfold decimal_only in H. destruct s as [|a s]; [discriminate|].
  rewrite forallb_forall in *. intros c Hc.
  apply ascii_digit_is_ascii, H, Hc.
Qed.


(** ** Phone validation *)

(** C3 as stated fails: [validate_phone] accepts the superscript two,
    which is neither one of [0]..[9] nor a decimal digit of any script. *)
Lemma validate_phone_superscript_counterexample :
  validate_phone (utf8 "²") = true
  /\ decimal_only (utf8 "²") = false
  /\ unicode_decimal_only (utf8 "²") = false.
Proof. repeat split; vm_compute; reflexivity. Qed.

(** C3, amended: [validate_phone] accepts exactly the non-empty strings
    whose characters all have the Unicode digit property of [str.isdigit];
    on strings of ASCII characters these are exactly the non-empty strings
    of the decimal digits [0]..[9], all of which are accepted. *)
Theorem validate_phone_accepts (p : str) :
  (validate_phone p = true <->
   p <> [] /\ forall c, In c p -> isdigit_char c = true)
  /\ (forallb is_ascii p = true ->
      (validate_phone p = true <->
       p <> [] /\ forall c, In c p -> is_ascii_digit c = true))
  /\ (p <> [] -> (forall c, In c p -> is_ascii_digit c = true) ->
      validate_phone p = true).
Proof.
  assert (Hdec : decimal_only p = true <->
                 p <> [] /\ forall c, In c p -> is_ascii_digit c = true).
  { unfold decimal_only. destruct p as [|a p].
    - split; [discriminate | intros [H _]; congruence].
    - rewrite forallb_forall. split; [intros H; split; [discriminate|exact H]|tauto]. }
  split; [|split].
  - unfold validate_phone, isdigit. destruct p as [|a p].
    + split; [discriminate | intros [H _]; congruence].
    + rewrite forallb_forall. split; [intros H; split; [discriminate|exact H]|tauto].
  - intros Hascii. unfold validate_phone. rewrite (isdigit_ascii _ Hascii).
    exact Hdec.
  - intros Hne Hall. apply decimal_only_isdigit, Hdec. auto.
Qed.

Lemma validate_phone_accepts_witness :
  validate_phone (utf8 "0123456") = true.
Proof.
  apply (validate_phone_accepts (utf8 "0123456")).
  - discriminate.
  - intros c Hc. simpl in Hc.
    repeat (destruct Hc as [<- | Hc]; [reflexivity|]). destruct Hc.
Defined.

(** ** Dictionaries and rows *)

Lemma str_eqb_sym (s t : str) : str_eqb s t = str_eqb t s.
Proof.
  apply eq_true_iff_eq. rewrite !str_eqb_eq. split; congruence.
Qed.

Lemma dict_get_set {V} (d : dict V) (k k' : str) (v : V) :
  dict_get (dict_set d k v) k' = if str_eqb k k' then Some v else dict_get d k'.
Proof.
  induction d as [|[a x] d IH]; simpl.
  - reflexivity.
  - destruct (str_eqb a k) eqn:Eak; simpl.
    + apply str_eqb_eq in Eak. subst a.
      destruct (str_eqb k k'); reflexivity.
    + rewrite IH. destruct (str_eqb a k') eqn:Eak'; [|reflexivity].
      apply str_eqb_eq in Eak'. subst a.
      rewrite (str_eqb_sym k k'), Eak. reflexivity.
Qed.

Lemma dict_get_update_none {V} (e d : dict V) (k : str) :
  dict_get e k = None -> dict_get (dict_update d e) k = dict_get d k.
Proof.
  unfold dict_update. revert d.
  induction e as [|[a x] e IH]; intros d; simpl; [reflexivity|].
  destruct (str_eqb a k) eqn:E; [discriminate|].
  intros H. rewrite (IH _ H), dict_get_set, E. reflexivity.
Qed.

Lemma dict_get_none_mem {V} (d : dict V) (k : str) :
  mem k (map fst d) = false -> dict_get d k = None.
Proof.
  unfold mem. induction d as [|[a x] d IH]; simpl; [reflexivity|].
  rewrite orb_false_iff. intros [H1 H2].
  rewrite (str_eqb_sym a k), H1. exact (IH H2).
Qed.

(** In a dictionary (no key twice) an update carries the new entries. *)
Lemma dict_get_update_some {V} (e d : dict V) (k : str) (v : V) :
  no_dup (map fst e) = true ->
  dict_get e k = Some v -> dict_get (dict_update d e) k = Some v.
Proof.
  unfold dict_update. revert d.
  induction e as [|[a x] e IH]; intros d; simpl; [discriminate|].
  rewrite andb_true_iff, negb_true_iff. intros [Hmem Hnd].
  destruct (str_eqb a k) eqn:E.
  - intros H. inversion H; subst x. apply str_eqb_eq in E. subst a.
    fold (dict_update (dict_set d k v) e).
    rewrite (dict_get_update_none _ _ _ (dict_get_none_mem _ _ Hmem)).
    rewrite dict_get_set, str_eqb_refl. reflexivity.
  - intros H. apply (IH _ Hnd H).
Qed.

Lemma dict_get_map {V W} (f : V -> W) (d : dict V) (k : str) :
  dict_get (map (fun kv => (fst kv, f (snd kv))) d) k
  = option_map f (dict_get d k).
Proof.
  induction d as [|[a x] d IH]; simpl; [reflexivity|].
  destruct (str_eqb a k); [reflexivity | exact IH].
Qed.

Lemma dict_get_in {V} (d : dict V) (k : str) (v : V) :
  dict_get d k = Some v -> In v (dict_values d).
Proof.
  induction d as [|[a x] d IH]; simpl; [discriminate|].
  destruct (str_eqb a k); [intros H; inversion H; auto | auto].
Qed.

Lemma map_fst_cells (record : dict str) :
  map fst (map (fun kv : str * str => (fst kv, CStr (snd kv))) record)
  = map fst record.
Proof. rewrite map_map. reflexivity. Qed.

Lemma record_with_id_get (id : Z) (record : dict str) (k : str) (v : str) :
  no_dup (map fst record) = true ->
  dict_get record k = Some v ->
  dict_get (record_with_id id record) k = Some (CStr v).
Proof.
  intros Hnd H. unfold record_with_id. apply dict_get_update_some.
  - rewrite map_fst_cells. exact Hnd.
  - rewrite dict_get_map, H. reflexivity.
Qed.

Lemma record_with_id_get_none (id : Z) (record : dict str) (k : str) :
  dict_get record k = None ->
  dict_get (record_with_id id record) k
  = if str_eqb col_ID k then Some (CInt id) else None.
Proof.
  intros H. unfold record_with_id. rewrite dict_get_update_none.
  - reflexivity.
  - rewrite dict_get_map, H. reflexivity.
Qed.

Lemma saves_app (t u : list event) : saves (t ++ u) = saves t ++ saves u.
Proof.
  induction t as [|e t IH]; simpl; [reflexivity|].
  destruct e; simpl; rewrite IH; reflexivity.
Qed.

Lemma existsb_strip_blank (l : list str) :
  existsb (fun value => str_eqb (strip value) []) l = existsb blank l.
Proof.
  induction l as [|s l IH]; simpl; [reflexivity|].
  rewrite strip_blank, IH. reflexivity.
Qed.

Lemma row_of_record_some (cols : list str) (rec : dict cell) :
  (forall c, In c cols -> dict_get rec c <> None) ->
  exists r,
    row_of_record cols rec = Some r
    /\ length r = length cols
    /\ forall j c, nth_error cols j = Some c ->
                   nth_error r j = dict_get rec c.
Proof.
  induction cols as [|c cols IH]; intros Hall.
  - exists []. repeat split; auto. intros [|j] c H; discriminate.
  - destruct IH as (r & Hr & Hlen & Hnth).
    { intros c' Hc'. apply Hall. right. exact Hc'. }
    destruct (dict_get rec c) as [v|] eqn:Hc.
    2:{ exfalso. apply (Hall c); [left; reflexivity | exact Hc]. }
    exists (v :: r). simpl. rewrite Hc, Hr. repeat split.
    + simpl. congruence.
    + intros [|j] c' H; simpl in *.
      * inversion H; subst. symmetry. exact Hc.
      * apply Hnth. exact H.
Qed.

Lemma record_with_id_cell (id : Z) (record : dict str) (c : str) :
  no_dup (map fst record) = true ->
  dict_get (record_with_id id record) c =
  match dict_get record c with
  | Some v => Some (CStr v)
  | None => if str_eqb col_ID c then Some (CInt id) else None
  end.
Proof.
  intros Hnd. destruct (dict_get record c) as [v|] eqn:Hc.
  - apply record_with_id_get; assumption.
  - apply record_with_id_get_none. exact Hc.
Qed.

(** ** Saving *)

Lemma forallb_update_nth {A} (P : A -> bool) (f : A -> A) (n : nat)
      (l : list A) :
  (forall x, P x = true -> P (f x) = true) ->
  forallb P l = true -> forallb P (update_nth n f l) = true.
Proof.
  intros Hf. revert n. induction l as [|x l IH]; intros n; simpl.
  - destruct n; reflexivity.
  - rewrite andb_true_iff. intros [Hx Hl].
    destruct n; simpl; rewrite andb_true_iff; auto.
Qed.

Lemma forallb_impl {A} (P Q : A -> bool) (l : list A) :
  (forall x, P x = true -> Q x = true) ->
  forallb P l = true -> forallb Q l = true.
Proof.
  rewrite !forallb_forall. intros H Hl x Hx. apply H, Hl, Hx.
Qed.

Lemma forallb_map_comp {A B} (g : A -> B) (P : B -> bool) (l : list A) :
  forallb P (map g l) = forallb (fun x => P (g x)) l.
Proof.
  induction l as [|x l IH]; simpl; [reflexivity|]. rewrite IH. reflexivity.
Qed.

Lemma to_csv_concat (df : DataFrame) : to_csv df = List.concat (csv_lines df).
Proof. reflexivity. Qed.

Lemma encodable_app (a b : str) :
  encodable (a ++ b) = encodable a && encodable b.
Proof.
  unfold encodable. rewrite existsb_app, negb_orb. reflexivity.
Qed.

Lemma write_lines_all (ls : list str) :
  encodable (List.concat ls) = true ->
  write_lines ls = (List.concat ls, true).
Proof.
  induction ls as [|l ls IH]; [reflexivity|].
  cbn [List.concat write_lines]. rewrite encodable_app, andb_true_iff.
  intros [Hl Hls]. rewrite Hl, (IH Hls). reflexivity.
Qed.

Lemma write_lines_stops (ls : list str) :
  encodable (List.concat ls) = false -> snd (write_lines ls) = false.
Proof.
  induction ls as [|l ls IH]; [discriminate|].
  cbn [List.concat write_lines]. rewrite encodable_app.
  destruct (encodable l); [|reflexivity]. cbn [andb]. intros H.
  specialize (IH H). destruct (write_lines ls) as [text done]. exact IH.
Qed.

(** [save] of a frame whose text can be encoded, and of one whose text
    cannot. *)
Lemma save_ok (df : DataFrame) (w : World) :
  encodable (to_csv df) = true ->
  CSVDataStorage_save df w
  = (Ok tt, mkWorld (self w) (Some (to_csv df)) (stdin w)
                    (trace w ++ [EvSave df])).
Proof.
  intros H. unfold CSVDataStorage_save.
  rewrite to_csv_concat in *. rewrite (write_lines_all _ H). reflexivity.
Qed.

Lemma save_raises (df : DataFrame) (w : World) :
  encodable (to_csv df) = false ->
  CSVDataStorage_save df w
  = (Raise UnicodeEncodeError,
     mkWorld (self w) (Some (fst (write_lines (csv_lines df)))) (stdin w)
             (trace w ++ [EvSave df])).
Proof.
  intros H. unfold CSVDataStorage_save. rewrite to_csv_concat in H.
  pose proof (write_lines_stops _ H) as Hd.
  destruct (write_lines (csv_lines df)) as [text done]. cbn [fst snd] in *.
  rewrite Hd. reflexivity.
Qed.

(** *** Text that can be encoded *)

Lemma encodable_cons (c : char) (s : str) :
  encodable (c :: s) = negb (is_surrogate c) && encodable s.
Proof. unfold encodable. simpl. apply negb_orb. Qed.

Lemma encodable_digits (d : Decimal.uint) :
  encodable (digits_of_uint d) = true.
Proof.
  induction d; cbn [digits_of_uint]; [reflexivity| ..];
    rewrite encodable_cons, IHd; reflexivity.
Qed.

Lemma encodable_str_of_int (z : Z) : encodable (str_of_int z) = true.
Proof.
  unfold str_of_int. destruct (Z.to_int z).
  - apply encodable_digits.
  - rewrite encodable_cons, encodable_digits. reflexivity.
Qed.

Lemma encodable_double_quotes (s : str) :
  encodable (double_quotes s) = encodable s.
Proof.
  induction s as [|c s IH]; [reflexivity|]. cbn [double_quotes].
  destruct (char_eqb c 34) eqn:E.
  - apply char_eqb_eq in E. subst c.
    rewrite !encodable_cons, IH. reflexivity.
  - rewrite !encodable_cons, IH. reflexivity.
Qed.

Lemma encodable_csv_field (s : str) : encodable (csv_field s) = encodable s.
Proof.
  unfold csv_field. destruct (needs_quote s); [|reflexivity].
  rewrite encodable_cons, encodable_app, encodable_double_quotes.
  cbn. apply andb_true_r.
Qed.

Lemma encodable_join (l : list str) :
  encodable (join [44%N] l) = forallb encodable l.
Proof.
  induction l as [|x l IH]; [reflexivity|].
  destruct l as [|y l].
  - cbn. rewrite andb_true_r. reflexivity.
  - change (join [44%N] (x :: y :: l))
      with (x ++ [44%N] ++ join [44%N] (y :: l)).
    rewrite !encodable_app, IH. reflexivity.
Qed.

Lemma encodable_csv_line (fields : list str) :
  encodable (csv_line fields) = forallb encodable fields.
Proof.
  assert (H : encodable (join [44%N] (map csv_field fields) ++ [10%N])
              = forallb encodable fields).
  { rewrite encodable_app, encodable_join, forallb_map_comp.
    cbn. rewrite andb_true_r.
    induction fields as [|x l IH]; [reflexivity|].
    cbn [forallb]. rewrite encodable_csv_field, IH. reflexivity. }
  destruct fields as [|[|c x] [|y l]]; exact H.
Qed.

(** The text of a frame can be encoded exactly when its labels and cells
    can. *)
Lemma encodable_to_csv (df : DataFrame) :
  encodable (to_csv df) = frame_encodable df.
Proof.
  unfold to_csv, frame_encodable.
  rewrite encodable_app, encodable_csv_line. f_equal.
  induction (rows df) as [|r rs IH]; [reflexivity|].
  cbn [map List.concat forallb].
  rewrite encodable_app, encodable_csv_line, IH. f_equal.
  unfold row_encodable. apply forallb_map_comp.
Qed.

Lemma frame_encodable_concat (df : DataFrame) (r : row) :
  frame_encodable (concat_row df r) = frame_encodable df && row_encodable r.
Proof.
  unfold frame_encodable, concat_row. cbn [columns rows].
  rewrite forallb_app. cbn. rewrite andb_true_r. apply andb_assoc.
Qed.

(** The row built from a mapping of encodable values can be encoded. *)
Lemma row_of_record_encodable (cols : list str) (id : Z) (record : dict str)
      (r : row) :
  no_dup (map fst record) = true ->
  forallb encodable (dict_values record) = true ->
  row_of_record cols (record_with_id id record) = Some r ->
  row_encodable r = true.
Proof.
  intros Hnd Hvalues. revert r.
  induction cols as [|c cols IH]; intros r; simpl.
  - intros H; inversion H; reflexivity.
  - rewrite (record_with_id_cell _ _ _ Hnd).
    destruct (row_of_record cols (record_with_id id record)) as [xs|].
    2:{ destruct (dict_get record c); [discriminate|].
        destruct (str_eqb col_ID c); discriminate. }
    specialize (IH xs eq_refl). unfold row_encodable in *.
    destruct (dict_get record c) as [v|] eqn:Hc.
    + intros H; inversion H; subst r. cbn [forallb csv_text].
      rewrite IH, andb_true_r.
      rewrite forallb_forall in Hvalues. apply Hvalues.
      apply (dict_get_in _ _ _ Hc).
    + destruct (str_eqb col_ID c); [|discriminate].
      intros H; inversion H; subst r. cbn [forallb csv_text].
      rewrite encodable_str_of_int, IH. reflexivity.
Qed.

(** When the frame could be written but the new row cannot, the lines
    that reach the file are those of the frame. *)
Lemma write_lines_prefix (df : DataFrame) (r : row) :
  frame_encodable df = true -> row_encodable r = false ->
  fst (write_lines (csv_lines (concat_row df r))) = to_csv df.
Proof.
  intros Hdf Hr. rewrite <- encodable_to_csv in Hdf.
  unfold to_csv, csv_lines, concat_row in *. cbn [columns rows].
  rewrite encodable_app in Hdf. apply andb_true_iff in Hdf.
  destruct Hdf as [Hhead Hrows]. cbn [write_lines]. rewrite Hhead.
  assert (H : fst (write_lines
                     (map (fun r0 => csv_line (map csv_text r0))
                          (rows df ++ [r])))
              = List.concat (map (fun r0 => csv_line (map csv_text r0))
                                 (rows df))).
  { induction (rows df) as [|x rs IH].
    - cbn [app map write_lines List.concat].
      rewrite encodable_csv_line, forallb_map_comp.
      unfold row_encodable in Hr. rewrite Hr. reflexivity.
    - cbn [app map write_lines List.concat] in *.
      rewrite encodable_app in Hrows. apply andb_true_iff in Hrows.
      destruct Hrows as [Hx Hrs]. rewrite Hx. specialize (IH Hrs).
      destruct (write_lines _) as [text done]. cbn [fst] in *.
      rewrite IH. reflexivity. }
  destruct (write_lines _) as [text done]. cbn [fst] in *.
  rewrite H. reflexivity.
Qed.

(** What is needed for the [save] of an addition to succeed. *)
Lemma encodable_addition (df : DataFrame) (id : Z) (record : dict str)
      (r : row) :
  frame_encodable df = true ->
  no_dup (map fst record) = true ->
  forallb encodable (dict_values record) = true ->
  row_of_record (columns df) (record_with_id id record) = Some r ->
  encodable (to_csv (concat_row df r)) = true.
Proof.
  intros Hdf Hnd Hvalues Hr.
  rewrite encodable_to_csv, frame_encodable_concat, Hdf.
  apply (row_of_record_encodable _ _ _ _ Hnd Hvalues Hr).
Qed.

(** ** [add_record], case by case *)

Ltac run := unfold bind, print, emit, getitem, ret, raise, unmodelled,
  get_self, set_data, set_next_id; simpl.

Lemma add_record_blank (record : dict str) (w : World) :
  existsb blank (dict_values record) = true ->
  add_record record w = (Ok tt, printed_world w msg_fields_required).
Proof.
  intros H. unfold add_record. rewrite existsb_strip_blank, H. reflexivity.
Qed.

Lemma add_record_work_invalid (record : dict str) (w : World) (work : str) :
  existsb blank (dict_values record) = false ->
  dict_get record col_work_phone = Some work ->
  validate_phone work = false ->
  add_record record w = (Ok tt, printed_world w msg_phones_invalid).
Proof.
  intros Hb Hw Hv. unfold add_record. rewrite existsb_strip_blank, Hb.
  run. rewrite Hw. simpl. rewrite Hv. reflexivity.
Qed.

Lemma add_record_mobile_invalid (record : dict str) (w : World)
      (work mobile : str) :
  existsb blank (dict_values record) = false ->
  dict_get record col_work_phone = Some work ->
  validate_phone work = true ->
  dict_get record col_mobile_phone = Some mobile ->
  validate_phone mobile = false ->
  add_record record w = (Ok tt, printed_world w msg_phones_invalid).
Proof.
  intros Hb Hw Hv Hm Hvm. unfold add_record. rewrite existsb_strip_blank, Hb.
  run. rewrite Hw. simpl. rewrite Hv. simpl. rewrite Hm. simpl.
  rewrite Hvm. reflexivity.
Qed.

(** A validated mapping up to the call of [save]. *)
Lemma add_record_validated (record : dict str) (w : World)
      (work mobile : str) (r : row) :
  existsb blank (dict_values record) = false ->
  dict_get record col_work_phone = Some work ->
  validate_phone work = true ->
  dict_get record col_mobile_phone = Some mobile ->
  validate_phone mobile = true ->
  row_of_record (columns (data (self w)))
                (record_with_id (next_id (self w)) record) = Some r ->
  add_record record w =
  let df := concat_row (data (self w)) r in
  match CSVDataStorage_save df
          (mkWorld (mkDirectory df (next_id (self w)))
                   (file w) (stdin w) (trace w)) with
  | (Ok _, w1) =>
      (Ok tt, mkWorld (mkDirectory (data (self w1)) (next_id (self w) + 1))
                      (file w1) (stdin w1)
                      (trace w1 ++ [EvPrint msg_added]))
  | (Raise e, w1) => (Raise e, w1)
  | (Unmodelled, w1) => (Unmodelled, w1)
  end.
Proof.
  intros Hb Hw Hv Hm Hvm Hr. unfold add_record.
  rewrite existsb_strip_blank, Hb.
  run. rewrite Hw. simpl. rewrite Hv. simpl. rewrite Hm. simpl.
  rewrite Hvm. simpl. rewrite Hr.
  destruct (CSVDataStorage_save _ _) as [[[]| e |] w1]; reflexivity.
Qed.

Lemma add_record_accepted (record : dict str) (w : World)
      (work mobile : str) (r : row) :
  existsb blank (dict_values record) = false ->
  dict_get record col_work_phone = Some work ->
  validate_phone work = true ->
  dict_get record col_mobile_phone = Some mobile ->
  validate_phone mobile = true ->
  row_of_record (columns (data (self w)))
                (record_with_id (next_id (self w)) record) = Some r ->
  encodable (to_csv (concat_row (data (self w)) r)) = true ->
  add_record record w = (Ok tt, added_world w r).
Proof.
  intros Hb Hw Hv Hm Hvm Hr Henc.
  rewrite (add_record_validated _ _ _ _ _ Hb Hw Hv Hm Hvm Hr). cbv zeta.
  rewrite (save_ok _ _ Henc). unfold added_world. cbn [self data file stdin trace].
  rewrite <- app_assoc. reflexivity.
Qed.

(** When the text of the new collection cannot be encoded, [save] raises
    out of [add_record]: the record is already in the collection, and
    the statements after [save] are not reached. *)
Lemma add_record_unsaved (record : dict str) (w : World)
      (work mobile : str) (r : row) :
  existsb blank (dict_values record) = false ->
  dict_get record col_work_phone = Some work ->
  validate_phone work = true ->
  dict_get record col_mobile_phone = Some mobile ->
  validate_phone mobile = true ->
  row_of_record (columns (data (self w)))
                (record_with_id (next_id (self w)) record) = Some r ->
  encodable (to_csv (concat_row (data (self w)) r)) = false ->
  add_record record w = (Raise UnicodeEncodeError, unsaved_world w r).
Proof.
  intros Hb Hw Hv Hm Hvm Hr Henc.
  rewrite (add_record_validated _ _ _ _ _ Hb Hw Hv Hm Hvm Hr). cbv zeta.
  rewrite (save_raises _ _ Henc). reflexivity.
Qed.

Lemma additions_app (t1 t2 : list event) :
  additions (t1 ++ t2) = (additions t1 + additions t2)%nat.
Proof.
  induction t1 as [|e t1 IH]; simpl; [reflexivity|].
  destruct e; try exact IH. destruct (str_eqb line msg_added); simpl; lia.
Qed.

(** Every call of [add_record] either leaves the instance and the file as
    they were, saves nothing and reports no addition, or has appended a
    record and called [save], which succeeded or raised. *)
Lemma add_record_inv (record : dict str) (w : World) (res : result unit)
      (w' : World) :
  add_record record w = (res, w') ->
  (self w' = self w /\ file w' = file w /\ stdin w' = stdin w
   /\ saves (trace w') = saves (trace w)
   /\ additions (trace w') = additions (trace w)
   /\ res <> Raise UnicodeEncodeError)
  \/ (exists work mobile r,
        existsb blank (dict_values record) = false
        /\ dict_get record col_work_phone = Some work
        /\ validate_phone work = true
        /\ dict_get record col_mobile_phone = Some mobile
        /\ validate_phone mobile = true
        /\ row_of_record (columns (data (self w)))
                         (record_with_id (next_id (self w)) record) = Some r
        /\ (encodable (to_csv (concat_row (data (self w)) r)) = true
            /\ res = Ok tt /\ w' = added_world w r
            \/ encodable (to_csv (concat_row (data (self w)) r)) = false
               /\ res = Raise UnicodeEncodeError
               /\ w' = unsaved_world w r)).
Proof.
  assert (Hsame : forall line,
    line = msg_fields_required \/ line = msg_phones_invalid ->
    let w1 := printed_world w line in
    self w1 = self w /\ file w1 = file w /\ stdin w1 = stdin w
    /\ saves (trace w1) = saves (trace w)
    /\ additions (trace w1) = additions (trace w)
    /\ @Ok unit tt <> Raise UnicodeEncodeError).
  { intros line Hline. simpl. rewrite saves_app, additions_app. simpl.
    rewrite app_nil_r.
    assert (Hl : str_eqb line msg_added = false)
      by (destruct Hline as [-> | ->]; vm_compute; reflexivity).
    rewrite Hl. repeat split; auto; try lia. discriminate. }
  destruct (existsb blank (dict_values record)) eqn:Hb.
  { rewrite (add_record_blank _ _ Hb). intros H; inversion H; subst.
    left. apply Hsame. auto. }
  destruct (dict_get record col_work_phone) as [work|] eqn:Hw.
  2:{ unfold add_record. rewrite existsb_strip_blank, Hb. run. rewrite Hw.
      simpl. intros H; inversion H; subst. left. repeat split; auto.
      discriminate. }
  destruct (validate_phone work) eqn:Hv.
  2:{ rewrite (add_record_work_invalid _ _ _ Hb Hw Hv).
      intros H; inversion H; subst. left. apply Hsame. auto. }
  destruct (dict_get record col_mobile_phone) as [mobile|] eqn:Hm.
  2:{ unfold add_record. rewrite existsb_strip_blank, Hb. run. rewrite Hw.
      simpl. rewrite Hv. simpl. rewrite Hm. simpl.
      intros H; inversion H; subst. left. repeat split; auto.
      discriminate. }
  destruct (validate_phone mobile) eqn:Hvm.
  2:{ rewrite (add_record_mobile_invalid _ _ _ _ Hb Hw Hv Hm Hvm).
      intros H; inversion H; subst. left. apply Hsame. auto. }
  destruct (row_of_record (columns (data (self w)))
              (record_with_id (next_id (self w)) record)) as [r|] eqn:Hr.
  - destruct (encodable (to_csv (concat_row (data (self w)) r))) eqn:Henc.
    + rewrite (add_record_accepted _ _ _ _ _ Hb Hw Hv Hm Hvm Hr Henc).
      intros H; inversion H; subst. right. exists work, mobile, r.
      do 6 (split; [auto|]). left. auto.
    + rewrite (add_record_unsaved _ _ _ _ _ Hb Hw Hv Hm Hvm Hr Henc).
      intros H; inversion H; subst. right. exists work, mobile, r.
      do 6 (split; [auto|]). right. auto.
  - unfold add_record. rewrite existsb_strip_blank, Hb. run. rewrite Hw.
    simpl. rewrite Hv. simpl. rewrite Hm. simpl. rewrite Hvm. simpl.
    rewrite Hr.
    intros H; inversion H; subst. left. repeat split; auto. discriminate.
Qed.

(** C5: an [add_record] whose mapping has a blank value, or a phone that
    [validate_phone] refuses, is rejected with a message: the collection
    and [next_id] are as before, nothing is saved and the file is
    untouched.  The blank check comes first: its message is the one printed
    when both checks would fail. *)
Theorem add_record_rejects (record : dict str) (w : World)
        (work mobile : str) :
  dict_get record col_work_phone = Some work ->
  dict_get record col_mobile_phone = Some mobile ->
  existsb blank (dict_values record) = true
  \/ validate_phone work = false \/ validate_phone mobile = false ->
  exists w',
    add_record record w = (Ok tt, w')
    /\ data (self w') = data (self w)
    /\ next_id (self w') = next_id (self w)
    /\ file w' = file w
    /\ saves (trace w') = saves (trace w)
    /\ trace w' =
       trace w ++ [EvPrint (if existsb blank (dict_values record)
                            then msg_fields_required
                            else msg_phones_invalid)].
Proof.
  intros Hw Hm Hbad.
  assert (Hsaves : forall line,
             saves (trace w ++ [EvPrint line]) = saves (trace w)).
  { intros line. rewrite saves_app. apply app_nil_r. }
  destruct (existsb blank (dict_values record)) eqn:Hb.
  - exists (printed_world w msg_fields_required).
    rewrite (add_record_blank _ _ Hb). simpl. auto 10.
  - exists (printed_world w msg_phones_invalid).
    destruct (validate_phone work) eqn:Hv.
    + destruct Hbad as [Hbad | [Hbad | Hvm]]; try discriminate.
      rewrite (add_record_mobile_invalid _ _ _ _ Hb Hw Hv Hm Hvm). simpl. auto 10.
    + rewrite (add_record_work_invalid _ _ _ Hb Hw Hv). simpl. auto 10.
Qed.

Lemma add_record_rejects_witness :
  let record := ivanov " " "12-34" in
  let w := one_record_world "1" "2" [] in
  exists w',
    add_record record w = (Ok tt, w')
    /\ data (self w') = data (self w)
    /\ next_id (self w') = next_id (self w)
    /\ file w' = file w
    /\ saves (trace w') = saves (trace w)
    /\ trace w' =
       trace w ++ [EvPrint (if existsb blank (dict_values record)
                            then msg_fields_required
                            else msg_phones_invalid)].
Proof.
  intros record w.
  refine (@add_record_rejects record w (utf8 " ") (utf8 "12-34") _ _ _).
  - vm_compute. reflexivity.
  - vm_compute. reflexivity.
  - left. vm_compute. reflexivity.
Defined.

(** ** Identifiers *)

Lemma row_of_record_nth (cols : list str) (rec : dict cell) (r : row)
      (k : str) (j : nat) (v : cell) :
  row_of_record cols rec = Some r ->
  index_of k cols = Some j ->
  dict_get rec k = Some v ->
  nth j r CNaN = v.
Proof.
  revert r j. induction cols as [|c cols IH]; intros r j; simpl; [discriminate|].
  destruct (dict_get rec c) as [x|] eqn:Hc; [|discriminate].
  destruct (row_of_record cols rec) as [xs|] eqn:Hr; [|discriminate].
  intros H; inversion H; subst r; clear H.
  destruct (str_eqb c k) eqn:E.
  - intros H; inversion H; subst j. apply str_eqb_eq in E. subst c.
    simpl. congruence.
  - destruct (index_of k cols) as [j'|] eqn:Hj; [|discriminate].
    intros H; inversion H; subst j. simpl. intros Hv.
    apply (IH xs j' eq_refl eq_refl Hv).
Qed.

Lemma len_concat_row (df : DataFrame) (r : row) :
  len (concat_row df r) = (len df + 1)%Z.
Proof.
  unfold len, concat_row. simpl. rewrite length_app. simpl. lia.
Qed.







Lemma Directory_new_next_id (f : option str) (d : Directory) :
  Directory_new None f = Ok d -> next_id d = (len (data d) + 1)%Z.
Proof.
  unfold Directory_new. destruct (CSVDataStorage_load f); try discriminate.
  intros H; inversion H; subst d. reflexivity.
Qed.



(** ** The loop of [edit_record] *)

Lemma apply_items_app (df : DataFrame) (index : nat) (l1 l2 : dict str) :
  apply_items df index (l1 ++ l2)
  = apply_items (apply_items df index l1) index l2.
Proof. unfold apply_items. apply fold_left_app. Qed.

Lemma item_fails_false (key value : str) :
  item_fails (key, value) = false ->
  value <> [] ->
  (is_phone_column key && negb (validate_phone value)) = false.
Proof.
  unfold item_fails, nonempty. simpl. intros H Hne.
  apply str_eqb_neq in Hne. rewrite Hne in H. simpl in H.
  exact H.
Qed.

(** Candidates that all pass are all written. *)
Lemma apply_fields_pass (index : nat) (items : dict str) (w : World) :
  existsb item_fails items = false ->
  apply_fields index items w = (Ok true, edited_world w index items).
Proof.
  revert w. induction items as [|[key value] items IH]; intros w; simpl.
  - intros _. destruct w as [[df n] f i t]. reflexivity.
  - rewrite orb_false_iff. intros [Hkv Hrest].
    destruct (str_eqb value []) eqn:Hv; simpl.
    + rewrite (IH w Hrest). unfold edited_world, apply_items. simpl.
      rewrite ?Hv. reflexivity.
    + assert (Hne : value <> []) by (apply str_eqb_neq; exact Hv).
      rewrite (item_fails_false _ _ Hkv Hne). run.
      rewrite (IH _ Hrest). unfold edited_world, apply_items. simpl.
      rewrite ?Hv. reflexivity.
Qed.

(** The loop stops at the first candidate that fails: those before it are
    written, those after it are not looked at. *)
Lemma apply_fields_fail (index : nat) (before after : dict str)
      (key value : str) (w : World) :
  existsb item_fails before = false ->
  item_fails (key, value) = true ->
  apply_fields index (before ++ (key, value) :: after) w
  = (Ok false,
     mkWorld (mkDirectory (apply_items (data (self w)) index before)
                          (next_id (self w)))
             (file w) (stdin w) (trace w ++ [EvPrint (msg_invalid key)])).
Proof.
  revert w. induction before as [|[k v] before IH]; intros w; simpl.
  - intros _ Hf. unfold item_fails, nonempty in Hf. simpl in Hf.
    rewrite !andb_true_iff, negb_true_iff in Hf.
    destruct Hf as [[Hv Hp] Hvp]. rewrite Hv, Hp, Hvp. simpl.
    destruct w as [[df n] f i t]. reflexivity.
  - rewrite orb_false_iff. intros [Hkv Hrest] Hf.
    destruct (str_eqb v []) eqn:Hv; simpl.
    + rewrite (IH w Hrest Hf). unfold apply_items. simpl. rewrite ?Hv.
      reflexivity.
    + assert (Hne : v <> []) by (apply str_eqb_neq; exact Hv).
      rewrite (item_fails_false _ _ Hkv Hne). run.
      rewrite (IH _ Hrest Hf). unfold apply_items. simpl. rewrite ?Hv.
      reflexivity.
Qed.

(** Any list of candidates splits at its first failing one, if any. *)
Lemma first_failure (items : dict str) :
  existsb item_fails items = false
  \/ exists before key value after,
       items = before ++ (key, value) :: after
       /\ existsb item_fails before = false
       /\ item_fails (key, value) = true.
Proof.
  induction items as [|[k v] items IH]; simpl; [left; reflexivity|].
  destruct (item_fails (k, v)) eqn:Hkv.
  - right. exists [], k, v, items. auto.
  - destruct IH as [IH | (before & key & value & after & -> & Hb & Hf)].
    + left. exact IH.
    + right. exists ((k, v) :: before), key, value, after. simpl.
      rewrite Hkv. auto.
Qed.

(** ** Reading the candidates *)

Lemma read_fields_general (cols : list str) (acc : dict str) (w : World)
      (res : result (dict str)) (w' : World) :
  read_fields cols acc w = (res, w') ->
  self w' = self w /\ file w' = file w /\ saves (trace w') = saves (trace w).
Proof.
  revert acc w. induction cols as [|c cols IH]; intros acc w; simpl.
  - unfold ret. intros H; inversion H; subst. auto.
  - destruct (str_eqb c col_ID); [apply IH|].
    unfold bind, input. destruct (stdin w) as [|l rest]; simpl.
    + intros H; inversion H; subst. simpl. rewrite saves_app. simpl.
      rewrite app_nil_r. auto.
    + intros H. apply IH in H. simpl in H. rewrite saves_app in H. simpl in H.
      rewrite app_nil_r in H. exact H.
Qed.

Lemma read_fields_enough (cols : list str) (acc : dict str) (w : World)
      (inputs rest : list str) :
  stdin w = inputs ++ rest ->
  length inputs = length (non_id_columns cols) ->
  read_fields cols acc w
  = (Ok (fold_left (fun a ci => dict_set a (fst ci) (snd ci))
                   (combine (non_id_columns cols) inputs) acc),
     mkWorld (self w) (file w) rest (trace w ++ edit_prompts cols)).
Proof.
  revert acc w inputs. induction cols as [|c cols IH]; intros acc w inputs; simpl.
  - intros Hin Hlen. destruct inputs; [|discriminate]. simpl in Hin.
    unfold ret, edit_prompts. simpl. rewrite app_nil_r, <- Hin.
    destruct w; reflexivity.
  - unfold non_id_columns, edit_prompts. simpl.
    destruct (str_eqb c col_ID); simpl.
    + apply IH.
    + intros Hin Hlen. destruct inputs as [|l inputs]; [discriminate|].
      simpl in Hin, Hlen. unfold bind, input. rewrite Hin. simpl.
      rewrite (IH _ _ inputs); simpl;
        [|reflexivity|unfold non_id_columns; lia].
      unfold edit_prompts. rewrite <- app_assoc. reflexivity.
Qed.

(** ** [edit_record], case by case *)

Lemma edit_record_not_found (record_id : Z) (w : World) (j : nat) :
  index_of col_ID (columns (data (self w))) = Some j ->
  positions_from 0 j record_id (rows (data (self w))) = [] ->
  edit_record record_id w = (Ok tt, printed_world w msg_not_found).
Proof.
  intros Hj Hpos. unfold edit_record. run. rewrite Hj, Hpos. reflexivity.
Qed.

Lemma save_effects (df : DataFrame) (w : World) (res : result unit)
      (w' : World) :
  CSVDataStorage_save df w = (res, w') ->
  self w' = self w /\ stdin w' = stdin w
  /\ trace w' = trace w ++ [EvSave df]
  /\ (res = Ok tt /\ encodable (to_csv df) = true
                  /\ file w' = Some (to_csv df)
      \/ res = Raise UnicodeEncodeError /\ encodable (to_csv df) = false).
Proof.
  destruct (encodable (to_csv df)) eqn:E.
  - rewrite (save_ok _ _ E). intros H; inversion H; subst. cbn. auto 10.
  - rewrite (save_raises _ _ E). intros H; inversion H; subst. cbn. auto 10.
Qed.

(** The world in which the loop of [edit_record] starts. *)
Lemma edit_record_unfold (record_id : Z) (w : World) (j index : nat)
      (others : list nat) :
  index_of col_ID (columns (data (self w))) = Some j ->
  positions_from 0 j record_id (rows (data (self w))) = index :: others ->
  edit_record record_id w =
  let shown :=
    mkWorld (self w) (file w) (stdin w)
            (trace w ++ [EvPrint msg_current;
                         EvRow (columns (data (self w)))
                               (nth index (rows (data (self w))) [])]) in
  match read_fields (columns (data (self w))) [] shown with
  | (Ok record, w1) =>
      match apply_fields index record w1 with
      | (Ok true, w2) =>
          match CSVDataStorage_save (data (self w2)) w2 with
          | (Ok _, w3) =>
              (Ok tt, mkWorld (self w3) (file w3) (stdin w3)
                              (trace w3 ++ [EvPrint msg_updated]))
          | (Raise e, w3) => (Raise e, w3)
          | (Unmodelled, w3) => (Unmodelled, w3)
          end
      | (Ok false, w2) => (Ok tt, w2)
      | (Raise e, w2) => (Raise e, w2)
      | (Unmodelled, w2) => (Unmodelled, w2)
      end
  | (Raise e, w1) => (Raise e, w1)
  | (Unmodelled, w1) => (Unmodelled, w1)
  end.
Proof.
  intros Hj Hpos. unfold edit_record. run. rewrite Hj, Hpos. simpl.
  rewrite <- app_assoc. simpl.
  destruct (read_fields _ _ _) as [[record| e |] w1]; try reflexivity.
  destruct (apply_fields index record w1) as [[[|]| e |] w2]; reflexivity.
Qed.

Lemma edit_record_all_pass (record_id : Z) (w : World) (j index : nat)
      (others : list nat) (inputs rest : list str) :
  index_of col_ID (columns (data (self w))) = Some j ->
  positions_from 0 j record_id (rows (data (self w))) = index :: others ->
  stdin w = inputs ++ rest ->
  length inputs = length (non_id_columns (columns (data (self w)))) ->
  existsb item_fails (field_dict (columns (data (self w))) inputs) = false ->
  let df := apply_items (data (self w)) index
                        (field_dict (columns (data (self w))) inputs) in
  let shown := trace w
            ++ [EvPrint msg_current;
                EvRow (columns (data (self w)))
                      (nth index (rows (data (self w))) [])]
            ++ edit_prompts (columns (data (self w))) in
  edit_record record_id w =
  if encodable (to_csv df)
  then (Ok tt,
        mkWorld (mkDirectory df (next_id (self w))) (Some (to_csv df)) rest
                (shown ++ [EvSave df; EvPrint msg_updated]))
  else (Raise UnicodeEncodeError,
        mkWorld (mkDirectory df (next_id (self w)))
                (Some (fst (write_lines (csv_lines df)))) rest
                (shown ++ [EvSave df])).
Proof.
  intros Hj Hpos Hin Hlen Hpass df shown.
  rewrite (edit_record_unfold _ _ _ _ _ Hj Hpos). cbv zeta.
  match goal with
  | |- context [read_fields ?c ?a ?s] =>
      rewrite (read_fields_enough c a s inputs rest Hin Hlen)
  end.
  fold (field_dict (columns (data (self w))) inputs).
  rewrite (apply_fields_pass _ _ _ Hpass). unfold edited_world.
  cbn [self data next_id file stdin trace]. fold df.
  destruct (encodable (to_csv df)) eqn:E.
  - rewrite (save_ok _ _ E). cbn [self file stdin trace]. subst shown.
    rewrite <- !app_assoc. reflexivity.
  - rewrite (save_raises _ _ E). cbn [self file stdin trace]. subst shown.
    rewrite <- !app_assoc. reflexivity.
Qed.

Lemma edit_record_first_fail (record_id : Z) (w : World) (j index : nat)
      (others : list nat) (inputs rest : list str)
      (before after : dict str) (key value : str) :
  index_of col_ID (columns (data (self w))) = Some j ->
  positions_from 0 j record_id (rows (data (self w))) = index :: others ->
  stdin w = inputs ++ rest ->
  length inputs = length (non_id_columns (columns (data (self w)))) ->
  field_dict (columns (data (self w))) inputs
  = before ++ (key, value) :: after ->
  existsb item_fails before = false ->
  item_fails (key, value) = true ->
  edit_record record_id w =
  (Ok tt,
   mkWorld (mkDirectory (apply_items (data (self w)) index before)
                        (next_id (self w)))
           (file w) rest
           (trace w
            ++ [EvPrint msg_current;
                EvRow (columns (data (self w)))
                      (nth index (rows (data (self w))) [])]
            ++ edit_prompts (columns (data (self w)))
            ++ [EvPrint (msg_invalid key)])).
Proof.
  intros Hj Hpos Hin Hlen Hsplit Hpass Hfail.
  rewrite (edit_record_unfold _ _ _ _ _ Hj Hpos). cbv zeta.
  match goal with
  | |- context [read_fields ?c ?a ?s] =>
      rewrite (read_fields_enough c a s inputs rest Hin Hlen)
  end.
  fold (field_dict (columns (data (self w))) inputs). rewrite Hsplit.
  rewrite (apply_fields_fail _ _ _ _ _ _ Hpass Hfail). simpl.
  rewrite <- !app_assoc. reflexivity.
Qed.

(** However a call of [edit_record] ends, the frame it leaves is the one
    it found with some passing candidates written into one matching row,
    and [next_id] is as before. *)
Lemma edit_record_general (record_id : Z) (w : World) (res : result unit)
      (w' : World) :
  edit_record record_id w = (res, w') ->
  next_id (self w') = next_id (self w)
  /\ (data (self w') = data (self w)
      \/ exists j index others applied,
           index_of col_ID (columns (data (self w))) = Some j
           /\ positions_from 0 j record_id (rows (data (self w)))
              = index :: others
           /\ existsb item_fails applied = false
           /\ data (self w') = apply_items (data (self w)) index applied).
Proof.
  destruct (index_of col_ID (columns (data (self w)))) as [j|] eqn:Hj.
  2:{ unfold edit_record. run. rewrite Hj. intros H; inversion H; auto. }
  destruct (positions_from 0 j record_id (rows (data (self w))))
    as [|index others] eqn:Hpos.
  { rewrite (edit_record_not_found _ _ _ Hj Hpos).
    intros H; inversion H; auto. }
  rewrite (edit_record_unfold _ _ _ _ _ Hj Hpos). cbv zeta.
  destruct (read_fields _ _ _) as [res1 w1] eqn:Hread.
  apply read_fields_general in Hread. simpl in Hread.
  destruct Hread as (Hself & _ & _).
  destruct res1 as [record| e |];
    try (intros H; inversion H; subst; rewrite Hself; auto).
  destruct (first_failure record)
    as [Hpass | (before & key & value & after & -> & Hpass & Hfail)].
  - rewrite (apply_fields_pass _ _ _ Hpass).
    destruct (CSVDataStorage_save _ _) as [res3 w3] eqn:Hsave.
    destruct (save_effects _ _ _ _ Hsave) as (Hs3 & _ & _ & Hres).
    unfold edited_world in Hs3. cbn [self] in Hs3.
    assert (Hw3 : next_id (self w3) = next_id (self w)
                  /\ data (self w3) = apply_items (data (self w)) index record).
    { rewrite Hs3, Hself. auto. }
    destruct Hw3 as [Hn3 Hd3].
    destruct Hres as [(-> & _) | (-> & _)];
      intros H; inversion H; subst; cbn [self];
      (split; [exact Hn3|]); right; exists j, index, others, record; auto.
  - rewrite (apply_fields_fail _ _ _ _ _ _ Hpass Hfail).
    intros H; inversion H; subst; simpl. rewrite Hself. split; [reflexivity|].
    right. exists j, index, others, before. auto.
Qed.

Lemma saves_edit_prompts (cols : list str) : saves (edit_prompts cols) = [].
Proof.
  unfold edit_prompts. induction (non_id_columns cols); simpl; auto.
Qed.

(** ** Cells of an edited record *)

Lemma update_nth_other {A} (n i : nat) (f : A -> A) (l : list A) :
  i <> n -> nth_error (update_nth n f l) i = nth_error l i.
Proof.
  revert n i. induction l as [|x l IH]; intros n i Hne; simpl.
  - destruct n; reflexivity.
  - destruct n as [|n]; destruct i as [|i]; simpl; try reflexivity;
      try congruence.
    apply IH. congruence.
Qed.

Lemma apply_items_other (df : DataFrame) (index i : nat) (items : dict str) :
  i <> index ->
  nth_error (rows (apply_items df index items)) i = nth_error (rows df) i.
Proof.
  intros Hne. unfold apply_items. revert df.
  induction items as [|[k v] items IH]; intros df; simpl; [reflexivity|].
  rewrite IH. destruct (str_eqb v []); [reflexivity|].
  unfold set_at. simpl. apply update_nth_other. exact Hne.
Qed.

Lemma apply_items_columns (df : DataFrame) (index : nat) (items : dict str) :
  columns (apply_items df index items) = columns df.
Proof.
  unfold apply_items. revert df.
  induction items as [|[k v] items IH]; intros df; simpl; [reflexivity|].
  rewrite IH. destruct (str_eqb v []); reflexivity.
Qed.

Lemma length_update_nth {A} (n : nat) (f : A -> A) (l : list A) :
  length (update_nth n f l) = length l.
Proof.
  revert n. induction l as [|x l IH]; intros [|n]; simpl; auto.
Qed.

Lemma update_nth_same {A} (n : nat) (f : A -> A) (l : list A) :
  nth_error (update_nth n f l) n = option_map f (nth_error l n).
Proof.
  revert n. induction l as [|x l IH]; intros [|n]; simpl; auto.
Qed.

Lemma row_set_other (cols : list str) (r : row) (key : str) (v : cell)
      (j : nat) (c : str) :
  nth_error cols j = Some c -> str_eqb c key = false ->
  nth_error (row_set cols r key v) j = nth_error r j.
Proof.
  revert r j. induction cols as [|a cols IH]; intros r j; simpl.
  - destruct j; discriminate.
  - destruct r as [|x r]; [reflexivity|].
    destruct j as [|j]; simpl.
    + intros H E. inversion H; subst. rewrite E. reflexivity.
    + intros H E. apply IH; assumption.
Qed.

Lemma length_row_set (cols : list str) (r : row) (key : str) (v : cell) :
  length (row_set cols r key v) = length r.
Proof.
  revert r. induction cols as [|a cols IH]; intros [|x r]; simpl; auto.
Qed.

Lemma length_apply_items (df : DataFrame) (index : nat) (items : dict str) :
  length (rows (apply_items df index items)) = length (rows df).
Proof.
  unfold apply_items. revert df.
  induction items as [|[k v] items IH]; intros df; simpl; [reflexivity|].
  rewrite IH. destruct (str_eqb v []); [reflexivity|].
  unfold set_at. simpl. apply length_update_nth.
Qed.

(** Writing candidates whose keys differ from column [c] leaves the cells
    of column [c] as they were, in every row. *)
Lemma apply_items_column_kept (df : DataFrame) (index : nat)
      (items : dict str) (j : nat) (c : str) (i : nat) :
  nth_error (columns df) j = Some c ->
  (forall kv, In kv items -> fst kv <> c) ->
  option_map (fun r => nth_error r j)
             (nth_error (rows (apply_items df index items)) i)
  = option_map (fun r => nth_error r j) (nth_error (rows df) i).
Proof.
  unfold apply_items. revert df.
  induction items as [|[k v] items IH]; intros df Hj Hkeys; simpl;
    [reflexivity|].
  rewrite IH.
  - destruct (str_eqb v []); [reflexivity|].
    unfold set_at. simpl.
    destruct (Nat.eq_dec i index) as [->|Hne].
    + rewrite update_nth_same.
      destruct (nth_error (rows df) index) as [r|]; [simpl|reflexivity].
      f_equal. apply (row_set_other _ _ _ _ _ c Hj).
      apply str_eqb_neq. intros ->. apply (Hkeys (k, v)); simpl; auto.
    + rewrite update_nth_other by exact Hne. reflexivity.
  - destruct (str_eqb v []); [exact Hj|]. exact Hj.
  - intros kv Hkv. apply Hkeys. right. exact Hkv.
Qed.

Lemma mem_app (k : str) (l1 l2 : list str) :
  mem k (l1 ++ l2) = mem k l1 || mem k l2.
Proof. unfold mem. apply existsb_app. Qed.

Lemma mem_filter (k : str) (f : str -> bool) (l : list str) :
  mem k (filter f l) = true -> mem k l = true.
Proof.
  unfold mem. induction l as [|a l IH]; simpl; [auto|].
  destruct (f a); simpl; rewrite ?orb_true_iff; intros H.
  - destruct H; auto.
  - auto.
Qed.

Lemma no_dup_filter (f : str -> bool) (l : list str) :
  no_dup l = true -> no_dup (filter f l) = true.
Proof.
  induction l as [|a l IH]; simpl; [auto|].
  rewrite andb_true_iff, negb_true_iff. intros [Ha Hl].
  destruct (f a); simpl; [|auto].
  rewrite (IH Hl), andb_true_r. apply negb_true_iff.
  destruct (mem a (filter f l)) eqn:E; [|reflexivity].
  apply mem_filter in E. congruence.
Qed.

Lemma map_fst_combine_same {A B} (l : list A) (l' : list B) :
  length l' = length l -> map fst (combine l l') = l.
Proof.
  revert l'. induction l as [|a l IH]; intros [|b l']; simpl;
    try discriminate; auto.
  intros H. f_equal. apply IH. lia.
Qed.

Lemma dict_set_fresh (d : dict str) (k v : str) :
  mem k (map fst d) = false -> dict_set d k v = d ++ [(k, v)].
Proof.
  unfold mem. induction d as [|[a x] d IH]; simpl; [reflexivity|].
  rewrite orb_false_iff. intros [Ha Hd].
  rewrite str_eqb_sym, Ha, (IH Hd). reflexivity.
Qed.

Lemma no_dup_app_mem (l1 l2 : list str) (k : str) :
  no_dup (l1 ++ k :: l2) = true -> mem k l1 = false.
Proof.
  induction l1 as [|a l1 IH]; simpl; [reflexivity|].
  rewrite andb_true_iff, negb_true_iff. intros [Ha Hrest].
  rewrite mem_app in Ha. apply orb_false_iff in Ha. destruct Ha as [_ Ha].
  unfold mem in Ha. simpl in Ha. apply orb_false_iff in Ha.
  destruct Ha as [Hak _].
  unfold mem. simpl. fold (mem k l1).
  rewrite (IH Hrest), str_eqb_sym, Hak. reflexivity.
Qed.

(** Setting fresh keys one after the other appends the entries. *)
Lemma fold_dict_set_fresh (l acc : dict str) :
  no_dup (map fst acc ++ map fst l) = true ->
  fold_left (fun a ci => dict_set a (fst ci) (snd ci)) l acc = acc ++ l.
Proof.
  revert acc. induction l as [|[k v] l IH]; intros acc; simpl.
  - intros _. symmetry. apply app_nil_r.
  - intros Hnd. rewrite (dict_set_fresh _ _ _ (no_dup_app_mem _ _ _ Hnd)).
    rewrite IH.
    + rewrite <- app_assoc. reflexivity.
    + rewrite map_app. simpl. rewrite <- app_assoc. exact Hnd.
Qed.

(** With distinct column labels the candidates are the columns other
    than [ID] paired with the lines typed. *)
Lemma field_dict_combine (cols inputs : list str) :
  no_dup cols = true ->
  length inputs = length (non_id_columns cols) ->
  field_dict cols inputs = combine (non_id_columns cols) inputs.
Proof.
  intros Hnd Hlen. unfold field_dict. rewrite fold_dict_set_fresh.
  - reflexivity.
  - simpl. rewrite (map_fst_combine_same _ _ Hlen).
    apply no_dup_filter. exact Hnd.
Qed.

Lemma dict_get_in_no_dup {V} (d : dict V) (k : str) (v : V) :
  no_dup (map fst d) = true -> In (k, v) d -> dict_get d k = Some v.
Proof.
  induction d as [|[a x] d IH]; simpl; [intros _ []|].
  rewrite andb_true_iff, negb_true_iff. intros [Ha Hd] [H | H].
  - inversion H; subst. rewrite str_eqb_refl. reflexivity.
  - destruct (str_eqb a k) eqn:E.
    + apply str_eqb_eq in E. subst a.
      assert (Hk : mem k (map fst d) = true); [|congruence].
      unfold mem. apply existsb_exists. exists k. split.
      * apply (in_map fst _ _ H).
      * apply str_eqb_refl.
    + apply IH; assumption.
Qed.

Lemma row_set_nth (cols : list str) (r : row) (key : str) (v : cell)
      (j : nat) (c : str) (x : cell) :
  nth_error cols j = Some c -> nth_error r j = Some x ->
  nth_error (row_set cols r key v) j
  = Some (if str_eqb c key then v else x).
Proof.
  revert r j. induction cols as [|a cols IH]; intros r j; simpl.
  - destruct j; discriminate.
  - destruct r as [|y r]; [destruct j; discriminate|].
    destruct j as [|j]; simpl.
    + intros H1 H2. inversion H1; inversion H2; subst. reflexivity.
    + apply IH.
Qed.

(** The cell of column [c] in the edited row after writing [items]. *)
Lemma apply_items_cell (items : dict str) (df : DataFrame) (index j : nat)
      (c : str) (r : row) (x : cell) :
  no_dup (map fst items) = true ->
  nth_error (columns df) j = Some c ->
  nth_error (rows df) index = Some r ->
  nth_error r j = Some x ->
  exists r',
    nth_error (rows (apply_items df index items)) index = Some r'
    /\ nth_error r' j =
       Some (match dict_get items c with
             | Some l => if str_eqb l [] then x else CStr l
             | None => x
             end).
Proof.
  unfold apply_items. revert df r x.
  induction items as [|[k v] items IH]; intros df r x; simpl.
  - intros _ _ Hr Hx. exists r. auto.
  - rewrite andb_true_iff, negb_true_iff. intros [Hk Hnd] Hj Hr Hx.
    destruct (str_eqb v []) eqn:Ev.
    + destruct (IH df r x Hnd Hj Hr Hx) as (r' & Hr' & Hx').
      exists r'. split; [exact Hr'|]. rewrite Hx'.
      destruct (str_eqb k c) eqn:E; [|reflexivity].
      apply str_eqb_eq in E. subst k.
      rewrite (dict_get_none_mem _ _ Hk), Ev. reflexivity.
    + destruct (IH (set_at df index k (CStr v))
                   (row_set (columns df) r k (CStr v))
                   (if str_eqb c k then CStr v else x) Hnd)
        as (r' & Hr' & Hx').
      * exact Hj.
      * unfold set_at. simpl. rewrite update_nth_same, Hr. reflexivity.
      * apply row_set_nth; assumption.
      * exists r'. split; [exact Hr'|]. rewrite Hx'.
        rewrite (str_eqb_sym c k).
        destruct (str_eqb k c) eqn:E.
        -- apply str_eqb_eq in E. subst k.
           rewrite (dict_get_none_mem _ _ Hk), Ev. reflexivity.
        -- reflexivity.
Qed.

(** The first position that [positions_from] returns is the first row
    with the identifier; the others come later and carry it too. *)
Lemma positions_from_spec (s j : nat) (z : Z) (rs : list row) (i : nat) :
  In i (positions_from s j z rs) <->
  (s <= i)%nat
  /\ exists r, nth_error rs (i - s) = Some r
               /\ cell_eq_int (nth j r CNaN) z = true.
Proof.
  revert s. induction rs as [|r rs IH]; intros s; simpl.
  - split; [intros [] | intros (_ & r & H & _)].
    destruct (i - s)%nat; discriminate.
  - assert (Hstep : In i (positions_from (S s) j z rs) <->
                    (s < i)%nat
                    /\ exists r', nth_error rs (i - S s) = Some r'
                                  /\ cell_eq_int (nth j r' CNaN) z = true).
    { rewrite IH. split; intros [H1 H2]; (split; [lia | exact H2]). }
    destruct (cell_eq_int (nth j r CNaN) z) eqn:E; simpl; rewrite Hstep.
    + split.
      * intros [<- | (Hlt & r' & Hn & Hr')].
        -- split; [lia|]. exists r. rewrite Nat.sub_diag. auto.
        -- split; [lia|]. exists r'.
           replace (i - s)%nat with (S (i - S s)) by lia. auto.
      * intros (Hle & r' & Hn & Hr').
        destruct (Nat.eq_dec s i) as [->|Hne]; [left; reflexivity|right].
        split; [lia|]. exists r'.
        replace (i - s)%nat with (S (i - S s)) in Hn by lia. auto.
    + split.
      * intros (Hlt & r' & Hn & Hr'). split; [lia|]. exists r'.
        replace (i - s)%nat with (S (i - S s)) by lia. auto.
      * intros (Hle & r' & Hn & Hr').
        destruct (Nat.eq_dec s i) as [->|Hne].
        -- rewrite Nat.sub_diag in Hn. simpl in Hn. congruence.
        -- split; [lia|]. exists r'.
           replace (i - s)%nat with (S (i - S s)) in Hn by lia. auto.
Qed.

Lemma positions_from_increasing (s j : nat) (z : Z) (rs : list row)
      (index : nat) (others : list nat) :
  positions_from s j z rs = index :: others ->
  forall i, In i others -> (index < i)%nat.
Proof.
  revert s index others. induction rs as [|r rs IH]; intros s index others;
    simpl; [discriminate|].
  destruct (cell_eq_int (nth j r CNaN) z).
  - intros H; inversion H; subst. intros i Hi.
    apply positions_from_spec in Hi. lia.
  - apply IH.
Qed.

Lemma positions_from_least (s j : nat) (z : Z) (rs : list row)
      (index : nat) (others : list nat) :
  positions_from s j z rs = index :: others ->
  forall i, In i (positions_from s j z rs) -> (index <= i)%nat.
Proof.
  intros H i Hi. rewrite H in Hi. destruct Hi as [<- | Hi]; [lia|].
  pose proof (positions_from_increasing _ _ _ _ _ _ H i Hi). lia.
Qed.

Lemma no_dup_app_l (l1 l2 : list str) :
  no_dup (l1 ++ l2) = true -> no_dup l1 = true.
Proof.
  induction l1 as [|a l1 IH]; simpl; [reflexivity|].
  rewrite !andb_true_iff, !negb_true_iff, mem_app, orb_false_iff.
  intros [[Ha _] Hrest]. auto.
Qed.

(** The edited row after writing [items], cell by cell. *)
Lemma apply_items_row (items : dict str) (df : DataFrame) (index : nat)
      (r : row) :
  no_dup (map fst items) = true ->
  nth_error (rows df) index = Some r ->
  exists r',
    nth_error (rows (apply_items df index items)) index = Some r'
    /\ length r' = length r
    /\ forall jc c x,
         nth_error (columns df) jc = Some c ->
         nth_error r jc = Some x ->
         nth_error r' jc =
         Some (match dict_get items c with
               | Some l => if str_eqb l [] then x else CStr l
               | None => x
               end).
Proof.
  intros Hkeys Hr.
  assert (Hrow : exists r',
             nth_error (rows (apply_items df index items)) index = Some r'
             /\ length r' = length r).
  { clear Hkeys. unfold apply_items. revert df r Hr.
    induction items as [|[k v] items IH]; intros df r0 Hr0; simpl.
    - exists r0. auto.
    - destruct (str_eqb v []); [apply (IH df r0 Hr0)|].
      destruct (IH (set_at df index k (CStr v))
                   (row_set (columns df) r0 k (CStr v))) as (r' & H1 & H2).
      { unfold set_at. simpl. rewrite update_nth_same, Hr0. reflexivity. }
      exists r'. split; [exact H1|]. rewrite H2. apply length_row_set. }
  destruct Hrow as (r' & Hr' & Hlen').
  exists r'. split; [exact Hr'|]. split; [exact Hlen'|].
  intros jc c x Hc Hx.
  destruct (apply_items_cell items df index jc c r x Hkeys Hc Hr Hx)
    as (r2 & Hr2 & Hx2).
  rewrite Hr' in Hr2. inversion Hr2; subst r2. exact Hx2.
Qed.

Lemma row_set_encodable (cols : list str) (r : row) (key v : str) :
  encodable v = true -> row_encodable r = true ->
  row_encodable (row_set cols r key (CStr v)) = true.
Proof.
  intros Hv. unfold row_encodable. revert r.
  induction cols as [|c cols IH]; intros [|x r]; simpl; auto.
  rewrite !andb_true_iff. intros [Hx Hr]. split; [|apply IH; exact Hr].
  destruct (str_eqb c key); [exact Hv | exact Hx].
Qed.

(** Writing values that can be encoded keeps a frame writable. *)
Lemma frame_encodable_apply_items (df : DataFrame) (index : nat)
      (items : dict str) :
  frame_encodable df = true ->
  (forall v, In v (dict_values items) -> encodable v = true) ->
  frame_encodable (apply_items df index items) = true.
Proof.
  unfold apply_items, dict_values. revert df.
  induction items as [|[k v] items IH]; intros df Hdf Hitems; simpl;
    [exact Hdf|].
  apply IH; [|intros x Hx; apply Hitems; right; exact Hx].
  destruct (str_eqb v []); [exact Hdf|].
  unfold frame_encodable, set_at in *. cbn [columns rows].
  apply andb_true_iff in Hdf. destruct Hdf as [Hc Hr]. rewrite Hc.
  apply forallb_update_nth; [|exact Hr].
  intros r Hrow. apply row_set_encodable; [|exact Hrow].
  apply Hitems. left. reflexivity.
Qed.

(** The row that [edit_record] works on exists. *)
Lemma positions_from_row (j : nat) (z : Z) (rs : list row) (index : nat)
      (others : list nat) :
  positions_from 0 j z rs = index :: others ->
  exists r, nth_error rs index = Some r.
Proof.
  intros H.
  assert (Hin : In index (positions_from 0 j z rs))
    by (rewrite H; left; reflexivity).
  apply positions_from_spec in Hin. destruct Hin as (_ & r & Hr & _).
  rewrite Nat.sub_0_r in Hr. exists r. exact Hr.
Qed.

(** C6: when some candidate of an edit of an existing record is not empty,
    is for a phone column and is refused by [validate_phone], the method
    returns at the first such candidate with its message.  The candidates
    before it have been written and stay: in the record, each column for
    which a non-empty line came before the refused one holds that line,
    every other cell, the refused phone's and those of the columns after
    it among them, is as it was, and so is every other record.  Nothing
    is saved and the file is untouched. *)
Theorem edit_record_aborts (record_id : Z) (w : World) (j index : nat)
        (others : list nat) (inputs rest : list str) :
  index_of col_ID (columns (data (self w))) = Some j ->
  positions_from 0 j record_id (rows (data (self w))) = index :: others ->
  stdin w = inputs ++ rest ->
  length inputs = length (non_id_columns (columns (data (self w)))) ->
  no_dup (columns (data (self w))) = true ->
  existsb item_fails (field_dict (columns (data (self w))) inputs) = true ->
  exists before key value after r r' w',
    field_dict (columns (data (self w))) inputs
    = before ++ (key, value) :: after
    /\ existsb item_fails before = false
    /\ value <> [] /\ is_phone_column key = true
    /\ validate_phone value = false
    /\ edit_record record_id w = (Ok tt, w')
    /\ data (self w') = apply_items (data (self w)) index before
    /\ columns (data (self w')) = columns (data (self w))
    /\ nth_error (rows (data (self w))) index = Some r
    /\ nth_error (rows (data (self w'))) index = Some r'
    /\ (forall jc c x,
          nth_error (columns (data (self w))) jc = Some c ->
          nth_error r jc = Some x ->
          nth_error r' jc =
          Some (match dict_get before c with
                | Some l => if str_eqb l [] then x else CStr l
                | None => x
                end))
    /\ dict_get before key = None
    /\ (forall kv, In kv after -> dict_get before (fst kv) = None)
    /\ (forall i, i <> index ->
                  nth_error (rows (data (self w'))) i
                  = nth_error (rows (data (self w))) i)
    /\ next_id (self w') = next_id (self w)
    /\ saves (trace w') = saves (trace w)
    /\ file w' = file w
    /\ exists t, trace w' = t ++ [EvPrint (msg_invalid key)].
Proof.
  intros Hj Hpos Hin Hlen Hnd Hsome.
  destruct (first_failure (field_dict (columns (data (self w))) inputs))
    as [Hnone | (before & key & value & after & Hsplit & Hpass & Hfail)].
  { rewrite Hnone in Hsome. discriminate. }
  assert (Hkeys : no_dup (map fst before ++ key :: map fst after) = true).
  { pose proof (f_equal (map fst) Hsplit) as E.
    rewrite (field_dict_combine _ _ Hnd Hlen),
      (map_fst_combine_same _ _ Hlen), map_app in E.
    cbn [map fst] in E. rewrite <- E. apply no_dup_filter. exact Hnd. }
  destruct (positions_from_row _ _ _ _ _ Hpos) as (r & Hr).
  destruct (apply_items_row before (data (self w)) index r
              (no_dup_app_l _ _ Hkeys) Hr) as (r' & Hr' & _ & Hcells).
  exists before, key, value, after, r, r'.
  eexists. split; [exact Hsplit|]. split; [exact Hpass|].
  pose proof Hfail as Hf. unfold item_fails, nonempty in Hf. simpl in Hf.
  rewrite !andb_true_iff, !negb_true_iff in Hf. destruct Hf as [[Hv Hp] Hvp].
  split; [apply str_eqb_neq; exact Hv|]. split; [exact Hp|].
  split; [exact Hvp|].
  split.
  { apply (edit_record_first_fail _ _ _ _ _ _ _ _ _ _ _
             Hj Hpos Hin Hlen Hsplit Hpass Hfail). }
  cbn [self data next_id file trace].
  split; [reflexivity|]. split; [apply apply_items_columns|].
  split; [exact Hr|]. split; [exact Hr'|]. split; [exact Hcells|].
  split.
  { apply dict_get_none_mem. apply (no_dup_app_mem _ _ _ Hkeys). }
  split.
  { intros kv Hkv. apply dict_get_none_mem.
    apply in_split in Hkv. destruct Hkv as (a1 & a2 & ->).
    rewrite map_app in Hkeys. cbn [map] in Hkeys.
    replace (map fst before ++ key :: map fst a1 ++ fst kv :: map fst a2)
      with ((map fst before ++ key :: map fst a1) ++ fst kv :: map fst a2)
      in Hkeys by (rewrite <- app_assoc; reflexivity).
    apply no_dup_app_mem in Hkeys.
    rewrite mem_app in Hkeys. apply orb_false_iff in Hkeys. tauto. }
  split; [intros i Hne; apply apply_items_other; exact Hne|].
  split; [reflexivity|]. split.
  { rewrite !saves_app, saves_edit_prompts. simpl. apply app_nil_r. }
  split; [reflexivity|].
  eexists. rewrite !app_assoc. reflexivity.
Qed.

Lemma edit_record_aborts_witness :
  let w := one_record_world "1234567" "7654321"
             [utf8 "Petrov"; enter; enter; enter; utf8 "000"; utf8 "abc"] in
  let inputs := [utf8 "Petrov"; enter; enter; enter; utf8 "000"; utf8 "abc"] in
  exists before key value after r r' w',
    field_dict (columns (data (self w))) inputs
    = before ++ (key, value) :: after
    /\ existsb item_fails before = false
    /\ value <> [] /\ is_phone_column key = true
    /\ validate_phone value = false
    /\ edit_record 1 w = (Ok tt, w')
    /\ data (self w') = apply_items (data (self w)) 0 before
    /\ columns (data (self w')) = columns (data (self w))
    /\ nth_error (rows (data (self w))) 0 = Some r
    /\ nth_error (rows (data (self w'))) 0 = Some r'
    /\ (forall jc c x,
          nth_error (columns (data (self w))) jc = Some c ->
          nth_error r jc = Some x ->
          nth_error r' jc =
          Some (match dict_get before c with
                | Some l => if str_eqb l [] then x else CStr l
                | None => x
                end))
    /\ dict_get before key = None
    /\ (forall kv, In kv after -> dict_get before (fst kv) = None)
    /\ (forall i, i <> 0%nat ->
                  nth_error (rows (data (self w'))) i
                  = nth_error (rows (data (self w))) i)
    /\ next_id (self w') = next_id (self w)
    /\ saves (trace w') = saves (trace w)
    /\ file w' = file w
    /\ exists t, trace w' = t ++ [EvPrint (msg_invalid key)].
Proof.
  intros w inputs.
  refine (@edit_record_aborts 1 w 0%nat 0%nat [] inputs [] _ _ _ _ _ _).
  - vm_compute. reflexivity.
  - vm_compute. reflexivity.
  - vm_compute. reflexivity.
  - vm_compute. reflexivity.
  - vm_compute. reflexivity.
  - vm_compute. reflexivity.
Defined.

(** An aborted edit at work: the surname typed before the refused mobile
    phone is in the record, the work phone typed before it too, and the
    file still has the old record. *)
Example edit_record_aborts_sample :
  let w := one_record_world "1234567" "7654321"
             [utf8 "Petrov"; enter; enter; enter; utf8 "000"; utf8 "abc"] in
  let w' := snd (edit_record 1 w) in
  rows (data (self w'))
  = [[CInt 1; CStr (utf8 "Petrov"); CStr (utf8 "Ivan");
      CStr (utf8 "Ivanovich"); CStr (utf8 "Acme");
      CStr (utf8 "000"); CStr (utf8 "7654321")]]
  /\ file w' = file w
  /\ file w = Some (to_csv (mkDataFrame schema
                              [ivanov_row 1 "1234567" "7654321"])).
Proof.
  intros w w'. split; [vm_compute; reflexivity|].
  split; vm_compute; reflexivity.
Qed.

(** ** Edits that change nothing *)

Lemma dict_set_values (d : dict str) (k x v : str) :
  In v (dict_values (dict_set d k x)) -> v = x \/ In v (dict_values d).
Proof.
  unfold dict_values. induction d as [|[a y] d IH]; simpl.
  - intros [H | []]. auto.
  - destruct (str_eqb a k); simpl.
    + intros [H | H]; auto.
    + intros [H | H]; auto. destruct (IH H); auto.
Qed.

Lemma field_dict_values (cols inputs : list str) (v : str) :
  In v (dict_values (field_dict cols inputs)) -> In v inputs.
Proof.
  unfold field_dict.
  assert (H : forall l acc,
             In v (dict_values
                     (fold_left (fun a ci => dict_set a (fst ci) (snd ci)) l acc)) ->
             In v (dict_values acc) \/ In v (map snd l)).
  { induction l as [|[c x] l IH]; intros acc; simpl; [auto|].
    intros Hv. destruct (IH _ Hv) as [Hacc | Hl]; [|auto].
    destruct (dict_set_values _ _ _ _ Hacc); auto. }
  intros Hv. destruct (H _ _ Hv) as [[] | Hl].
  apply in_map_iff in Hl. destruct Hl as ([c x] & <- & Hcx).
  apply (in_combine_r _ _ _ _ Hcx).
Qed.

Lemma apply_items_empty (df : DataFrame) (index : nat) (items : dict str) :
  (forall v, In v (dict_values items) -> v = []) ->
  apply_items df index items = df /\ existsb item_fails items = false.
Proof.
  unfold apply_items, dict_values.
  induction items as [|[k v] items IH]; simpl; [auto|].
  intros H. rewrite (H v (or_introl eq_refl)). simpl.
  destruct (IH (fun x Hx => H x (or_intror Hx))) as [IH1 IH2].
  unfold item_fails at 1. simpl. auto.
Qed.

(** C7: an edit of an existing record in which every line typed is
    empty leaves the record, the whole collection and [next_id] as they
    were, and still calls [save] with the unchanged collection.  When its
    text can be encoded the file then holds it and the call reports the
    update; when it cannot (a record holds a lone surrogate) [save]
    raises [UnicodeEncodeError] out of the call, still with the
    collection unchanged. *)
Theorem edit_record_all_empty (record_id : Z) (w : World) (j index : nat)
        (others : list nat) (inputs rest : list str) :
  index_of col_ID (columns (data (self w))) = Some j ->
  positions_from 0 j record_id (rows (data (self w))) = index :: others ->
  stdin w = inputs ++ rest ->
  length inputs = length (non_id_columns (columns (data (self w)))) ->
  (forall l, In l inputs -> l = []) ->
  exists w',
    edit_record record_id w
    = (if encodable (to_csv (data (self w)))
       then Ok tt else Raise UnicodeEncodeError, w')
    /\ self w' = self w
    /\ saves (trace w') = saves (trace w) ++ [data (self w)]
    /\ (encodable (to_csv (data (self w))) = true ->
        file w' = Some (to_csv (data (self w)))
        /\ exists t,
             trace w' = t ++ [EvSave (data (self w)); EvPrint msg_updated])
    /\ (encodable (to_csv (data (self w))) = false ->
        file w' = Some (fst (write_lines (csv_lines (data (self w)))))
        /\ exists t, trace w' = t ++ [EvSave (data (self w))]).
Proof.
  intros Hj Hpos Hin Hlen Hempty.
  destruct (apply_items_empty (data (self w)) index
              (field_dict (columns (data (self w))) inputs)) as [Hsame Hpass].
  { intros v Hv. apply Hempty. apply (field_dict_values _ _ _ Hv). }
  pose proof (edit_record_all_pass _ _ _ _ _ _ _ Hj Hpos Hin Hlen Hpass)
    as Hrun.
  cbv zeta in Hrun. rewrite Hsame in Hrun. rewrite Hrun.
  destruct (encodable (to_csv (data (self w)))) eqn:E.
  - eexists. split; [reflexivity|]. cbn [self data next_id file trace].
    split; [destruct (self w); reflexivity|]. split.
    { rewrite !saves_app, saves_edit_prompts. simpl. rewrite !app_nil_r.
      reflexivity. }
    split; [|discriminate]. intros _. split; [reflexivity|].
    eexists. rewrite !app_assoc. reflexivity.
  - eexists. split; [reflexivity|]. cbn [self data next_id file trace].
    split; [destruct (self w); reflexivity|]. split.
    { rewrite !saves_app, saves_edit_prompts. simpl. rewrite !app_nil_r.
      reflexivity. }
    split; [discriminate|]. intros _. split; [reflexivity|].
    eexists. rewrite !app_assoc. reflexivity.
Qed.

Lemma edit_record_all_empty_witness :
  let w := one_record_world "1234567" "7654321"
             [enter; enter; enter; enter; enter; enter] in
  exists w',
    edit_record 1 w
    = (if encodable (to_csv (data (self w)))
       then Ok tt else Raise UnicodeEncodeError, w')
    /\ self w' = self w
    /\ saves (trace w') = saves (trace w) ++ [data (self w)]
    /\ (encodable (to_csv (data (self w))) = true ->
        file w' = Some (to_csv (data (self w)))
        /\ exists t,
             trace w' = t ++ [EvSave (data (self w)); EvPrint msg_updated])
    /\ (encodable (to_csv (data (self w))) = false ->
        file w' = Some (fst (write_lines (csv_lines (data (self w)))))
        /\ exists t, trace w' = t ++ [EvSave (data (self w))]).
Proof.
  intros w.
  refine (@edit_record_all_empty 1 w 0%nat 0%nat []
            [enter; enter; enter; enter; enter; enter] [] _ _ _ _ _).
  - vm_compute. reflexivity.
  - vm_compute. reflexivity.
  - vm_compute. reflexivity.
  - vm_compute. reflexivity.
  - intros l Hl. simpl in Hl.
    repeat (destruct Hl as [<- | Hl]; [reflexivity|]). destruct Hl.
Defined.

(** ** Which row an edit touches *)

(** C10: [edit_record] works on the first record, in collection order,
    whose [ID] cell equals the identifier: the records at all other
    positions, among them the later ones with the same identifier, are the
    same after the call, however it ends.  When no record has the
    identifier the call prints the not-found message and changes nothing:
    instance and file are as before and nothing is saved. *)
Theorem edit_record_first_match (record_id : Z) (w : World) (j : nat) :
  index_of col_ID (columns (data (self w))) = Some j ->
  (positions_from 0 j record_id (rows (data (self w))) = [] ->
   exists w',
     edit_record record_id w = (Ok tt, w')
     /\ self w' = self w /\ file w' = file w /\ stdin w' = stdin w
     /\ saves (trace w') = saves (trace w)
     /\ trace w' = trace w ++ [EvPrint msg_not_found])
  /\ (forall index others res w',
        positions_from 0 j record_id (rows (data (self w)))
        = index :: others ->
        edit_record record_id w = (res, w') ->
        (forall i r,
           nth_error (rows (data (self w))) i = Some r ->
           cell_eq_int (nth j r CNaN) record_id = true ->
           (index <= i)%nat)
        /\ (forall i,
              i <> index ->
              nth_error (rows (data (self w'))) i
              = nth_error (rows (data (self w))) i)).
Proof.
  intros Hj. split.
  - intros Hpos. exists (printed_world w msg_not_found).
    rewrite (edit_record_not_found _ _ _ Hj Hpos). simpl.
    rewrite saves_app. simpl. rewrite app_nil_r. auto 10.
  - intros index others res w' Hpos Hrun. split.
    + intros i r Hn Hr.
      apply (positions_from_least _ _ _ _ _ _ Hpos).
      apply positions_from_spec. split; [lia|]. exists r.
      rewrite Nat.sub_0_r. auto.
    + intros i Hne. apply edit_record_general in Hrun.
      destruct Hrun as
        (_ & [-> | (j' & index' & others' & applied & Hj' & Hpos' & _ & ->)]);
        [reflexivity|].
      rewrite Hj in Hj'. inversion Hj'; subst j'.
      rewrite Hpos in Hpos'. inversion Hpos'; subst.
      apply apply_items_other. exact Hne.
Qed.

Lemma edit_record_first_match_witness :
  let twice :=
    mkWorld (mkDirectory
               (mkDataFrame schema [ivanov_row 1 "11" "12";
                                    ivanov_row 1 "21" "22"]) 3)
            None [enter; enter; enter; enter; utf8 "5"; enter] [] in
  (positions_from 0 0 1 (rows (data (self twice))) = [] ->
   exists w',
     edit_record 1 twice = (Ok tt, w')
     /\ self w' = self twice /\ file w' = file twice
     /\ stdin w' = stdin twice
     /\ saves (trace w') = saves (trace twice)
     /\ trace w' = trace twice ++ [EvPrint msg_not_found])
  /\ (forall index others res w',
        positions_from 0 0 1 (rows (data (self twice))) = index :: others ->
        edit_record 1 twice = (res, w') ->
        (forall i r,
           nth_error (rows (data (self twice))) i = Some r ->
           cell_eq_int (nth 0 r CNaN) 1 = true ->
           (index <= i)%nat)
        /\ (forall i,
              i <> index ->
              nth_error (rows (data (self w'))) i
              = nth_error (rows (data (self twice))) i)).
Proof.
  intros twice.
  refine (@edit_record_first_match 1 twice 0%nat _).
  vm_compute. reflexivity.
Defined.

Example edit_record_duplicate_id :
  let twice :=
    mkWorld (mkDirectory
               (mkDataFrame schema [ivanov_row 1 "11" "12";
                                    ivanov_row 1 "21" "22"]) 3)
            None [enter; enter; enter; enter; utf8 "5"; enter] [] in
  rows (data (self (snd (edit_record 1 twice))))
  = [ivanov_row 1 "5" "12"; ivanov_row 1 "21" "22"].
Proof. vm_compute. reflexivity. Qed.

(** ** Validity of the stored records *)












(** ** Search *)

Lemma not_special (c : char) :
  Re.is_special c = false ->
  char_eqb c 46 = false /\ char_eqb c 92 = false.
Proof.
  unfold Re.is_special, Re.special. simpl.
  rewrite !orb_false_iff. tauto.
Qed.

(** A keyword without special characters compiles to itself. *)
Lemma compile_literal (k : str) :
  forallb (fun c => negb (Re.is_special c)) k = true ->
  Re.compile k = Some (map Re.Lit k).
Proof.
  induction k as [|c k IH]; simpl; [reflexivity|].
  rewrite andb_true_iff, negb_true_iff. intros [Hc Hk].
  destruct (not_special c Hc) as [Hdot Hbs].
  rewrite Hdot, Hbs, Hc, (IH Hk). reflexivity.
Qed.

Lemma match_here_literal (k s : str) :
  Re.match_here (map Re.Lit k) s = startswith s k.
Proof.
  revert s. induction k as [|a k IH]; intros [|b s]; simpl; try reflexivity.
  rewrite IH. f_equal. unfold char_eqb. apply N.eqb_sym.
Qed.

Lemma search_literal (k s : str) :
  Re.search (map Re.Lit k) s = contains s k.
Proof.
  induction s as [|b s IH]; simpl; rewrite match_here_literal.
  - destruct k; reflexivity.
  - rewrite IH. reflexivity.
Qed.

Lemma row_matches_literal (k : str) (r : row) :
  row_matches (map Re.Lit k) r = literal_matches k r.
Proof.
  unfold row_matches, literal_matches.
  induction r as [|c r IH]; simpl; [reflexivity|].
  rewrite search_literal, IH. reflexivity.
Qed.

Lemma rows_search_result (p : list Re.atom) (df : DataFrame) :
  rows (search_result p df) = filter (row_matches p) (rows df).
Proof.
  unfold search_result. destruct (rows df); reflexivity.
Qed.

Lemma contains_empty (s : str) : contains s [] = true.
Proof. destruct s; reflexivity. Qed.

(** C2 as stated fails: the keyword is a regular expression.  The keyword
    [.] selects a record none of whose fields contains a full stop. *)
Lemma search_records_dot_counterexample :
  let w := one_record_world "1234567" "7654321" [] in
  exists found,
    search_records (utf8 ".") w
    = (Ok tt, mkWorld (self w) (file w) (stdin w) (trace w ++ [EvTable found]))
    /\ rows (data (self w)) = [ivanov_row 1 "1234567" "7654321"]
    /\ rows found = [ivanov_row 1 "1234567" "7654321"]
    /\ filter (literal_matches (utf8 ".")) (rows (data (self w))) = [].
Proof.
  intros w. eexists.
  split; [vm_compute; reflexivity|].
  split; [vm_compute; reflexivity|].
  split; vm_compute; reflexivity.
Qed.

(** C2, amended: for a keyword without characters that are special in a
    regular expression, [search_records] prints exactly the records in
    which the keyword occurs literally, case-sensitively, in the text of
    some field (the ID included), in collection order, and changes
    nothing; the empty keyword gives all records. *)
Theorem search_records_literal (keyword : str) (w : World) :
  forallb (fun c => negb (Re.is_special c)) keyword = true ->
  exists found,
    search_records keyword w
    = (Ok tt, mkWorld (self w) (file w) (stdin w) (trace w ++ [EvTable found]))
    /\ rows found = filter (literal_matches keyword) (rows (data (self w)))
    /\ (keyword = [] ->
        (forall r, In r (rows (data (self w))) -> r <> []) ->
        rows found = rows (data (self w))).
Proof.
  intros Hk. exists (search_result (map Re.Lit keyword) (data (self w))).
  split; [|split].
  - unfold search_records. run. rewrite (compile_literal _ Hk). reflexivity.
  - rewrite rows_search_result. apply filter_ext. intros r.
    apply row_matches_literal.
  - intros -> Hrows. rewrite rows_search_result.
    rewrite (filter_ext _ _ (row_matches_literal [])).
    induction (rows (data (self w))) as [|r rs IH]; simpl; [reflexivity|].
    destruct r as [|c r]; [exfalso; apply (Hrows []); simpl; auto|].
    unfold literal_matches at 1. simpl. rewrite contains_empty. simpl.
    rewrite IH; [reflexivity|]. intros r' Hr'. apply Hrows. simpl. auto.
Qed.

Lemma search_records_literal_witness :
  let w := one_record_world "1234567" "7654321" [] in
  exists found,
    search_records (utf8 "Acme") w
    = (Ok tt, mkWorld (self w) (file w) (stdin w) (trace w ++ [EvTable found]))
    /\ rows found
       = filter (literal_matches (utf8 "Acme")) (rows (data (self w)))
    /\ (utf8 "Acme" = [] ->
        (forall r, In r (rows (data (self w))) -> r <> []) ->
        rows found = rows (data (self w))).
Proof.
  intros w.
  refine (@search_records_literal (utf8 "Acme") w _).
  vm_compute. reflexivity.
Defined.

(** ** Persistence *)

(** C8 as stated fails: a file that exists and is empty makes [load]
    raise instead of returning an empty collection. *)
Lemma load_empty_file_counterexample :
  CSVDataStorage_load (Some []) = Raise EmptyDataError.
Proof. reflexivity. Qed.

(** C8, amended: when [records.csv] does not exist, and when it holds
    only the header line that [save] writes for an empty collection,
    [load] returns the empty collection with the seven columns of the
    schema. *)
Theorem load_without_records :
  CSVDataStorage_load None = Ok (mkDataFrame schema [])
  /\ CSVDataStorage_load (Some (to_csv (mkDataFrame schema [])))
     = Ok (mkDataFrame schema [])
  /\ length schema = 7%nat.
Proof.
  split; [reflexivity|]. split; [vm_compute; reflexivity | reflexivity].
Qed.

(** C9 fails on a phone with leading zeros: after [add_record] stored the
    work phone 007 and saved, a fresh [load] of the file reads the phone
    columns as integers, so the record comes back with the phone 7. *)
Theorem save_load_loses_leading_zeros :
  let w := one_record_world "007" "7654321" [] in
  file w = Some (to_csv (data (self w)))
  /\ rows (data (self w)) = [ivanov_row 1 "007" "7654321"]
  /\ CSVDataStorage_load (file w)
     = Ok (mkDataFrame schema
             [[CInt 1; CStr (utf8 "Ivanov"); CStr (utf8 "Ivan");
               CStr (utf8 "Ivanovich"); CStr (utf8 "Acme");
               CInt 7; CInt 7654321]])
  /\ astype_str (CInt 7) <> astype_str (CStr (utf8 "007")).
Proof.
  intros w.
  split; [vm_compute; reflexivity|].
  split; [vm_compute; reflexivity|].
  split; [vm_compute; reflexivity|].
  vm_compute. discriminate.
Qed.

(** * Further properties of the code *)

(** ** [add_record]: missing keys and what is stored *)

(** X1: a mapping without blank values that lacks the work-phone key makes
    [add_record] raise [KeyError]; so does one that lacks the mobile-phone
    key, but only when the work phone is valid: the [or] of the phone
    check stops at an invalid work phone, which gives the usual message.
    A raised call leaves the world exactly as it was. *)
Theorem add_record_missing_phone (record : dict str) (w : World) :
  existsb blank (dict_values record) = false ->
  (dict_get record col_work_phone = None ->
   add_record record w = (Raise (KeyError col_work_phone), w))
  /\ (forall work,
        dict_get record col_work_phone = Some work ->
        dict_get record col_mobile_phone = None ->
        add_record record w
        = if validate_phone work
          then (Raise (KeyError col_mobile_phone), w)
          else (Ok tt, printed_world w msg_phones_invalid)).
Proof.
  intros Hb. split.
  - intros Hw. unfold add_record. rewrite existsb_strip_blank, Hb.
    run. rewrite Hw. reflexivity.
  - intros work Hw Hm. unfold add_record. rewrite existsb_strip_blank, Hb.
    run. rewrite Hw. simpl. destruct (validate_phone work); simpl.
    + rewrite Hm. reflexivity.
    + reflexivity.
Qed.

Lemma add_record_missing_phone_witness :
  let record := [(col_surname, utf8 "Ivanov"); (col_work_phone, utf8 "12")] in
  let w := fresh_world [] in
  (dict_get record col_work_phone = None ->
   add_record record w = (Raise (KeyError col_work_phone), w))
  /\ (forall work,
        dict_get record col_work_phone = Some work ->
        dict_get record col_mobile_phone = None ->
        add_record record w
        = if validate_phone work
          then (Raise (KeyError col_mobile_phone), w)
          else (Ok tt, printed_world w msg_phones_invalid)).
Proof.
  intros record w.
  refine (@add_record_missing_phone record w _).
  vm_compute. reflexivity.
Defined.

(** X2: an addition that passes validation, with an entry for every
    column other than the ID, in a collection that can be written and
    with values that can be encoded (no lone surrogate), appends one
    record and touches no other: in each column the new record holds the
    mapping's value as text (the generated identifier in the ID column
    when the mapping has no ID entry).  The whole new collection is saved
    once, the file holds its CSV text, and [next_id] grows by one. *)
Theorem add_record_stores (record : dict str) (w : World)
        (work mobile : str) :
  no_dup (map fst record) = true ->
  existsb blank (dict_values record) = false ->
  dict_get record col_work_phone = Some work ->
  validate_phone work = true ->
  dict_get record col_mobile_phone = Some mobile ->
  validate_phone mobile = true ->
  (forall c, In c (columns (data (self w))) -> c <> col_ID ->
             dict_get record c <> None) ->
  frame_encodable (data (self w)) = true ->
  forallb encodable (dict_values record) = true ->
  exists r w',
    add_record record w = (Ok tt, w')
    /\ columns (data (self w')) = columns (data (self w))
    /\ rows (data (self w')) = rows (data (self w)) ++ [r]
    /\ length r = length (columns (data (self w)))
    /\ (forall j c,
          nth_error (columns (data (self w))) j = Some c ->
          nth_error r j =
          match dict_get record c with
          | Some v => Some (CStr v)
          | None => Some (CInt (next_id (self w)))
          end)
    /\ next_id (self w') = (next_id (self w) + 1)%Z
    /\ file w' = Some (to_csv (data (self w')))
    /\ saves (trace w') = saves (trace w) ++ [data (self w')]
    /\ stdin w' = stdin w.
Proof.
  intros Hnd Hb Hw Hv Hm Hvm Hcover Hdf Hvalues.
  destruct (row_of_record_some (columns (data (self w)))
              (record_with_id (next_id (self w)) record))
    as (r & Hr & Hlen & Hnth).
  { intros c Hc. rewrite (record_with_id_cell _ _ _ Hnd).
    destruct (dict_get record c) eqn:Hrc; [discriminate|].
    destruct (str_eqb col_ID c) eqn:E; [discriminate|].
    exfalso. apply (Hcover c Hc); [|exact Hrc].
    intros ->. rewrite str_eqb_refl in E. discriminate. }
  exists r, (added_world w r).
  split.
  { apply (add_record_accepted _ _ _ _ _ Hb Hw Hv Hm Hvm Hr).
    apply (encodable_addition _ _ _ _ Hdf Hnd Hvalues Hr). }
  cbn [added_world self data next_id file trace stdin concat_row columns rows].
  repeat split; auto.
  - intros j c Hj. rewrite (Hnth j c Hj), (record_with_id_cell _ _ _ Hnd).
    destruct (dict_get record c) eqn:Hrc; [reflexivity|].
    destruct (str_eqb col_ID c) eqn:E; [reflexivity|].
    exfalso. apply (Hcover c); [apply (nth_error_In _ _ Hj)| |exact Hrc].
    intros ->. rewrite str_eqb_refl in E. discriminate.
  - rewrite saves_app. reflexivity.
Qed.

Lemma add_record_stores_witness :
  let record := ivanov "1234567" "7654321" in
  let w := one_record_world "1" "2" [] in
  exists r w',
    add_record record w = (Ok tt, w')
    /\ columns (data (self w')) = columns (data (self w))
    /\ rows (data (self w')) = rows (data (self w)) ++ [r]
    /\ length r = length (columns (data (self w)))
    /\ (forall j c,
          nth_error (columns (data (self w))) j = Some c ->
          nth_error r j =
          match dict_get record c with
          | Some v => Some (CStr v)
          | None => Some (CInt (next_id (self w)))
          end)
    /\ next_id (self w') = (next_id (self w) + 1)%Z
    /\ file w' = Some (to_csv (data (self w')))
    /\ saves (trace w') = saves (trace w) ++ [data (self w')]
    /\ stdin w' = stdin w.
Proof.
  intros record w.
  refine (@add_record_stores record w (utf8 "1234567") (utf8 "7654321")
            _ _ _ _ _ _ _ _ _).
  - vm_compute. reflexivity.
  - vm_compute. reflexivity.
  - vm_compute. reflexivity.
  - vm_compute. reflexivity.
  - vm_compute. reflexivity.
  - vm_compute. reflexivity.
  - intros c Hc Hid.
    assert (Hcols : columns (data (self w)) = schema)
      by (vm_compute; reflexivity).
    rewrite Hcols in Hc. unfold schema in Hc. simpl in Hc.
    destruct Hc as [<- | Hc]; [congruence|].
    repeat (destruct Hc as [<- | Hc]; [vm_compute; discriminate|]).
    destruct Hc.
  - vm_compute. reflexivity.
  - vm_compute. reflexivity.
Defined.

(** X3: an [ID] entry of the mapping itself replaces the generated
    identifier in the stored record ([{"ID": next_id, **record}] lets the
    mapping win), while [next_id] still advances (the collection and the
    values being such that [save] can write them). *)
Theorem add_record_own_id (record : dict str) (w : World)
        (work mobile own : str) (j : nat) :
  no_dup (map fst record) = true ->
  existsb blank (dict_values record) = false ->
  dict_get record col_work_phone = Some work ->
  validate_phone work = true ->
  dict_get record col_mobile_phone = Some mobile ->
  validate_phone mobile = true ->
  (forall c, In c (columns (data (self w))) -> dict_get record c <> None) ->
  dict_get record col_ID = Some own ->
  index_of col_ID (columns (data (self w))) = Some j ->
  frame_encodable (data (self w)) = true ->
  forallb encodable (dict_values record) = true ->
  exists r w',
    add_record record w = (Ok tt, w')
    /\ rows (data (self w')) = rows (data (self w)) ++ [r]
    /\ nth j r CNaN = CStr own
    /\ next_id (self w') = (next_id (self w) + 1)%Z.
Proof.
  intros Hnd Hb Hw Hv Hm Hvm Hcover Hown Hj Hdf Hvalues.
  destruct (row_of_record_some (columns (data (self w)))
              (record_with_id (next_id (self w)) record))
    as (r & Hr & _ & _).
  { intros c Hc. rewrite (record_with_id_cell _ _ _ Hnd).
    destruct (dict_get record c) eqn:Hrc; [discriminate|].
    exfalso. apply (Hcover c Hc Hrc). }
  exists r, (added_world w r).
  split.
  { apply (add_record_accepted _ _ _ _ _ Hb Hw Hv Hm Hvm Hr).
    apply (encodable_addition _ _ _ _ Hdf Hnd Hvalues Hr). }
  cbn [added_world self data next_id concat_row rows]. repeat split.
  apply (row_of_record_nth _ _ _ _ _ _ Hr Hj).
  apply record_with_id_get; assumption.
Qed.

Lemma add_record_own_id_witness :
  let record := (col_ID, utf8 "77") :: ivanov "1234567" "7654321" in
  let w := fresh_world [] in
  exists r w',
    add_record record w = (Ok tt, w')
    /\ rows (data (self w')) = rows (data (self w)) ++ [r]
    /\ nth 0 r CNaN = CStr (utf8 "77")
    /\ next_id (self w') = (next_id (self w) + 1)%Z.
Proof.
  intros record w.
  refine (@add_record_own_id record w (utf8 "1234567") (utf8 "7654321")
            (utf8 "77") 0%nat _ _ _ _ _ _ _ _ _ _ _);
    try (vm_compute; reflexivity).
  intros c Hc. simpl in Hc.
  repeat (destruct Hc as [<- | Hc]; [vm_compute; discriminate|]).
  destruct Hc.
Defined.

(** X24: a lone surrogate in a value.  When the mapping passes
    validation and covers the columns but the text of the new collection
    cannot be encoded, [add_record] raises [UnicodeEncodeError] from
    [save]: by then the record is in the collection, while [next_id] has
    not advanced and no addition is reported.  The file was opened for
    writing and holds only the lines written before the one that could
    not be encoded.  An identical call raises in the same way and
    appends a second record with the same identifier. *)
Theorem add_record_save_raises (record : dict str) (w : World)
        (work mobile : str) (r : row) :
  existsb blank (dict_values record) = false ->
  dict_get record col_work_phone = Some work ->
  validate_phone work = true ->
  dict_get record col_mobile_phone = Some mobile ->
  validate_phone mobile = true ->
  row_of_record (columns (data (self w)))
                (record_with_id (next_id (self w)) record) = Some r ->
  frame_encodable (data (self w)) = true ->
  row_encodable r = false ->
  exists w' w'',
    add_record record w = (Raise UnicodeEncodeError, w')
    /\ data (self w') = concat_row (data (self w)) r
    /\ next_id (self w') = next_id (self w)
    /\ file w' = Some (to_csv (data (self w)))
    /\ trace w' = trace w ++ [EvSave (data (self w'))]
    /\ add_record record w' = (Raise UnicodeEncodeError, w'')
    /\ rows (data (self w'')) = rows (data (self w)) ++ [r; r]
    /\ next_id (self w'') = next_id (self w).
Proof.
  intros Hb Hw Hv Hm Hvm Hr Hdf Hrow.
  assert (Henc : encodable (to_csv (concat_row (data (self w)) r)) = false).
  { rewrite encodable_to_csv, frame_encodable_concat, Hdf, Hrow.
    reflexivity. }
  assert (Henc2 : encodable (to_csv (concat_row
                                       (concat_row (data (self w)) r) r))
                  = false).
  { rewrite encodable_to_csv, !frame_encodable_concat, Hdf, Hrow.
    reflexivity. }
  exists (unsaved_world w r), (unsaved_world (unsaved_world w r) r).
  split; [apply (add_record_unsaved _ _ _ _ _ Hb Hw Hv Hm Hvm Hr Henc)|].
  split; [reflexivity|]. split; [reflexivity|]. split.
  { cbn [unsaved_world file]. f_equal. apply write_lines_prefix.
    - exact Hdf.
    - exact Hrow. }
  split; [reflexivity|]. split.
  { apply (add_record_unsaved _ _ _ _ _ Hb Hw Hv Hm Hvm); [exact Hr|].
    exact Henc2. }
  cbn [unsaved_world self data next_id concat_row rows].
  rewrite <- app_assoc. auto.
Qed.

Lemma add_record_save_raises_witness :
  let record := [(col_surname, [73; 56448; 118]%N); (col_name, utf8 "Ivan");
                 (col_patronymic, utf8 "Ivanovich");
                 (col_organization, utf8 "Acme");
                 (col_work_phone, utf8 "1"); (col_mobile_phone, utf8 "2")] in
  let w := fresh_world [] in
  let r := [CInt 1; CStr [73; 56448; 118]%N; CStr (utf8 "Ivan");
            CStr (utf8 "Ivanovich"); CStr (utf8 "Acme");
            CStr (utf8 "1"); CStr (utf8 "2")] in
  exists w' w'',
    add_record record w = (Raise UnicodeEncodeError, w')
    /\ data (self w') = concat_row (data (self w)) r
    /\ next_id (self w') = next_id (self w)
    /\ file w' = Some (to_csv (data (self w)))
    /\ trace w' = trace w ++ [EvSave (data (self w'))]
    /\ add_record record w' = (Raise UnicodeEncodeError, w'')
    /\ rows (data (self w'')) = rows (data (self w)) ++ [r; r]
    /\ next_id (self w'') = next_id (self w).
Proof.
  intros record w r.
  refine (@add_record_save_raises record w (utf8 "1") (utf8 "2") r
            _ _ _ _ _ _ _ _);
    vm_compute; reflexivity.
Defined.

(** ** [edit_record]: input that ends early *)

Lemma saves_prompts (l : list str) (f : str -> str) :
  saves (map (fun c => EvPrompt (f c)) l) = [].
Proof. induction l; simpl; auto. Qed.

(** When the lines run out, reading stops with [EOFError]; the instance
    and the file are as they were. *)
Lemma read_fields_short (cols : list str) (acc : dict str) (w : World) :
  (length (stdin w) < length (non_id_columns cols))%nat ->
  exists w',
    read_fields cols acc w = (Raise EOFError, w')
    /\ self w' = self w /\ file w' = file w /\ stdin w' = []
    /\ trace w' =
       trace w ++ firstn (S (length (stdin w))) (edit_prompts cols).
Proof.
  revert acc w. induction cols as [|c cols IH]; intros acc w; simpl.
  - unfold non_id_columns. simpl. lia.
  - unfold non_id_columns, edit_prompts. simpl.
    destruct (str_eqb c col_ID); simpl.
    + apply IH.
    + intros Hlen. unfold bind, input.
      destruct (stdin w) as [|l rest] eqn:Hin; simpl.
      * eexists. split; [reflexivity|]. simpl. auto.
      * destruct (IH (dict_set acc c l)
                     (mkWorld (self w) (file w) rest
                              (trace w ++ [EvPrompt (edit_prompt c)])))
          as (w' & Hrun & Hs & Hf & Hi & Ht).
        { simpl in *. unfold non_id_columns. lia. }
        exists w'. rewrite Hrun. simpl in *.
        repeat split; auto. rewrite Ht, <- app_assoc. reflexivity.
Qed.

(** X4: [edit_record] reads a line for every column before it writes any
    field.  When the input ends before that, the call raises [EOFError]
    with the collection and the file untouched and nothing saved. *)
Theorem edit_record_input_ends (record_id : Z) (w : World) (j index : nat)
        (others : list nat) :
  index_of col_ID (columns (data (self w))) = Some j ->
  positions_from 0 j record_id (rows (data (self w))) = index :: others ->
  (length (stdin w) < length (non_id_columns (columns (data (self w)))))%nat ->
  exists w',
    edit_record record_id w = (Raise EOFError, w')
    /\ self w' = self w
    /\ file w' = file w
    /\ saves (trace w') = saves (trace w)
    /\ stdin w' = [].
Proof.
  intros Hj Hpos Hlen.
  rewrite (edit_record_unfold _ _ _ _ _ Hj Hpos). cbv zeta.
  match goal with
  | |- context [read_fields ?c ?a ?s] =>
      destruct (read_fields_short c a s Hlen) as (w' & Hrun & Hs & Hf & Hi & Ht)
  end.
  exists w'. rewrite Hrun. cbn [self file stdin trace] in *.
  repeat split; auto.
  rewrite Ht, !saves_app. unfold edit_prompts.
  assert (Hp : forall n l, saves (firstn n (map (fun c => EvPrompt (edit_prompt c)) l)) = []).
  { intros n l. rewrite firstn_map.
    apply saves_prompts. }
  rewrite Hp. simpl. rewrite !app_nil_r. reflexivity.
Qed.

Lemma edit_record_input_ends_witness :
  let w := one_record_world "1234567" "7654321" [utf8 "Petrov"; enter] in
  exists w',
    edit_record 1 w = (Raise EOFError, w')
    /\ self w' = self w
    /\ file w' = file w
    /\ saves (trace w') = saves (trace w)
    /\ stdin w' = [].
Proof.
  intros w.
  refine (@edit_record_input_ends 1 w 0%nat 0%nat [] _ _ _).
  - vm_compute. reflexivity.
  - vm_compute. reflexivity.
  - vm_compute. lia.
Defined.

(** ** [edit_record]: what it cannot change *)

Lemma dict_set_keys (d : dict str) (key v k : str) :
  In k (map fst (dict_set d key v)) -> k = key \/ In k (map fst d).
Proof.
  induction d as [|[a x] d IH]; simpl.
  - intros [H | []]. auto.
  - destruct (str_eqb a key); simpl.
    + intros [H | H]; auto.
    + intros [H | H]; auto. destruct (IH H); auto.
Qed.

(** The keys that the dictionary comprehension adds are columns other
    than [ID]. *)
Lemma read_fields_keys (cols : list str) (acc : dict str) (w : World)
      (record : dict str) (w' : World) :
  read_fields cols acc w = (Ok record, w') ->
  forall k, In k (map fst record) ->
            In k (map fst acc) \/ (In k cols /\ k <> col_ID).
Proof.
  revert acc w. induction cols as [|c cols IH]; intros acc w; simpl.
  - unfold ret. intros H; inversion H; subst. auto.
  - destruct (str_eqb c col_ID) eqn:E.
    + intros H k Hk. destruct (IH _ _ H k Hk) as [Ha | [Hc Hne]]; auto.
    + unfold bind, input. destruct (stdin w) as [|l rest]; [discriminate|].
      intros H k Hk. apply str_eqb_neq in E.
      destruct (IH _ _ H k Hk) as [Ha | [Hc Hne]]; auto.
      destruct (dict_set_keys _ _ _ _ Ha) as [-> | Ha']; auto.
Qed.

(** Like [edit_record_general], with the keys of what was written. *)
Lemma edit_record_applied (record_id : Z) (w : World) (res : result unit)
      (w' : World) :
  edit_record record_id w = (res, w') ->
  next_id (self w') = next_id (self w)
  /\ exists index applied,
       (forall kv, In kv applied -> fst kv <> col_ID)
       /\ data (self w') = apply_items (data (self w)) index applied.
Proof.
  assert (Hnone : forall d, exists (index : nat) (applied : dict str),
             (forall kv, In kv applied -> fst kv <> col_ID)
             /\ d = apply_items d index applied).
  { intros d. exists 0%nat, []. split; [intros kv []|reflexivity]. }
  destruct (index_of col_ID (columns (data (self w)))) as [j|] eqn:Hj.
  2:{ unfold edit_record. run. rewrite Hj. intros H; inversion H; auto. }
  destruct (positions_from 0 j record_id (rows (data (self w))))
    as [|index others] eqn:Hpos.
  { rewrite (edit_record_not_found _ _ _ Hj Hpos).
    intros H; inversion H; simpl; auto. }
  rewrite (edit_record_unfold _ _ _ _ _ Hj Hpos). cbv zeta.
  destruct (read_fields _ _ _) as [res1 w1] eqn:Hread.
  pose proof (read_fields_general _ _ _ _ _ Hread) as (Hself & _ & _).
  simpl in Hself.
  destruct res1 as [record| e |];
    try (intros H; inversion H; subst; rewrite Hself; auto).
  assert (Hkeys : forall kv, In kv record -> fst kv <> col_ID).
  { intros kv Hkv.
    destruct (read_fields_keys _ _ _ _ _ Hread (fst kv)) as [[] | [_ Hne]];
      [apply in_map; exact Hkv | exact Hne]. }
  destruct (first_failure record)
    as [Hpass | (before & key & value & after & -> & Hpass & Hfail)].
  - rewrite (apply_fields_pass _ _ _ Hpass).
    destruct (CSVDataStorage_save _ _) as [res3 w3] eqn:Hsave.
    destruct (save_effects _ _ _ _ Hsave) as (Hs3 & _ & _ & Hres).
    unfold edited_world in Hs3. cbn [self] in Hs3.
    assert (Hw3 : next_id (self w3) = next_id (self w)
                  /\ data (self w3) = apply_items (data (self w)) index record).
    { rewrite Hs3, Hself. auto. }
    destruct Hw3 as [Hn3 Hd3].
    destruct Hres as [(-> & _) | (-> & _)];
      intros H; inversion H; subst; cbn [self];
      (split; [exact Hn3|]); exists index, record; auto.
  - rewrite (apply_fields_fail _ _ _ _ _ _ Hpass Hfail).
    intros H; inversion H; subst; simpl. rewrite Hself. split; [reflexivity|].
    exists index, before. split; [|reflexivity].
    intros kv Hkv. apply Hkeys. apply in_or_app. left. exact Hkv.
Qed.

(** X5: however a call of [edit_record] ends, it leaves the columns, the
    number of records, [next_id] and every cell of the [ID] column as
    they were: an identifier, once stored, is never edited. *)
Theorem edit_record_keeps_identifiers (record_id : Z) (w : World)
        (res : result unit) (w' : World) :
  edit_record record_id w = (res, w') ->
  columns (data (self w')) = columns (data (self w))
  /\ length (rows (data (self w'))) = length (rows (data (self w)))
  /\ next_id (self w') = next_id (self w)
  /\ forall i j r r',
       nth_error (columns (data (self w))) j = Some col_ID ->
       nth_error (rows (data (self w))) i = Some r ->
       nth_error (rows (data (self w'))) i = Some r' ->
       nth_error r' j = nth_error r j.
Proof.
  intros Hrun.
  destruct (edit_record_applied _ _ _ _ Hrun)
    as (Hn & index & applied & Hkeys & ->).
  split; [apply apply_items_columns|].
  split; [apply length_apply_items|].
  split; [exact Hn|].
  intros i j r r' Hj Hr Hr'.
  pose proof (apply_items_column_kept (data (self w)) index applied j col_ID i
                Hj Hkeys) as H.
  rewrite Hr, Hr' in H. simpl in H. inversion H. reflexivity.
Qed.

Lemma edit_record_keeps_identifiers_witness :
  let w := one_record_world "1234567" "7654321"
             [utf8 "Petrov"; enter; enter; enter; utf8 "5"; utf8 "x"] in
  let w' := snd (edit_record 1 w) in
  columns (data (self w')) = columns (data (self w))
  /\ length (rows (data (self w'))) = length (rows (data (self w)))
  /\ next_id (self w') = next_id (self w)
  /\ forall i j r r',
       nth_error (columns (data (self w))) j = Some col_ID ->
       nth_error (rows (data (self w))) i = Some r ->
       nth_error (rows (data (self w'))) i = Some r' ->
       nth_error r' j = nth_error r j.
Proof.
  intros w w'.
  refine (@edit_record_keeps_identifiers 1 w (fst (edit_record 1 w)) w' _).
  apply surjective_pairing.
Defined.

(** ** [edit_record]: what a successful edit writes *)

(** X6: an edit of an existing record with a line for every column, none
    of them a refused phone, on a frame with distinct column labels, the
    collection and the lines being free of lone surrogates: in the first
    matching record each column for which a non-empty line was typed now
    holds that line, every other cell of the record is as it was, all
    other records are untouched; the collection is saved and the file
    holds its CSV text. *)
Theorem edit_record_writes_candidates (record_id : Z) (w : World)
        (j index : nat) (others : list nat) (inputs rest : list str)
        (r : row) :
  index_of col_ID (columns (data (self w))) = Some j ->
  positions_from 0 j record_id (rows (data (self w))) = index :: others ->
  stdin w = inputs ++ rest ->
  length inputs = length (non_id_columns (columns (data (self w)))) ->
  no_dup (columns (data (self w))) = true ->
  nth_error (rows (data (self w))) index = Some r ->
  existsb item_fails
          (combine (non_id_columns (columns (data (self w)))) inputs) = false ->
  frame_encodable (data (self w)) = true ->
  forallb encodable inputs = true ->
  exists r' w',
    edit_record record_id w = (Ok tt, w')
    /\ nth_error (rows (data (self w'))) index = Some r'
    /\ length r' = length r
    /\ (forall i, i <> index ->
                  nth_error (rows (data (self w'))) i
                  = nth_error (rows (data (self w))) i)
    /\ (forall jc c x,
          nth_error (columns (data (self w))) jc = Some c ->
          nth_error r jc = Some x ->
          nth_error r' jc =
          Some (match dict_get
                        (combine (non_id_columns (columns (data (self w))))
                                 inputs) c with
                | Some l => if str_eqb l [] then x else CStr l
                | None => x
                end))
    /\ file w' = Some (to_csv (data (self w')))
    /\ saves (trace w') = saves (trace w) ++ [data (self w')]
    /\ stdin w' = rest.
Proof.
  intros Hj Hpos Hin Hlen Hnd Hr Hpass Hdf Hinputs.
  pose proof (field_dict_combine _ _ Hnd Hlen) as Hfd.
  rewrite <- Hfd in Hpass.
  pose proof (edit_record_all_pass _ _ _ _ _ _ _ Hj Hpos Hin Hlen Hpass)
    as Hrun.
  cbv zeta in Hrun. rewrite Hfd in Hrun.
  set (items := combine (non_id_columns (columns (data (self w)))) inputs)
    in *.
  assert (Hkeys : no_dup (map fst items) = true).
  { subst items. rewrite (map_fst_combine_same _ _ Hlen).
    apply no_dup_filter. exact Hnd. }
  assert (Henc : encodable (to_csv (apply_items (data (self w)) index items))
                 = true).
  { rewrite encodable_to_csv.
    apply (frame_encodable_apply_items _ _ _ Hdf).
    intros v Hv. rewrite forallb_forall in Hinputs. apply Hinputs.
    unfold dict_values in Hv. apply in_map_iff in Hv.
    destruct Hv as ([c x] & <- & Hcx). subst items.
    apply (in_combine_r _ _ _ _ Hcx). }
  rewrite Henc in Hrun.
  destruct (apply_items_row items (data (self w)) index r Hkeys Hr)
    as (r' & Hr' & Hlen' & Hcells).
  eexists r', _. split; [exact Hrun|].
  cbn [self data next_id file trace stdin].
  split; [exact Hr'|]. split; [exact Hlen'|].
  split; [intros i Hne; apply apply_items_other; exact Hne|].
  split; [exact Hcells|].
  split; [reflexivity|]. split; [|reflexivity].
  rewrite !saves_app, saves_edit_prompts. simpl. rewrite !app_nil_r.
  reflexivity.
Qed.

Lemma edit_record_writes_candidates_witness :
  let inputs := [utf8 "Petrov"; enter; enter; enter; utf8 "000"; enter] in
  let w := one_record_world "1234567" "7654321" inputs in
  let r := ivanov_row 1 "1234567" "7654321" in
  exists r' w',
    edit_record 1 w = (Ok tt, w')
    /\ nth_error (rows (data (self w'))) 0 = Some r'
    /\ length r' = length r
    /\ (forall i, i <> 0%nat ->
                  nth_error (rows (data (self w'))) i
                  = nth_error (rows (data (self w))) i)
    /\ (forall jc c x,
          nth_error (columns (data (self w))) jc = Some c ->
          nth_error r jc = Some x ->
          nth_error r' jc =
          Some (match dict_get
                        (combine (non_id_columns (columns (data (self w))))
                                 inputs) c with
                | Some l => if str_eqb l [] then x else CStr l
                | None => x
                end))
    /\ file w' = Some (to_csv (data (self w')))
    /\ saves (trace w') = saves (trace w) ++ [data (self w')]
    /\ stdin w' = [].
Proof.
  intros inputs w r.
  refine (@edit_record_writes_candidates 1 w 0%nat 0%nat [] inputs [] r
            _ _ _ _ _ _ _ _ _); vm_compute; reflexivity.
Defined.

(** ** [search_records] with a pattern *)

(** A pattern without backslash matches wherever its text occurs. *)
Lemma match_here_covers_literal (k : str) (p : list Re.atom) (s : str) :
  Re.compile k = Some p ->
  (forall c, In c k -> c <> 92%N) ->
  startswith s k = true -> Re.match_here p s = true.
Proof.
  revert p s. induction k as [|c k IH]; intros p s; simpl.
  - intros H _ _. inversion H. reflexivity.
  - intros Hc Hbs.
    assert (Hk : forall c', In c' k -> c' <> 92%N) by (intros; apply Hbs; auto).
    destruct (char_eqb c 46) eqn:Edot.
    + destruct (Re.compile k) as [p'|] eqn:Ek; [|discriminate].
      simpl in Hc. inversion Hc; subst p. destruct s as [|b s]; [discriminate|].
      simpl. rewrite andb_true_iff. intros [Hcb Hs].
      rewrite (IH p' s eq_refl Hk Hs), andb_true_r.
      apply char_eqb_eq in Edot. apply char_eqb_eq in Hcb. subst. reflexivity.
    + destruct (char_eqb c 92) eqn:Ebs.
      { apply char_eqb_eq in Ebs. exfalso. apply (Hbs c); auto. }
      destruct (Re.is_special c); [discriminate|].
      destruct (Re.compile k) as [p'|] eqn:Ek; [|discriminate].
      simpl in Hc. inversion Hc; subst p. destruct s as [|b s]; [discriminate|].
      simpl. rewrite andb_true_iff. intros [Hcb Hs].
      rewrite (IH p' s eq_refl Hk Hs), andb_true_r.
      apply char_eqb_eq in Hcb. subst. apply char_eqb_eq. reflexivity.
Qed.

Lemma search_covers_literal (k : str) (p : list Re.atom) (s : str) :
  Re.compile k = Some p ->
  (forall c, In c k -> c <> 92%N) ->
  contains s k = true -> Re.search p s = true.
Proof.
  intros Hc Hbs. induction s as [|b s IH]; simpl.
  - rewrite orb_false_r. intros H. rewrite orb_false_r.
    apply (match_here_covers_literal k p [] Hc Hbs H).
  - rewrite !orb_true_iff. intros [H | H].
    + left. apply (match_here_covers_literal k p (b :: s) Hc Hbs H).
    + right. apply IH. exact H.
Qed.

(** X7: for a keyword of ordinary characters and full stops (no
    backslash), [search_records] changes nothing and prints a table whose
    records all come from the collection, in its order, and among which is
    every record that contains the keyword literally: reading the keyword
    as a pattern can only add records. *)
Theorem search_records_covers_literal (keyword : str) (p : list Re.atom)
        (w : World) :
  Re.compile keyword = Some p ->
  (forall c, In c keyword -> c <> 92%N) ->
  exists found,
    search_records keyword w
    = (Ok tt, mkWorld (self w) (file w) (stdin w) (trace w ++ [EvTable found]))
    /\ rows found = filter (row_matches p) (rows (data (self w)))
    /\ (forall r, In r (rows found) -> In r (rows (data (self w))))
    /\ (forall r, In r (rows (data (self w))) ->
                  literal_matches keyword r = true -> In r (rows found)).
Proof.
  intros Hc Hbs. exists (search_result p (data (self w))).
  split; [unfold search_records; run; rewrite Hc; reflexivity|].
  rewrite rows_search_result. split; [reflexivity|]. split.
  - intros r Hr. apply filter_In in Hr. tauto.
  - intros r Hr Hlit. apply filter_In. split; [exact Hr|].
    unfold literal_matches in Hlit. unfold row_matches.
    apply existsb_exists in Hlit. destruct Hlit as (c & Hin & Hcont).
    apply existsb_exists. exists c. split; [exact Hin|].
    apply (search_covers_literal keyword p _ Hc Hbs Hcont).
Qed.

Lemma search_records_covers_literal_witness :
  let w := one_record_world "1234567" "7654321" [] in
  exists found,
    search_records (utf8 "Iv.n") w
    = (Ok tt, mkWorld (self w) (file w) (stdin w) (trace w ++ [EvTable found]))
    /\ rows found
       = filter (row_matches [Re.Lit 73; Re.Lit 118; Re.AnyChar; Re.Lit 110])
                (rows (data (self w)))
    /\ (forall r, In r (rows found) -> In r (rows (data (self w))))
    /\ (forall r, In r (rows (data (self w))) ->
                  literal_matches (utf8 "Iv.n") r = true -> In r (rows found)).
Proof.
  intros w.
  refine (@search_records_covers_literal (utf8 "Iv.n")
            [Re.Lit 73; Re.Lit 118; Re.AnyChar; Re.Lit 110] w _ _).
  - vm_compute. reflexivity.
  - intros c Hc. vm_compute in Hc.
    repeat (destruct Hc as [<- | Hc]; [discriminate|]). destruct Hc.
Defined.

(** ** An addition followed by a search or an edit *)

Lemma startswith_refl (s : str) : startswith s s = true.
Proof.
  induction s as [|c s IH]; simpl; [reflexivity|].
  rewrite IH, andb_true_r. apply char_eqb_eq. reflexivity.
Qed.

Lemma contains_refl (s : str) : contains s s = true.
Proof.
  destruct s as [|c s]; simpl; [reflexivity|].
  rewrite startswith_refl, (proj2 (char_eqb_eq c c) eq_refl). reflexivity.
Qed.

(** X8: a record that [add_record] has just stored and saved (the
    collection and the values being free of lone surrogates) is found by
    a search for any of its field values that has no special character:
    the table printed by [search_records] contains the new record. *)
Theorem added_record_is_found (record : dict str) (w : World)
        (work mobile c v : str) :
  no_dup (map fst record) = true ->
  existsb blank (dict_values record) = false ->
  dict_get record col_work_phone = Some work ->
  validate_phone work = true ->
  dict_get record col_mobile_phone = Some mobile ->
  validate_phone mobile = true ->
  (forall c', In c' (columns (data (self w))) -> c' <> col_ID ->
              dict_get record c' <> None) ->
  In c (columns (data (self w))) ->
  dict_get record c = Some v ->
  forallb (fun x => negb (Re.is_special x)) v = true ->
  frame_encodable (data (self w)) = true ->
  forallb encodable (dict_values record) = true ->
  exists r w1 found,
    add_record record w = (Ok tt, w1)
    /\ rows (data (self w1)) = rows (data (self w)) ++ [r]
    /\ search_records v w1
       = (Ok tt, mkWorld (self w1) (file w1) (stdin w1)
                         (trace w1 ++ [EvTable found]))
    /\ In r (rows found).
Proof.
  intros Hnd Hb Hw Hv Hm Hvm Hcover Hc Hcv Hplain Hdf Hvalues.
  destruct (row_of_record_some (columns (data (self w)))
              (record_with_id (next_id (self w)) record))
    as (r & Hr & _ & Hnth).
  { intros c' Hc'. rewrite (record_with_id_cell _ _ _ Hnd).
    destruct (dict_get record c') eqn:Hrc; [discriminate|].
    destruct (str_eqb col_ID c') eqn:E; [discriminate|].
    exfalso. apply (Hcover c' Hc'); [|exact Hrc].
    intros ->. rewrite str_eqb_refl in E. discriminate. }
  exists r, (added_world w r),
    (search_result (map Re.Lit v) (data (self (added_world w r)))).
  split.
  { apply (add_record_accepted _ _ _ _ _ Hb Hw Hv Hm Hvm Hr).
    apply (encodable_addition _ _ _ _ Hdf Hnd Hvalues Hr). }
  split; [reflexivity|].
  split. { unfold search_records. run. rewrite (compile_literal _ Hplain).
           reflexivity. }
  rewrite rows_search_result. apply filter_In. split.
  - simpl. apply in_or_app. right. left. reflexivity.
  - rewrite row_matches_literal. unfold literal_matches.
    apply existsb_exists. exists (CStr v). split.
    + destruct (In_nth_error _ _ Hc) as (j & Hj).
      apply (nth_error_In r j).
      rewrite (Hnth j c Hj), (record_with_id_cell _ _ _ Hnd), Hcv.
      reflexivity.
    + simpl. apply contains_refl.
Qed.

Lemma added_record_is_found_witness :
  let record := ivanov "1234567" "7654321" in
  let w := fresh_world [] in
  exists r w1 found,
    add_record record w = (Ok tt, w1)
    /\ rows (data (self w1)) = rows (data (self w)) ++ [r]
    /\ search_records (utf8 "Acme") w1
       = (Ok tt, mkWorld (self w1) (file w1) (stdin w1)
                         (trace w1 ++ [EvTable found]))
    /\ In r (rows found).
Proof.
  intros record w.
  refine (@added_record_is_found record w (utf8 "1234567") (utf8 "7654321")
            col_organization (utf8 "Acme") _ _ _ _ _ _ _ _ _ _ _ _);
    try (vm_compute; reflexivity).
  - intros c Hc Hid. unfold w, fresh_world, schema in Hc. simpl in Hc.
    destruct Hc as [<- | Hc]; [congruence|].
    repeat (destruct Hc as [<- | Hc]; [vm_compute; discriminate|]).
    destruct Hc.
  - vm_compute. auto 10.
Defined.

Lemma positions_from_app (s j : nat) (z : Z) (l1 l2 : list row) :
  positions_from s j z (l1 ++ l2)
  = positions_from s j z l1 ++ positions_from (s + length l1) j z l2.
Proof.
  revert s. induction l1 as [|r l1 IH]; intros s; simpl.
  - rewrite Nat.add_0_r. reflexivity.
  - rewrite IH. replace (S s + length l1)%nat with (s + S (length l1))%nat
      by lia.
    destruct (cell_eq_int (nth j r CNaN) z); reflexivity.
Qed.

(** X9: after a successful addition without an [ID] entry, the records
    that [edit_record] selects for the identifier just assigned are the
    stored ones that already carried it, followed by the new record; when
    no stored record carried it, the new record is the one edited. *)
Theorem added_record_is_selected (record : dict str) (w : World)
        (res : result unit) (w' : World) (j : nat) :
  index_of col_ID (columns (data (self w))) = Some j ->
  dict_get record col_ID = None ->
  add_record record w = (res, w') ->
  rows (data (self w')) <> rows (data (self w)) ->
  positions_from 0 j (next_id (self w)) (rows (data (self w')))
  = positions_from 0 j (next_id (self w)) (rows (data (self w)))
    ++ [length (rows (data (self w)))].
Proof.
  intros Hj Hnone Hrun Hchanged.
  destruct (add_record_inv _ _ _ _ Hrun) as
    [(Hs & _) | (work & mobile & r & _ & _ & _ & _ & _ & Hr & Hend)].
  { rewrite Hs in Hchanged. congruence. }
  assert (Hrows : rows (data (self w')) = rows (data (self w)) ++ [r])
    by (destruct Hend as [(_ & _ & ->) | (_ & _ & ->)]; reflexivity).
  rewrite Hrows.
  rewrite positions_from_app. simpl.
  rewrite (row_of_record_nth _ _ _ _ _ (CInt (next_id (self w))) Hr Hj).
  - simpl. rewrite Z.eqb_refl. reflexivity.
  - rewrite (record_with_id_get_none _ _ _ Hnone), str_eqb_refl. reflexivity.
Qed.

Lemma added_record_is_selected_witness :
  let record := ivanov "1234567" "7654321" in
  let w := one_record_world "1" "2" [] in
  let w' := snd (add_record record w) in
  positions_from 0 0 (next_id (self w)) (rows (data (self w')))
  = positions_from 0 0 (next_id (self w)) (rows (data (self w)))
    ++ [length (rows (data (self w)))].
Proof.
  intros record w w'.
  refine (@added_record_is_selected record w (fst (add_record record w)) w'
            0%nat _ _ _ _).
  - vm_compute. reflexivity.
  - vm_compute. reflexivity.
  - apply surjective_pairing.
  - vm_compute. discriminate.
Defined.

(** ** [CSVDataStorage.load]: what it returns *)

Lemma split_on_blank (content : str) :
  forallb (fun c => char_eqb c 10 || is_blank_ws c) content = true ->
  forallb (forallb is_blank_ws) (split_on 10 content) = true.
Proof.
  induction content as [|c content IH]; simpl; [reflexivity|].
  rewrite andb_true_iff. intros [Hc Hrest]. specialize (IH Hrest).
  destruct (char_eqb c 10) eqn:E; simpl.
  - exact IH.
  - simpl in Hc. destruct (split_on 10 content) as [|l ls]; simpl in *.
    + rewrite Hc. reflexivity.
    + rewrite Hc. exact IH.
Qed.

Lemma filter_none {A} (f : A -> bool) (l : list A) :
  forallb f l = true -> filter (fun x => negb (f x)) l = [].
Proof.
  induction l as [|x l IH]; simpl; [reflexivity|].
  rewrite andb_true_iff. intros [Hx Hl]. rewrite Hx. simpl. auto.
Qed.

(** X10: a file that holds nothing but line ends, spaces and tabs is as
    bad as an empty one: [load] raises [EmptyDataError]. *)
Theorem load_blank_file (content : str) :
  forallb (fun c => char_eqb c 10 || is_blank_ws c) content = true ->
  CSVDataStorage_load (Some content) = Raise EmptyDataError.
Proof.
  intros Hblank. unfold CSVDataStorage_load, read_csv.
  assert (Hq : existsb (fun c => char_eqb c 34 || char_eqb c 13
                                 || char_eqb c 65279 || char_eqb c 0
                                 || is_surrogate c) content = false).
  { clear -Hblank. induction content as [|c content IH]; simpl; [reflexivity|].
    simpl in Hblank. rewrite andb_true_iff in Hblank.
    destruct Hblank as [Hc Hrest]. rewrite (IH Hrest), orb_false_r.
    unfold is_blank_ws in Hc. rewrite !orb_true_iff, !char_eqb_eq in Hc.
    destruct Hc as [-> | [-> | ->]]; reflexivity. }
  rewrite Hq. rewrite (filter_none _ _ (split_on_blank _ Hblank)).
  reflexivity.
Qed.

Lemma load_blank_file_witness :
  CSVDataStorage_load (Some [10; 32; 9; 10; 10]%N) = Raise EmptyDataError.
Proof.
  refine (@load_blank_file [10; 32; 9; 10; 10]%N _).
  vm_compute. reflexivity.
Defined.

Lemma all_some_length {A} (l : list (option A)) (r : list A) :
  all_some l = Some r -> length r = length l.
Proof.
  revert r. induction l as [|[x|] l IH]; intros r; simpl.
  - intros H; inversion H; reflexivity.
  - destruct (all_some l) as [xs|]; [|discriminate]. simpl.
    intros H; inversion H; subst. simpl. f_equal. apply IH. reflexivity.
  - discriminate.
Qed.

Lemma row_of_record_length (cols : list str) (rec : dict cell) (r : row) :
  row_of_record cols rec = Some r -> length r = length cols.
Proof.
  revert r. induction cols as [|c cols IH]; intros r; simpl.
  - intros H; inversion H; reflexivity.
  - destruct (dict_get rec c); [|discriminate].
    destruct (row_of_record cols rec) as [xs|]; [|discriminate].
    intros H; inversion H; subst. simpl. f_equal. apply IH. reflexivity.
Qed.

Lemma rectangular_apply_items (df : DataFrame) (index : nat)
      (items : dict str) :
  rectangular df = true -> rectangular (apply_items df index items) = true.
Proof.
  unfold apply_items. revert df.
  induction items as [|[k v] items IH]; intros df; simpl; [auto|].
  intros H. apply IH. destruct (str_eqb v []); [exact H|].
  unfold rectangular, set_at in *. simpl.
  apply forallb_update_nth; [|exact H].
  intros r Hr. rewrite length_row_set. exact Hr.
Qed.

Lemma rectangular_concat_row (df : DataFrame) (r : row) :
  rectangular (concat_row df r)
  = rectangular df && (length r =? length (columns df))%nat.
Proof.
  unfold rectangular, concat_row. simpl. rewrite forallb_app. simpl.
  rewrite andb_true_r. reflexivity.
Qed.

(** X12: [add_record] and [edit_record] keep a well-formed frame well
    formed, however they end. *)
Theorem mutations_keep_well_formed (w : World) :
  well_formed (data (self w)) = true ->
  (forall record res w',
      add_record record w = (res, w') -> res <> Unmodelled ->
      well_formed (data (self w')) = true)
  /\ (forall record_id res w',
        edit_record record_id w = (res, w') ->
        well_formed (data (self w')) = true).
Proof.
  intros Hwf. split.
  - intros record res w' Hrun _.
    destruct (add_record_inv _ _ _ _ Hrun) as
      [(Hs & _) | (work & mobile & r & _ & _ & _ & _ & _ & Hr & Hend)].
    + rewrite Hs. exact Hwf.
    + assert (Hdata : data (self w') = concat_row (data (self w)) r)
        by (destruct Hend as [(_ & _ & ->) | (_ & _ & ->)]; reflexivity).
      rewrite Hdata. unfold well_formed in *.
      apply andb_true_iff in Hwf. destruct Hwf as [Hhead Hrect].
      rewrite rectangular_concat_row, Hrect.
      rewrite (row_of_record_length _ _ _ Hr), Nat.eqb_refl.
      cbn [concat_row columns]. rewrite Hhead. reflexivity.
  - intros record_id res w' Hrun.
    destruct (edit_record_applied _ _ _ _ Hrun)
      as (_ & index & applied & _ & ->).
    unfold well_formed in *. rewrite apply_items_columns.
    apply andb_true_iff in Hwf. destruct Hwf as [Hhead Hrect].
    rewrite Hhead, (rectangular_apply_items _ _ _ Hrect). reflexivity.
Qed.

Lemma mutations_keep_well_formed_witness :
  let w := one_record_world "1234567" "7654321"
             [utf8 "Petrov"; enter; enter; enter; utf8 "5"; utf8 "x"] in
  well_formed (data (self (snd (add_record (ivanov "1" "2") w)))) = true
  /\ well_formed (data (self (snd (edit_record 1 w)))) = true.
Proof.
  intros w.
  assert (Hwf : well_formed (data (self w)) = true)
    by (vm_compute; reflexivity).
  destruct (mutations_keep_well_formed w Hwf) as [Hadd Hedit]. split.
  - refine (Hadd (ivanov "1" "2") (fst (add_record (ivanov "1" "2") w))
                 (snd (add_record (ivanov "1" "2") w)) _ _).
    + apply surjective_pairing.
    + vm_compute. discriminate.
  - refine (Hedit 1%Z (fst (edit_record 1 w)) (snd (edit_record 1 w)) _).
    apply surjective_pairing.
Defined.

(** ** The menu loop *)

(** What reading a line does. *)
Lemma input_effects (prompt : str) (w : World) (res : result str)
      (w' : World) :
  input prompt w = (res, w') ->
  self w' = self w /\ file w' = file w
  /\ saves (trace w') = saves (trace w)
  /\ (res = Raise EOFError /\ stdin w = [] /\ stdin w' = []
      \/ exists l, res = Ok l /\ stdin w = l :: stdin w').
Proof.
  unfold input. destruct (stdin w) as [|l rest] eqn:Hin;
    intros H; inversion H; subst; simpl; rewrite saves_app; simpl;
    rewrite app_nil_r; repeat split; auto.
  right. exists l. auto.
Qed.

Lemma ask_fields_effects (cols : list str) (acc : dict str) (w : World)
      (res : result (dict str)) (w' : World) :
  ask_fields cols acc w = (res, w') ->
  self w' = self w /\ file w' = file w
  /\ saves (trace w') = saves (trace w)
  /\ (length (stdin w') <= length (stdin w))%nat
  /\ (res = Raise EOFError
      \/ exists record,
           res = Ok record
           /\ forall k, In k (map fst record) ->
                        In k (map fst acc) \/ (In k cols /\ k <> col_ID)).
Proof.
  revert acc w. induction cols as [|c cols IH]; intros acc w; simpl.
  - unfold ret. intros H; inversion H; subst. repeat split; auto.
    right. exists acc. auto.
  - destruct (str_eqb c col_ID) eqn:E.
    + intros H. destruct (IH _ _ H) as (H1 & H2 & H3 & H4 & H5).
      repeat split; auto. destruct H5 as [H5 | (record & Hr & Hk)]; auto.
      right. exists record. split; [exact Hr|]. intros k Hin.
      destruct (Hk k Hin) as [Ha | [Hc Hne]]; auto.
    + unfold bind. destruct (input (add_prompt c) w) as [r1 w1] eqn:Hin.
      destruct (input_effects _ _ _ _ Hin)
        as (I1 & I2 & I3 & [(-> & I4 & I5) | (l & -> & I4)]).
      * intros H; inversion H; subst. rewrite I4, I5. repeat split; auto.
      * intros H. destruct (IH _ _ H) as (H1 & H2 & H3 & H4 & H5).
        rewrite I4. simpl. repeat split; try congruence; try lia.
        destruct H5 as [H5 | (record & Hr & Hk)]; auto.
        right. exists record. split; [exact Hr|]. intros k Hin'.
        apply str_eqb_neq in E.
        destruct (Hk k Hin') as [Ha | [Hc Hne]]; auto.
        destruct (dict_set_keys _ _ _ _ Ha) as [-> | Ha']; auto.
Qed.

Lemma read_fields_stdin (cols : list str) (acc : dict str) (w : World)
      (res : result (dict str)) (w' : World) :
  read_fields cols acc w = (res, w') ->
  (length (stdin w') <= length (stdin w))%nat
  /\ res <> Unmodelled
  /\ incl (stdin w') (stdin w).
Proof.
  revert acc w. induction cols as [|c cols IH]; intros acc w; simpl.
  - unfold ret. intros H; inversion H; subst.
    split; [lia|]. split; [discriminate | apply incl_refl].
  - destruct (str_eqb c col_ID); [apply IH|].
    unfold bind, input. destruct (stdin w) as [|l rest]; simpl.
    + intros H; inversion H; subst. simpl.
      split; [lia|]. split; [discriminate | apply incl_refl].
    + intros H. apply IH in H. simpl in H. destruct H as (H1 & H2 & H3).
      split; [lia|]. split; [exact H2 | apply incl_tl; exact H3].
Qed.

Lemma ask_fields_stdin (cols : list str) (acc : dict str) (w : World)
      (res : result (dict str)) (w' : World) :
  ask_fields cols acc w = (res, w') -> incl (stdin w') (stdin w).
Proof.
  revert acc w. induction cols as [|c cols IH]; intros acc w; simpl.
  - unfold ret. intros H; inversion H; subst. apply incl_refl.
  - destruct (str_eqb c col_ID); [apply IH|].
    unfold bind, input. destruct (stdin w) as [|l rest]; simpl.
    + intros H; inversion H; subst. simpl. apply incl_refl.
    + intros H. apply IH in H. simpl in H. apply incl_tl. exact H.
Qed.

(** The mapping of choice 2 has an entry for every column other than
    [ID]. *)
Lemma ask_fields_covers (cols : list str) (acc : dict str) (w : World)
      (record : dict str) (w' : World) :
  ask_fields cols acc w = (Ok record, w') ->
  forall c, dict_get acc c <> None \/ (In c cols /\ c <> col_ID) ->
            dict_get record c <> None.
Proof.
  revert acc w. induction cols as [|a cols IH]; intros acc w; simpl.
  - unfold ret. intros H; inversion H; subst.
    intros c [Hc | [[] _]]. exact Hc.
  - destruct (str_eqb a col_ID) eqn:E.
    + intros H c Hc. apply (IH _ _ H).
      destruct Hc as [Hc | [[<- | Hin] Hne]]; auto.
      apply str_eqb_eq in E. contradiction.
    + unfold bind, input. destruct (stdin w) as [|l rest]; simpl;
        [discriminate|].
      intros H c Hc. apply (IH _ _ H). rewrite dict_get_set.
      destruct (str_eqb a c) eqn:Eac; [left; discriminate|].
      destruct Hc as [Hc | [[<- | Hin] Hne]]; auto.
      rewrite str_eqb_refl in Eac. discriminate.
Qed.

Lemma dict_get_update_present {V} (e d : dict V) (k : str) :
  dict_get e k <> None \/ dict_get d k <> None ->
  dict_get (dict_update d e) k <> None.
Proof.
  unfold dict_update. revert d.
  induction e as [|[a x] e IH]; intros d; simpl.
  - intros [H | H]; [contradiction | exact H].
  - intros H. apply IH. rewrite dict_get_set.
    destruct (str_eqb a k); [right; discriminate | exact H].
Qed.

Lemma save_file (df : DataFrame) (w : World) (res : result unit)
      (w' : World) :
  CSVDataStorage_save df w = (res, w') ->
  file w' = Some (fst (write_lines (csv_lines df))).
Proof.
  unfold CSVDataStorage_save.
  destruct (write_lines (csv_lines df)) as [text done].
  intros H; inversion H; subst. reflexivity.
Qed.

Lemma written_encodable (df : DataFrame) :
  encodable (to_csv df) = true ->
  fst (write_lines (csv_lines df)) = to_csv df.
Proof.
  intros H. rewrite to_csv_concat in *. rewrite (write_lines_all _ H).
  reflexivity.
Qed.

(** All that [edit_record] can do to the surroundings: it may take lines,
    and either saves nothing and leaves the file, or hands the frame it
    ends with to [save], once; the call raises when the text of that
    frame cannot be encoded. *)
Lemma edit_record_effects (record_id : Z) (w : World) (res : result unit)
      (w' : World) :
  edit_record record_id w = (res, w') ->
  (length (stdin w') <= length (stdin w))%nat
  /\ res <> Unmodelled
  /\ incl (stdin w') (stdin w)
  /\ (file w' = file w /\ saves (trace w') = saves (trace w)
      \/ file w' = Some (fst (write_lines (csv_lines (data (self w')))))
         /\ saves (trace w') = saves (trace w) ++ [data (self w')]
         /\ (encodable (to_csv (data (self w'))) = true
             \/ res = Raise UnicodeEncodeError)).
Proof.
  destruct (index_of col_ID (columns (data (self w)))) as [j|] eqn:Hj.
  2:{ unfold edit_record. run. rewrite Hj. intros H; inversion H; subst.
      split; [lia|]. split; [discriminate|].
      split; [apply incl_refl | auto]. }
  destruct (positions_from 0 j record_id (rows (data (self w))))
    as [|index others] eqn:Hpos.
  { rewrite (edit_record_not_found _ _ _ Hj Hpos).
    intros H; inversion H; subst. simpl. rewrite saves_app. simpl.
    rewrite app_nil_r. split; [lia|]. split; [discriminate|].
    split; [apply incl_refl | auto]. }
  rewrite (edit_record_unfold _ _ _ _ _ Hj Hpos). cbv zeta.
  destruct (read_fields _ _ _) as [res1 w1] eqn:Hread.
  pose proof (read_fields_general _ _ _ _ _ Hread) as (Hself & Hfile & Hsaves).
  pose proof (read_fields_stdin _ _ _ _ _ Hread) as (Hlen & Hmod & Hincl).
  cbn [self file stdin trace] in Hself, Hfile, Hsaves, Hlen, Hincl.
  rewrite saves_app in Hsaves. simpl in Hsaves. rewrite app_nil_r in Hsaves.
  destruct res1 as [record| e |]; [| |congruence].
  2:{ intros H; inversion H; subst. split; [exact Hlen|].
      split; [discriminate|]. split; [exact Hincl | auto]. }
  destruct (first_failure record)
    as [Hpass | (before & key & value & after & -> & Hpass & Hfail)].
  - rewrite (apply_fields_pass _ _ _ Hpass).
    destruct (CSVDataStorage_save _ _) as [res3 w3] eqn:Hsave.
    pose proof (save_file _ _ _ _ Hsave) as Hf3.
    destruct (save_effects _ _ _ _ Hsave) as (Hs3 & Hi3 & Ht3 & Hres).
    unfold edited_world in Hs3, Hi3, Ht3, Hf3, Hres.
    cbn [self data file stdin trace] in Hs3, Hi3, Ht3, Hf3, Hres.
    assert (Hd3 : data (self w3)
                  = apply_items (data (self w1)) index record)
      by (rewrite Hs3; reflexivity).
    assert (Hsv : saves (trace w3) = saves (trace w) ++ [data (self w3)]).
    { rewrite Ht3, saves_app, Hsaves, Hd3. reflexivity. }
    destruct Hres as [(-> & Henc & _) | (-> & Henc)];
      intros H; inversion H; subst; cbn [self file stdin trace];
      (split; [rewrite Hi3; exact Hlen|]); (split; [discriminate|]);
      (split; [rewrite Hi3; exact Hincl|]); right;
      (split; [rewrite Hd3; exact Hf3|]).
    + split; [|left; rewrite Hd3; exact Henc].
      rewrite saves_app, Hsv. simpl. rewrite app_nil_r. reflexivity.
    + split; [exact Hsv | right; reflexivity].
  - rewrite (apply_fields_fail _ _ _ _ _ _ Hpass Hfail).
    intros H; inversion H; subst; cbn [self data file stdin trace].
    split; [exact Hlen|]. split; [discriminate|].
    split; [exact Hincl|]. left.
    split; [exact Hfile|]. rewrite saves_app, Hsaves. simpl.
    apply app_nil_r.
Qed.

(** The same for [add_record]. *)
Lemma add_record_effects (record : dict str) (w : World) (res : result unit)
      (w' : World) :
  add_record record w = (res, w') ->
  stdin w' = stdin w
  /\ (file w' = file w /\ saves (trace w') = saves (trace w)
      \/ file w' = Some (fst (write_lines (csv_lines (data (self w')))))
         /\ saves (trace w') = saves (trace w) ++ [data (self w')]
         /\ (encodable (to_csv (data (self w'))) = true
             \/ res = Raise UnicodeEncodeError)).
Proof.
  intros Hrun.
  destruct (add_record_inv _ _ _ _ Hrun) as
    [(Hs & Hf & Hi & Ht & _)
    | (work & mobile & r & _ & _ & _ & _ & _ & _ & Hend)].
  - auto.
  - destruct Hend as [(Henc & -> & ->) | (Henc & -> & ->)].
    + cbn [added_world self data file stdin trace]. split; [reflexivity|].
      right. rewrite (written_encodable _ Henc).
      split; [reflexivity|]. split; [|left; exact Henc].
      rewrite saves_app. simpl. reflexivity.
    + cbn [unsaved_world self data file stdin trace]. split; [reflexivity|].
      right. split; [reflexivity|]. split; [|right; reflexivity].
      rewrite saves_app. simpl. reflexivity.
Qed.

(** Under choice 2 [add_record] gets an entry for every column, so the
    new row is always defined. *)
Lemma add_record_covered (record : dict str) (w : World) (res : result unit)
      (w' : World) :
  (forall c, In c (columns (data (self w))) -> c <> col_ID ->
             dict_get record c <> None) ->
  add_record record w = (res, w') -> res <> Unmodelled.
Proof.
  intros Hcov.
  destruct (row_of_record_some (columns (data (self w)))
              (record_with_id (next_id (self w)) record))
    as (r & Hr & _).
  { intros c Hc. unfold record_with_id. apply dict_get_update_present.
    rewrite dict_get_map.
    destruct (str_eqb col_ID c) eqn:E.
    - right. cbn [dict_get]. rewrite E. discriminate.
    - left. apply str_eqb_neq in E.
      destruct (dict_get record c) eqn:Hg; [discriminate|].
      exfalso. apply (Hcov c Hc); [congruence | exact Hg]. }
  unfold add_record. rewrite existsb_strip_blank.
  destruct (existsb blank (dict_values record)).
  { run. intros H; inversion H; discriminate. }
  run. destruct (dict_get record col_work_phone) as [work|]; simpl.
  2:{ intros H; inversion H; discriminate. }
  destruct (validate_phone work); simpl.
  2:{ intros H; inversion H; discriminate. }
  destruct (dict_get record col_mobile_phone) as [mobile|]; simpl.
  2:{ intros H; inversion H; discriminate. }
  destruct (validate_phone mobile); simpl.
  2:{ intros H; inversion H; discriminate. }
  rewrite Hr.
  destruct (CSVDataStorage_save _ _) as [res3 w3] eqn:Hsave.
  destruct (save_effects _ _ _ _ Hsave)
    as (_ & _ & _ & [(-> & _) | (-> & _)]);
    intros H; inversion H; discriminate.
Qed.

Lemma search_records_effects (keyword : str) (w : World) (res : result unit)
      (w' : World) :
  search_records keyword w = (res, w') ->
  self w' = self w /\ file w' = file w /\ stdin w' = stdin w
  /\ saves (trace w') = saves (trace w)
  /\ (Re.compile keyword <> None -> res <> Unmodelled).
Proof.
  unfold search_records. run. destruct (Re.compile keyword);
    intros H; inversion H; subst; simpl.
  - rewrite saves_app. simpl. rewrite app_nil_r.
    repeat split; auto; discriminate.
  - repeat split; auto; congruence.
Qed.

(** One round of the menu: the lines left, the saves and the file. *)
Lemma menu_round_effects (w : World) (res : result flow) (w' : World) :
  menu_round w = (res, w') ->
  (res = Ok Again -> (length (stdin w') < length (stdin w))%nat)
  /\ (file w' = file w /\ saves (trace w') = saves (trace w)
      \/ file w' = Some (fst (write_lines (csv_lines (data (self w')))))
         /\ saves (trace w') = saves (trace w) ++ [data (self w')]
         /\ (encodable (to_csv (data (self w'))) = true
             \/ res = Raise UnicodeEncodeError))
  /\ incl (stdin w') (stdin w)
  /\ ((forall l, In l (stdin w) -> Re.compile l <> None) ->
      res <> Unmodelled).
Proof.
  unfold menu_round. unfold bind at 1.
  destruct (input menu w) as [r0 w0] eqn:Hin.
  destruct (input_effects _ _ _ _ Hin)
    as (I1 & I2 & I3 & [(-> & I4 & I5) | (choice & -> & I4)]).
  { intros H; inversion H; subst. split; [discriminate|].
    split; [auto|]. rewrite I4, I5. split; [apply incl_refl|].
    discriminate. }
  assert (Hlt : (length (stdin w0) < length (stdin w))%nat)
    by (rewrite I4; simpl; lia).
  assert (Hsub : incl (stdin w0) (stdin w))
    by (rewrite I4; apply incl_tl, incl_refl).
  destruct (str_eqb choice [49%N]).
  { unfold print_records. run. intros H; inversion H; subst. simpl.
    split; [intros _; exact Hlt|]. split.
    - left. rewrite saves_app. simpl. rewrite app_nil_r. auto.
    - split; [exact Hsub | discriminate]. }
  destruct (str_eqb choice [50%N]).
  { unfold bind at 1. unfold get_self at 1. unfold bind at 1.
    destruct (ask_fields _ _ w0) as [r1 w1] eqn:Hask.
    pose proof (ask_fields_stdin _ _ _ _ _ Hask) as A5.
    destruct (ask_fields_effects _ _ _ _ _ Hask)
      as (A1 & A2 & A3 & A4 & [-> | (record & -> & _)]).
    { intros H; inversion H; subst. split; [discriminate|].
      split; [left; split; congruence|].
      split; [|discriminate]. eapply incl_tran; eassumption. }
    unfold bind. destruct (add_record record w1) as [r2 w2] eqn:Hadd.
    destruct (add_record_effects _ _ _ _ Hadd) as (B1 & B2).
    assert (B3 : r2 <> Unmodelled).
    { apply (add_record_covered _ _ _ _) with (2 := Hadd).
      intros c Hc Hne. apply (ask_fields_covers _ _ _ _ _ Hask).
      right. rewrite A1 in Hc. auto. }
    assert (Hres : (length (stdin w2) < length (stdin w))%nat)
      by (rewrite B1; lia).
    assert (Hsub2 : incl (stdin w2) (stdin w))
      by (rewrite B1; eapply incl_tran; eassumption).
    destruct r2 as [[]| e |]; [| |congruence];
      unfold ret; intros H; inversion H; subst;
      (split; [try discriminate; intros _; exact Hres|]);
      (split; [|split; [exact Hsub2 | discriminate]]);
      (destruct B2 as [[F S] | (F & S & [E | E])];
       [left; split; congruence
       | right; split; [exact F|]; split; [congruence | left; exact E]
       | right; split; [exact F|]; split; [congruence|];
         right; congruence]). }
  destruct (str_eqb choice [51%N]).
  { unfold bind at 1.
    destruct (input search_prompt w0) as [r1 w1] eqn:Hin1.
    destruct (input_effects _ _ _ _ Hin1)
      as (J1 & J2 & J3 & [(-> & J4 & J5) | (keyword & -> & J4)]).
    { intros H; inversion H; subst. split; [discriminate|].
      split; [left; split; congruence|].
      split; [|discriminate]. rewrite J5. intros l []. }
    unfold bind. destruct (search_records keyword w1) as [r2 w2] eqn:Hs.
    destruct (search_records_effects _ _ _ _ Hs)
      as (S1 & S2 & S3 & S4 & S5).
    assert (Hres : (length (stdin w2) < length (stdin w))%nat).
    { rewrite S3. rewrite J4 in Hlt. simpl in Hlt. lia. }
    assert (Hsub2 : incl (stdin w2) (stdin w)).
    { rewrite S3. apply incl_tran with (2 := Hsub). rewrite J4.
      apply incl_tl, incl_refl. }
    assert (Hmod : (forall l, In l (stdin w) -> Re.compile l <> None) ->
                   r2 <> Unmodelled).
    { intros Hall. apply S5. apply Hall. apply Hsub. rewrite J4.
      left. reflexivity. }
    destruct r2 as [[]| e |]; unfold ret; intros H; inversion H; subst;
      (split; [try discriminate; intros _; exact Hres|]);
      (split; [left; split; congruence|]);
      (split; [exact Hsub2|]); try discriminate.
    intros Hall _. exact (Hmod Hall eq_refl). }
  destruct (str_eqb choice [52%N]).
  { unfold bind at 1.
    destruct (input id_prompt w0) as [r1 w1] eqn:Hin1.
    destruct (input_effects _ _ _ _ Hin1)
      as (J1 & J2 & J3 & [(-> & J4 & J5) | (line & -> & J4)]).
    { intros H; inversion H; subst. split; [discriminate|].
      split; [left; split; congruence|].
      split; [|discriminate]. rewrite J5. intros l []. }
    assert (Hsub1 : incl (stdin w1) (stdin w)).
    { apply incl_tran with (2 := Hsub). rewrite J4.
      apply incl_tl, incl_refl. }
    destruct (int_of_str line) as [index|].
    2:{ unfold ret. intros H; inversion H; subst. split; [discriminate|].
        split; [left; split; congruence|].
        split; [exact Hsub1 | discriminate]. }
    unfold bind. destruct (edit_record index w1) as [r2 w2] eqn:He.
    destruct (edit_record_effects _ _ _ _ He) as (E1 & E2 & E3 & E4).
    assert (Hres : (length (stdin w2) < length (stdin w))%nat).
    { rewrite J4 in Hlt. simpl in Hlt. lia. }
    assert (Hsub2 : incl (stdin w2) (stdin w))
      by (eapply incl_tran; eassumption).
    destruct r2 as [[]| e |]; [| |congruence];
      unfold ret; intros H; inversion H; subst;
      (split; [try discriminate; intros _; exact Hres|]);
      (split; [|split; [exact Hsub2 | discriminate]]);
      (destruct E4 as [[F S] | (F & S & [E | E])];
       [left; split; congruence
       | right; split; [exact F|]; split; [congruence | left; exact E]
       | right; split; [exact F|]; split; [congruence|];
         right; congruence]). }
  destruct (str_eqb choice [53%N]).
  { unfold ret. intros H; inversion H; subst. split; [discriminate|].
    split; [left; split; congruence|].
    split; [exact Hsub | discriminate]. }
  run. intros H; inversion H; subst. simpl.
  split; [intros _; exact Hlt|]. split.
  - left. rewrite saves_app. simpl. rewrite app_nil_r. split; congruence.
  - split; [exact Hsub | discriminate].
Qed.

Lemma main_loop_enough (n : nat) (w : World) :
  (length (stdin w) <= n)%nat ->
  exists e, (forall fuel, (length (stdin w) < fuel)%nat ->
                          main_loop fuel w = Some e)
            /\ ((forall l, In l (stdin w) -> Re.compile l <> None) ->
                fst e <> NotModelled).
Proof.
  revert w. induction n as [|n IH]; intros w Hlen;
    destruct (menu_round w) as [res w1] eqn:Hround;
    destruct (menu_round_effects _ _ _ Hround) as (Hlt & _ & Hsub & Hmod).
  - destruct res as [[| |]| e |].
    + specialize (Hlt eq_refl). lia.
    + exists (Returned, w1). split; [|discriminate].
      intros [|fuel] Hf; [lia|]. simpl. rewrite Hround. reflexivity.
    + exists (UncaughtValueError, w1). split; [|discriminate].
      intros [|fuel] Hf; [lia|]. simpl. rewrite Hround. reflexivity.
    + exists (Uncaught e, w1). split; [|discriminate].
      intros [|fuel] Hf; [lia|]. simpl. rewrite Hround. reflexivity.
    + exists (NotModelled, w1). split.
      * intros [|fuel] Hf; [lia|]. simpl. rewrite Hround. reflexivity.
      * intros Hall. exfalso. apply (Hmod Hall). reflexivity.
  - destruct res as [[| |]| e |].
    + specialize (Hlt eq_refl).
      destruct (IH w1) as (e & He & Hne); [lia|].
      exists e. split.
      * intros [|fuel] Hf; [lia|]. simpl. rewrite Hround. apply He. lia.
      * intros Hall. apply Hne. intros l Hl. apply Hall, Hsub, Hl.
    + exists (Returned, w1). split; [|discriminate].
      intros [|fuel] Hf; [lia|]. simpl. rewrite Hround. reflexivity.
    + exists (UncaughtValueError, w1). split; [|discriminate].
      intros [|fuel] Hf; [lia|]. simpl. rewrite Hround. reflexivity.
    + exists (Uncaught e, w1). split; [|discriminate].
      intros [|fuel] Hf; [lia|]. simpl. rewrite Hround. reflexivity.
    + exists (NotModelled, w1). split.
      * intros [|fuel] Hf; [lia|]. simpl. rewrite Hround. reflexivity.
      * intros Hall. exfalso. apply (Hmod Hall). reflexivity.
Qed.

(** X13: [main] ends on every finite input.  When the file can be loaded
    and every line of the input is a pattern that [re] compiles, then
    with more rounds allowed than there are lines the loop comes to an
    end: the [break] of choice 5 or an uncaught exception, [EOFError] at
    the latest.  The way it ends does not depend on how many more rounds
    are allowed. *)
Theorem main_terminates (instance : option Directory) (f : option str)
        (lines : list str) :
  Directory_new instance f <> Unmodelled ->
  (forall l, In l lines -> Re.compile l <> None) ->
  exists e, fst e <> NotModelled
            /\ forall fuel, (length lines < fuel)%nat ->
                            main fuel instance f lines = Some e.
Proof.
  intros Hnew Hlines. unfold main.
  destruct (Directory_new instance f) as [d| e |]; [| |congruence].
  - destruct (main_loop_enough (length lines) (mkWorld d f lines []))
      as ([e w] & He & Hne); [simpl; lia|].
    exists (e, Some w). split; [exact (Hne Hlines)|].
    intros fuel Hf. rewrite (He fuel Hf). reflexivity.
  - exists (Uncaught e, None). split; [discriminate | reflexivity].
Qed.

Lemma main_terminates_witness :
  exists e, fst e <> NotModelled
            /\ forall fuel, (2 < fuel)%nat ->
                 main fuel None None [utf8 "1"; utf8 "5"] = Some e.
Proof.
  refine (main_terminates None None [utf8 "1"; utf8 "5"] _ _).
  - vm_compute. discriminate.
  - intros l Hl. simpl in Hl.
    destruct Hl as [<- | [<- | []]]; vm_compute; discriminate.
Defined.

(** X14: lines that are none of the five choices only get the message for
    an unknown choice; the [5] after them ends the loop normally, with the
    collection and the file as they were, nothing saved and the lines
    after the [5] unread. *)
Theorem main_loop_ignores_unknown (junk rest : list str) (w : World)
        (fuel : nat) :
  (forall l, In l junk -> is_choice l = false) ->
  stdin w = junk ++ [53%N] :: rest ->
  (length junk < fuel)%nat ->
  main_loop fuel w
  = Some (Returned,
          mkWorld (self w) (file w) rest
                  (trace w
                   ++ flat_map (fun _ => [EvPrompt menu; EvPrint msg_unknown])
                               junk
                   ++ [EvPrompt menu])).
Proof.
  revert w fuel. induction junk as [|l junk IH]; intros w fuel Hjunk Hin Hf.
  - destruct fuel as [|fuel]; [lia|]. simpl in *.
    unfold menu_round, bind, input. rewrite Hin. simpl. reflexivity.
  - destruct fuel as [|fuel]; [simpl in Hf; lia|].
    assert (Hl : is_choice l = false) by (apply Hjunk; left; reflexivity).
    unfold is_choice, mem in Hl. simpl in Hl.
    rewrite !orb_false_iff in Hl.
    destruct Hl as (H1 & H2 & H3 & H4 & H5 & _).
    simpl main_loop. unfold menu_round, bind at 1, input at 1.
    rewrite Hin. cbn [app].
    rewrite H1, H2, H3, H4, H5. run.
    rewrite (IH _ fuel).
    + simpl. rewrite <- !app_assoc. reflexivity.
    + intros l' Hl'. apply Hjunk. right. exact Hl'.
    + reflexivity.
    + simpl in Hf. lia.
Qed.

Lemma main_loop_ignores_unknown_witness :
  let w := one_record_world "1234567" "7654321"
             [utf8 "x"; enter; utf8 "5"; utf8 "1"] in
  main_loop 3 w
  = Some (Returned,
          mkWorld (self w) (file w) [utf8 "1"]
                  (trace w
                   ++ flat_map (fun _ => [EvPrompt menu; EvPrint msg_unknown])
                               [utf8 "x"; enter]
                   ++ [EvPrompt menu])).
Proof.
  intros w.
  refine (@main_loop_ignores_unknown [utf8 "x"; enter] [utf8 "1"] w 3 _ _ _).
  - intros l Hl. simpl in Hl.
    destruct Hl as [<- | [<- | []]]; vm_compute; reflexivity.
  - vm_compute. reflexivity.
  - simpl. lia.
Defined.

Lemma main_loop_saves (fuel : nat) (w : World) (e : ending) (w' : World) :
  main_loop fuel w = Some (e, w') ->
  (file w' = file w /\ saves (trace w') = saves (trace w))
  \/ exists earlier df,
       saves (trace w') = saves (trace w) ++ earlier ++ [df]
       /\ file w' = Some (fst (write_lines (csv_lines df)))
       /\ (encodable (to_csv df) = true
           \/ e = Uncaught UnicodeEncodeError).
Proof.
  revert w. induction fuel as [|fuel IH]; intros w; simpl; [discriminate|].
  destruct (menu_round w) as [res w1] eqn:Hround.
  destruct (menu_round_effects _ _ _ Hround) as (_ & Hfs & _).
  assert (Hend : forall e0,
             (res = Raise UnicodeEncodeError ->
              e0 = Uncaught UnicodeEncodeError) ->
             (file w1 = file w /\ saves (trace w1) = saves (trace w))
             \/ exists earlier df,
                  saves (trace w1) = saves (trace w) ++ earlier ++ [df]
                  /\ file w1 = Some (fst (write_lines (csv_lines df)))
                  /\ (encodable (to_csv df) = true
                      \/ e0 = Uncaught UnicodeEncodeError)).
  { intros e0 He0. destruct Hfs as [[F S] | (F & S & E)]; [left; auto|].
    right. exists [], (data (self w1)). split; [exact S|].
    split; [exact F|].
    destruct E as [E | E]; [left; exact E | right; exact (He0 E)]. }
  destruct res as [[| |]| x |].
  - intros H.
    assert (Hround1 :
              (file w1 = file w /\ saves (trace w1) = saves (trace w))
              \/ exists earlier df,
                   saves (trace w1) = saves (trace w) ++ earlier ++ [df]
                   /\ file w1 = Some (fst (write_lines (csv_lines df)))
                   /\ encodable (to_csv df) = true).
    { destruct (Hend Returned) as [H1 | (earlier1 & df1 & S1 & F1 & E1)];
        [discriminate | left; exact H1 |].
      right. exists earlier1, df1. split; [exact S1|]. split; [exact F1|].
      destruct E1 as [E1 | E1]; [exact E1 | discriminate E1]. }
    destruct (IH _ H) as [[F S] | (earlier & df & S & F & E)].
    + destruct Hround1 as [[F1 S1] | (earlier1 & df1 & S1 & F1 & E1)].
      * left. split; congruence.
      * right. exists earlier1, df1. split; [rewrite S; exact S1|].
        split; [rewrite F; exact F1 | left; exact E1].
    + right. destruct Hround1 as [[F1 S1] | (earlier1 & df1 & S1 & F1 & _)].
      * exists earlier, df. split; [rewrite S, S1; reflexivity | auto].
      * exists (earlier1 ++ [df1] ++ earlier), df. split; [|auto].
        rewrite S, S1, <- !app_assoc. reflexivity.
  - intros H; inversion H; subst. apply Hend. discriminate.
  - intros H; inversion H; subst. apply Hend. discriminate.
  - intros H; inversion H; subst. apply Hend. intros Hx.
    inversion Hx. reflexivity.
  - intros H; inversion H; subst. apply Hend. discriminate.
Qed.

(** X15: the only thing a session writes is what [save] writes of whole
    snapshots.  When [main] ends within the model, either nothing was
    saved and [records.csv] is as it was found, or it holds what [save]
    wrote of the last frame it was given: the CSV text of that frame,
    unless the session ended in [UnicodeEncodeError], when it holds the
    lines that went in before the one that could not be encoded. *)
Theorem main_file_is_last_save (fuel : nat) (instance : option Directory)
        (f : option str) (lines : list str) (e : ending) (w : World) :
  main fuel instance f lines = Some (e, Some w) ->
  e <> NotModelled ->
  (saves (trace w) = [] /\ file w = f)
  \/ exists earlier df,
       saves (trace w) = earlier ++ [df]
       /\ file w = Some (fst (write_lines (csv_lines df)))
       /\ (e <> Uncaught UnicodeEncodeError -> file w = Some (to_csv df)).
Proof.
  unfold main. destruct (Directory_new instance f) as [d| x |];
    [|discriminate|discriminate].
  destruct (main_loop fuel _) as [[e' w']|] eqn:Hloop; [|discriminate].
  intros H _; inversion H; subst.
  destruct (main_loop_saves _ _ _ _ Hloop)
    as [[F S] | (earlier & df & S & F & E)].
  - left. simpl in *. auto.
  - right. exists earlier, df. cbn [trace saves app] in S.
    split; [exact S|]. split; [exact F|]. intros Hne.
    destruct E as [E | E]; [|contradiction].
    rewrite F, (written_encodable _ E). reflexivity.
Qed.

Lemma main_file_is_last_save_witness :
  let lines := [utf8 "2"; utf8 "Ivanov"; utf8 "Ivan"; utf8 "Ivanovich";
                utf8 "Acme"; utf8 "1234567"; utf8 "7654321"; utf8 "5"] in
  exists w,
    main 3 None None lines = Some (Returned, Some w)
    /\ ((saves (trace w) = [] /\ file w = None)
        \/ exists earlier df,
             saves (trace w) = earlier ++ [df]
             /\ file w = Some (fst (write_lines (csv_lines df)))
             /\ (Returned <> Uncaught UnicodeEncodeError ->
                 file w = Some (to_csv df))).
Proof.
  intros lines.
  assert (Hrun : exists w, main 3 None None lines = Some (Returned, Some w)).
  { eexists. vm_compute. reflexivity. }
  destruct Hrun as (w & Hrun). exists w. split; [exact Hrun|].
  refine (main_file_is_last_save 3 None None lines Returned w Hrun _).
  discriminate.
Defined.

(** One round changes the instance through one call of [add_record], on
    a mapping without [ID] entry, or one call of [edit_record], or not at
    all; the round ends as that call does. *)
Lemma menu_round_cases (w : World) (res : result flow) (w' : World) :
  menu_round w = (res, w') ->
  self w' = self w
  \/ (exists record w1 r,
        self w1 = self w /\ dict_get record col_ID = None
        /\ add_record record w1 = (r, w')
        /\ res = match r with
                 | Ok _ => Ok Again
                 | Raise x => Raise x
                 | Unmodelled => Unmodelled
                 end)
  \/ (exists record_id w1 r,
        self w1 = self w /\ edit_record record_id w1 = (r, w')).
Proof.
  unfold menu_round. unfold bind at 1.
  destruct (input menu w) as [r0 w0] eqn:Hin.
  destruct (input_effects _ _ _ _ Hin)
    as (I1 & _ & _ & [(-> & _ & _) | (choice & -> & _)]).
  { intros H; inversion H; subst. auto. }
  destruct (str_eqb choice [49%N]).
  { unfold print_records. run. intros H; inversion H; subst. auto. }
  destruct (str_eqb choice [50%N]).
  { unfold bind at 1. unfold get_self at 1. unfold bind at 1.
    destruct (ask_fields _ _ w0) as [r1 w1] eqn:Hask.
    destruct (ask_fields_effects _ _ _ _ _ Hask)
      as (A1 & _ & _ & _ & [-> | (record & -> & Hkeys)]).
    { intros H; inversion H; subst. left. congruence. }
    unfold bind. destruct (add_record record w1) as [r2 w2] eqn:Hadd.
    intros H. right. left. exists record, w1, r2.
    assert (Hw : w' = w2)
      by (destruct r2 as [[]| e |]; unfold ret in H; inversion H; reflexivity).
    subst w'. split; [congruence|]. split.
    - destruct (dict_get record col_ID) eqn:Hid; [|reflexivity].
      exfalso. assert (Hin' : In col_ID (map fst record)).
      { clear -Hid. induction record as [|[a x] record IH]; simpl in *;
          [discriminate|].
        destruct (str_eqb a col_ID) eqn:E; [left; apply str_eqb_eq; exact E|].
        right. apply IH. exact Hid. }
      destruct (Hkeys _ Hin') as [[] | [_ Hne]]. congruence.
    - split; [exact Hadd|].
      destruct r2 as [[]| e |]; unfold ret in H; inversion H; reflexivity. }
  destruct (str_eqb choice [51%N]).
  { unfold bind at 1.
    destruct (input search_prompt w0) as [r1 w1] eqn:Hin1.
    destruct (input_effects _ _ _ _ Hin1)
      as (J1 & _ & _ & [(-> & _ & _) | (keyword & -> & _)]).
    { intros H; inversion H; subst. left. congruence. }
    unfold bind. destruct (search_records keyword w1) as [r2 w2] eqn:Hs.
    destruct (search_records_effects _ _ _ _ Hs) as (S1 & _).
    destruct r2 as [[]| e |]; unfold ret; intros H; inversion H; subst;
      left; congruence. }
  destruct (str_eqb choice [52%N]).
  { unfold bind at 1.
    destruct (input id_prompt w0) as [r1 w1] eqn:Hin1.
    destruct (input_effects _ _ _ _ Hin1)
      as (J1 & _ & _ & [(-> & _ & _) | (line & -> & _)]).
    { intros H; inversion H; subst. left. congruence. }
    destruct (int_of_str line) as [index|].
    2:{ unfold ret. intros H; inversion H; subst. left. congruence. }
    unfold bind. destruct (edit_record index w1) as [r2 w2] eqn:He.
    intros H. right. right. exists index, w1, r2.
    assert (Hw : w' = w2)
      by (destruct r2 as [[]| e |]; unfold ret in H; inversion H; reflexivity).
    subst w'. split; [congruence|exact He]. }
  destruct (str_eqb choice [53%N]).
  { unfold ret. intros H; inversion H; subst. auto. }
  run. intros H; inversion H; subst. auto.
Qed.

Lemma index_of_nth_error (k : str) (cols : list str) (j : nat) :
  index_of k cols = Some j -> nth_error cols j = Some k.
Proof.
  revert j. induction cols as [|c cols IH]; intros j; simpl; [discriminate|].
  destruct (str_eqb c k) eqn:E.
  - intros H; inversion H; subst. apply str_eqb_eq in E. subst. reflexivity.
  - destruct (index_of k cols) as [j'|]; [|discriminate].
    intros H; inversion H; subst. simpl. apply IH. reflexivity.
Qed.

Lemma row_of_record_nth_error (cols : list str) (rec : dict cell) (r : row)
      (j : nat) (c : str) :
  row_of_record cols rec = Some r ->
  nth_error cols j = Some c ->
  nth_error r j = dict_get rec c.
Proof.
  revert r j. induction cols as [|a cols IH]; intros r j; simpl.
  - destruct j; discriminate.
  - destruct (dict_get rec a) as [x|] eqn:Ha; [|discriminate].
    destruct (row_of_record cols rec) as [xs|]; [|discriminate].
    intros H; inversion H; subst r; clear H.
    destruct j as [|j]; simpl.
    + intros H; inversion H; subst. symmetry. exact Ha.
    + apply IH. reflexivity.
Qed.

Section Session.

Variables (d : Directory) (j : nat).
Hypothesis Hid : nth_error (columns (data d)) j = Some col_ID.

Lemma session_rows_same (w w' : World) :
  self w' = self w -> session_rows d j w -> session_rows d j w'.
Proof. unfold session_rows. intros ->. auto. Qed.

Lemma session_numbered_same (w w' : World) :
  self w' = self w -> session_numbered d j w -> session_numbered d j w'.
Proof. unfold session_numbered, session_rows. intros ->. auto. Qed.

(** An addition keeps the numbering of the rows; [next_id] stays one
    ahead of them unless [save] raised, when it equals their number. *)
Lemma session_numbered_add (w : World) (record : dict str)
      (res : result unit) (w' : World) :
  session_numbered d j w ->
  dict_get record col_ID = None ->
  add_record record w = (res, w') ->
  session_rows d j w'
  /\ (next_id (self w') = (len (data (self w')) + 1)%Z
      \/ res = Raise UnicodeEncodeError
         /\ next_id (self w') = len (data (self w'))).
Proof.
  intros ((Hcols & Hlen & Hold & Hnew) & Hn) Hnone Hrun.
  destruct (add_record_inv _ _ _ _ Hrun) as
    [(Hs & _) | (work & mobile & r & _ & _ & _ & _ & _ & Hr & Hend)].
  { unfold session_rows. rewrite Hs. auto 10. }
  assert (Hrows : session_rows d j
                    (mkWorld (mkDirectory (concat_row (data (self w)) r)
                                          (next_id (self w)))
                             None [] [])).
  { unfold session_rows. cbn [self data concat_row columns rows].
    split; [exact Hcols|].
    split. { rewrite length_app. simpl. lia. }
    split.
    - intros i r0 r1 Hr0 Hr1.
      assert (Hi : (i < length (rows (data d)))%nat)
        by (apply nth_error_Some; congruence).
      rewrite nth_error_app1 in Hr1 by lia. apply (Hold i r0 r1 Hr0 Hr1).
    - intros i r1 Hi Hr1.
      destruct (Nat.lt_ge_cases i (length (rows (data (self w)))))
        as [Hlt|Hge].
      + rewrite nth_error_app1 in Hr1 by exact Hlt. apply (Hnew i r1 Hi Hr1).
      + rewrite nth_error_app2 in Hr1 by exact Hge.
        destruct (i - length (rows (data (self w))))%nat as [|n] eqn:En;
          simpl in Hr1; [|destruct n; discriminate].
        inversion Hr1; subst r1.
        rewrite Hcols in Hr.
        rewrite (row_of_record_nth_error _ _ _ _ _ Hr Hid).
        rewrite (record_with_id_get_none _ _ _ Hnone), str_eqb_refl.
        rewrite Hn. unfold len. do 2 f_equal. lia. }
  destruct Hend as [(_ & _ & ->) | (_ & -> & ->)].
  - split; [exact Hrows|]. left.
    cbn [added_world self data next_id]. rewrite len_concat_row, Hn.
    reflexivity.
  - split; [exact Hrows|]. right. split; [reflexivity|].
    cbn [unsaved_world self data next_id]. rewrite len_concat_row, Hn.
    reflexivity.
Qed.

Lemma session_numbered_edit (w : World) (record_id : Z) (res : result unit)
      (w' : World) :
  session_numbered d j w ->
  edit_record record_id w = (res, w') ->
  session_numbered d j w'.
Proof.
  intros ((Hcols & Hlen & Hold & Hnew) & Hn) Hrun.
  destruct (edit_record_applied _ _ _ _ Hrun)
    as (Hnext & index & applied & Hkeys & Hdata).
  assert (Hcell : forall i r r',
             nth_error (rows (data (self w))) i = Some r ->
             nth_error (rows (data (self w'))) i = Some r' ->
             nth_error r' j = nth_error r j).
  { intros i r r' Hr Hr'.
    assert (Hj : nth_error (columns (data (self w))) j = Some col_ID)
      by (rewrite Hcols; exact Hid).
    pose proof (apply_items_column_kept (data (self w)) index applied j
                  col_ID i Hj Hkeys) as H.
    rewrite <- Hdata, Hr, Hr' in H. simpl in H. inversion H. reflexivity. }
  assert (Hrows : length (rows (data (self w')))
                  = length (rows (data (self w))))
    by (rewrite Hdata; apply length_apply_items).
  assert (Hsome : forall i r',
             nth_error (rows (data (self w'))) i = Some r' ->
             exists r, nth_error (rows (data (self w))) i = Some r).
  { intros i r' Hr'.
    destruct (nth_error (rows (data (self w))) i) as [r|] eqn:E;
      [exists r; reflexivity|].
    apply nth_error_None in E.
    assert ((i < length (rows (data (self w'))))%nat)
      by (apply nth_error_Some; congruence).
    lia. }
  unfold session_numbered, session_rows.
  split; [|unfold len in *; rewrite Hnext, Hrows; exact Hn].
  split; [rewrite Hdata, apply_items_columns; exact Hcols|].
  split; [rewrite Hrows; exact Hlen|]. split.
  - intros i r0 r' Hr0 Hr'. destruct (Hsome i r' Hr') as (r & Hr).
    rewrite (Hcell i r r' Hr Hr'). apply (Hold i r0 r Hr0 Hr).
  - intros i r' Hi Hr'. destruct (Hsome i r' Hr') as (r & Hr).
    rewrite (Hcell i r r' Hr Hr'). apply (Hnew i r Hi Hr).
Qed.

Lemma session_numbered_loop (fuel : nat) (w : World) (e : ending)
      (w' : World) :
  session_numbered d j w ->
  main_loop fuel w = Some (e, w') ->
  session_rows d j w'
  /\ (next_id (self w') = (len (data (self w')) + 1)%Z
      \/ e = Uncaught UnicodeEncodeError
         /\ next_id (self w') = len (data (self w'))).
Proof.
  revert w. induction fuel as [|fuel IH]; intros w Hinv; simpl;
    [discriminate|].
  destruct (menu_round w) as [res w1] eqn:Hround.
  assert (Hinv1 : session_rows d j w1
                  /\ (next_id (self w1) = (len (data (self w1)) + 1)%Z
                      \/ res = Raise UnicodeEncodeError
                         /\ next_id (self w1) = len (data (self w1)))).
  { destruct (menu_round_cases _ _ _ Hround)
      as [Hs | [(record & w0 & r & Hs & Hnone & Hadd & Hres)
               | (record_id & w0 & r & Hs & Hedit)]].
    - destruct (session_numbered_same w w1 Hs Hinv) as [H1 H2]. auto.
    - destruct (session_numbered_add w0 record r w1
                  (session_numbered_same w w0 Hs Hinv) Hnone Hadd)
        as [H1 [H2 | [H2 H3]]]; [auto|].
      split; [exact H1|]. right. split; [|exact H3].
      rewrite Hres, H2. reflexivity.
    - destruct (session_numbered_edit w0 record_id r w1
                  (session_numbered_same w w0 Hs Hinv) Hedit) as [H1 H2].
      auto. }
  destruct Hinv1 as [Hrows1 Hnext1].
  destruct res as [[| |]| x |].
  - intros H. apply (IH w1); [|exact H]. split; [exact Hrows1|].
    destruct Hnext1 as [H1 | [H1 _]]; [exact H1 | discriminate H1].
  - intros H; inversion H; subst. split; [exact Hrows1|].
    destruct Hnext1 as [H1 | [H1 _]]; [left; exact H1 | discriminate H1].
  - intros H; inversion H; subst. split; [exact Hrows1|].
    destruct Hnext1 as [H1 | [H1 _]]; [left; exact H1 | discriminate H1].
  - intros H; inversion H; subst. split; [exact Hrows1|].
    destruct Hnext1 as [H1 | [H1 H2]]; [left; exact H1|].
    right. inversion H1. auto.
  - intros H; inversion H; subst. split; [exact Hrows1|].
    destruct Hnext1 as [H1 | [H1 _]]; [left; exact H1 | discriminate H1].
Qed.

End Session.

(** X16: identifiers in a session.  Whatever is typed into [main], when
    it ends within the model the records that were loaded still carry the
    identifiers they were loaded with, the record at position [i] beyond
    them carries [i + 1], and the columns are those that were loaded.
    [next_id] is the number of records plus one, unless the session ended
    in the [UnicodeEncodeError] of an addition whose record stayed in the
    collection: then it is the number of records, the identifier of the
    last of them. *)
Theorem session_identifiers (fuel : nat) (f : option str) (d : Directory)
        (j : nat) (lines : list str) (e : ending) (w : World) :
  Directory_new None f = Ok d ->
  index_of col_ID (columns (data d)) = Some j ->
  main fuel None f lines = Some (e, Some w) ->
  e <> NotModelled ->
  columns (data (self w)) = columns (data d)
  /\ (e <> Uncaught UnicodeEncodeError ->
      next_id (self w) = (len (data (self w)) + 1)%Z)
  /\ (next_id (self w) = (len (data (self w)) + 1)%Z
      \/ next_id (self w) = len (data (self w)))
  /\ (length (rows (data d)) <= length (rows (data (self w))))%nat
  /\ (forall i r0 r,
        nth_error (rows (data d)) i = Some r0 ->
        nth_error (rows (data (self w))) i = Some r ->
        nth_error r j = nth_error r0 j)
  /\ (forall i r,
        (length (rows (data d)) <= i)%nat ->
        nth_error (rows (data (self w))) i = Some r ->
        nth_error r j = Some (CInt (Z.of_nat i + 1))).
Proof.
  intros Hnew Hj. unfold main. rewrite Hnew.
  destruct (main_loop fuel _) as [[e' w']|] eqn:Hloop; [|discriminate].
  intros H _; inversion H; subst.
  apply (session_numbered_loop d j (index_of_nth_error _ _ _ Hj) fuel
           _ _ _) in Hloop.
  - destruct Hloop as ((H1 & H2 & H3 & H4) & H5).
    split; [exact H1|]. split.
    { intros Hne. destruct H5 as [H5 | [H5 _]]; [exact H5 | contradiction]. }
    split. { destruct H5 as [H5 | [_ H5]]; auto. }
    auto.
  - unfold session_numbered, session_rows. cbn [self].
    split; [|apply (Directory_new_next_id _ _ Hnew)].
    split; [reflexivity|].
    split; [lia|]. split.
    + intros i r0 r Hr0 Hr. congruence.
    + intros i r Hi Hr.
      assert ((i < length (rows (data d)))%nat)
        by (apply nth_error_Some; congruence).
      lia.
Qed.

Lemma session_identifiers_witness :
  let lines := [utf8 "2"; utf8 "Ivanov"; utf8 "Ivan"; utf8 "Ivanovich";
                utf8 "Acme"; utf8 "1234567"; utf8 "7654321";
                utf8 "4"; utf8 "1"; utf8 "Petrov"; enter; enter; enter;
                enter; enter; utf8 "5"] in
  let d := mkDirectory (mkDataFrame schema []) 1 in
  exists w,
    main 4 None None lines = Some (Returned, Some w)
    /\ columns (data (self w)) = columns (data d)
    /\ (Returned <> Uncaught UnicodeEncodeError ->
        next_id (self w) = (len (data (self w)) + 1)%Z)
    /\ (next_id (self w) = (len (data (self w)) + 1)%Z
        \/ next_id (self w) = len (data (self w)))
    /\ (length (rows (data d)) <= length (rows (data (self w))))%nat
    /\ (forall i r0 r,
          nth_error (rows (data d)) i = Some r0 ->
          nth_error (rows (data (self w))) i = Some r ->
          nth_error r 0 = nth_error r0 0)
    /\ (forall i r,
          (length (rows (data d)) <= i)%nat ->
          nth_error (rows (data (self w))) i = Some r ->
          nth_error r 0 = Some (CInt (Z.of_nat i + 1))).
Proof.
  intros lines d.
  assert (Hrun : exists w, main 4 None None lines = Some (Returned, Some w)).
  { eexists. vm_compute. reflexivity. }
  destruct Hrun as (w & Hrun). exists w. split; [exact Hrun|].
  refine (@session_identifiers 4 None d 0%nat lines Returned w _ _ Hrun _).
  - reflexivity.
  - vm_compute. reflexivity.
  - discriminate.
Defined.

(** ** Save and load *)

(** *** Numbers *)

Lemma take_digits_step (acc : Z) (c : char) (r : str) :
  is_ascii_digit c = true ->
  take_digits acc (c :: r) = take_digits (10 * acc + (Z.of_N c - 48))%Z r.
Proof. intros H. simpl. rewrite H. reflexivity. Qed.

Lemma take_digits_acc (d : Decimal.uint) (acc : positive) :
  take_digits (Z.pos acc) (digits_of_uint d)
  = (Z.pos (Pos.of_uint_acc d acc), []).
Proof.
  revert acc.
  induction d; intros acc; cbn [digits_of_uint Pos.of_uint_acc];
    [reflexivity| ..];
    rewrite take_digits_step by reflexivity; rewrite <- IHd; f_equal; lia.
Qed.

Lemma take_digits_zero (d : Decimal.uint) :
  take_digits 0 (digits_of_uint d) = (Z.of_N (Pos.of_uint d), []).
Proof.
  induction d; cbn [digits_of_uint Pos.of_uint]; [reflexivity | ..];
    rewrite take_digits_step by reflexivity;
    [exact IHd | ..]; cbn [Z.of_N]; rewrite <- take_digits_acc; f_equal.
Qed.

Lemma digits_of_uint_head (d : Decimal.uint) :
  d <> Decimal.Nil ->
  exists c r,
    digits_of_uint d = c :: r
    /\ is_ascii_digit c = true /\ isspace_ascii c = false
    /\ c <> 45%N /\ c <> 43%N.
Proof.
  intros Hd. destruct d; [congruence | ..]; simpl;
    eexists _, _; (split; [reflexivity|]);
    repeat split; try reflexivity; discriminate.
Qed.

Lemma ascii_digit_cases (c : char) :
  is_ascii_digit c = true ->
  c = 48%N \/ c = 49%N \/ c = 50%N \/ c = 51%N \/ c = 52%N \/ c = 53%N
  \/ c = 54%N \/ c = 55%N \/ c = 56%N \/ c = 57%N.
Proof.
  unfold is_ascii_digit. rewrite andb_true_iff, !N.leb_le. lia.
Qed.

(** [str_to_int64] on a token that starts with a digit, and on one that
    starts with a minus sign and a digit. *)
Lemma str_to_int64_digit (c : char) (r : str) :
  is_ascii_digit c = true ->
  str_to_int64 (c :: r) =
  let '(v, rest) := take_digits 0 (c :: r) in
  match skip_spaces rest with
  | [] => if ((- 2 ^ 63 <=? v) && (v <=? 2 ^ 63 - 1))%Z then Some v else None
  | _ => None
  end.
Proof.
  intros H. destruct (ascii_digit_cases c H)
    as [-> | [-> | [-> | [-> | [-> | [-> | [-> | [-> | [-> | ->]]]]]]]]];
    reflexivity.
Qed.

Lemma str_to_int64_minus_digit (c : char) (r : str) :
  is_ascii_digit c = true ->
  str_to_int64 (45%N :: c :: r) =
  let '(v, rest) := take_digits 0 (c :: r) in
  match skip_spaces rest with
  | [] => if ((- 2 ^ 63 <=? - v) && (- v <=? 2 ^ 63 - 1))%Z
          then Some (- v)%Z else None
  | _ => None
  end.
Proof.
  intros H. destruct (ascii_digit_cases c H)
    as [-> | [-> | [-> | [-> | [-> | [-> | [-> | [-> | [-> | ->]]]]]]]]];
    reflexivity.
Qed.

(** Reading back the text of a 64-bit integer gives the integer. *)
Lemma str_to_int64_str_of_int (z : Z) :
  (- 2 ^ 63 <= z <= 2 ^ 63 - 1)%Z ->
  str_to_int64 (str_of_int z) = Some z.
Proof.
  intros Hz.
  assert (Hrange : ((- 2 ^ 63 <=? z) && (z <=? 2 ^ 63 - 1))%Z = true).
  { apply andb_true_iff. split; apply Z.leb_le; lia. }
  unfold str_of_int, Z.to_int. destruct z as [|p|p].
  - reflexivity.
  - destruct (digits_of_uint_head (Pos.to_uint p))
      as (c & r & Hd & Hdig & _).
    { apply DecimalPos.Unsigned.to_uint_nonnil. }
    rewrite Hd, (str_to_int64_digit c r Hdig), <- Hd, take_digits_zero.
    rewrite DecimalPos.Unsigned.of_to. cbn [Z.of_N skip_spaces].
    rewrite Hrange. reflexivity.
  - destruct (digits_of_uint_head (Pos.to_uint p))
      as (c & r & Hd & Hdig & _).
    { apply DecimalPos.Unsigned.to_uint_nonnil. }
    rewrite Hd, (str_to_int64_minus_digit c r Hdig), <- Hd, take_digits_zero.
    rewrite DecimalPos.Unsigned.of_to. cbn [Z.of_N skip_spaces].
    change (- Z.pos p)%Z with (Z.neg p). rewrite Hrange. reflexivity.
Qed.

Lemma str_to_int64_range (t : str) (z : Z) :
  str_to_int64 t = Some z -> is_int64 (CInt z) = true.
Proof.
  unfold str_to_int64.
  destruct (match skip_spaces t with
            | 45%N :: r => (true, r)
            | 43%N :: r => (false, r)
            | _ => (false, skip_spaces t)
            end) as [neg p].
  destruct p as [|c p]; [discriminate|].
  destruct (is_ascii_digit c); [|discriminate].
  destruct (take_digits 0 (c :: p)) as [v rest].
  destruct (skip_spaces rest); [|discriminate].
  simpl. destruct (_ && _)%bool eqn:E; [|discriminate].
  intros H; inversion H; subst. exact E.
Qed.

Lemma definitely_text_not_int (t : str) :
  definitely_text t = true -> str_to_int64 t = None.
Proof.
  unfold definitely_text. destruct t as [|c t]; [discriminate|].
  rewrite !andb_true_iff, negb_true_iff, !orb_false_iff.
  intros [[[[[[Hsp Hdig] Hsign] _] _] _] _].
  simpl in Hsign. rewrite !orb_false_iff in Hsign.
  destruct Hsign as (Hplus & Hminus & _).
  unfold str_to_int64. simpl skip_spaces. rewrite Hsp.
  destruct c as [|q]; [reflexivity|].
  repeat (destruct q as [q|q|];
          try discriminate;
          try (cbn [fst snd]; rewrite Hdig; reflexivity)).
Qed.

(** *** Lines and fields *)

Lemma split_on_no_sep (sep : char) (x : str) :
  existsb (fun c => char_eqb c sep) x = false -> split_on sep x = [x].
Proof.
  induction x as [|c x IH]; simpl; [reflexivity|].
  rewrite orb_false_iff. intros [Hc Hx]. rewrite Hc, (IH Hx). reflexivity.
Qed.

Lemma split_on_app_sep (sep : char) (x s : str) :
  existsb (fun c => char_eqb c sep) x = false ->
  split_on sep (x ++ sep :: s) = x :: split_on sep s.
Proof.
  induction x as [|c x IH]; simpl.
  - intros _. rewrite (proj2 (char_eqb_eq sep sep) eq_refl). reflexivity.
  - rewrite orb_false_iff. intros [Hc Hx]. rewrite Hc, (IH Hx). reflexivity.
Qed.

(** Splitting what was joined gives the pieces back. *)
Lemma split_on_join (sep : char) (fields : list str) :
  fields <> [] ->
  forallb (fun x => negb (existsb (fun c => char_eqb c sep) x)) fields = true ->
  split_on sep (join [sep] fields) = fields.
Proof.
  induction fields as [|x fields IH]; [congruence|].
  intros _. cbn [forallb]. rewrite andb_true_iff, negb_true_iff.
  intros [Hx Hrest]. destruct fields as [|y fields].
  - simpl. apply split_on_no_sep. exact Hx.
  - change (join [sep] (x :: y :: fields))
      with (x ++ sep :: join [sep] (y :: fields)).
    rewrite (split_on_app_sep _ _ _ Hx), IH; [reflexivity|discriminate|].
    exact Hrest.
Qed.

Lemma split_on_lines (ls : list str) :
  forallb (fun x => negb (existsb (fun c => char_eqb c 10) x)) ls = true ->
  split_on 10 (List.concat (map (fun l => l ++ [10%N]) ls)) = ls ++ [[]].
Proof.
  induction ls as [|l ls IH]; simpl; [reflexivity|].
  rewrite andb_true_iff, negb_true_iff. intros [Hl Hrest].
  rewrite <- app_assoc. simpl.
  rewrite (split_on_app_sep _ _ _ Hl), (IH Hrest). reflexivity.
Qed.

Lemma filter_all {A} (f : A -> bool) (l : list A) :
  forallb f l = true -> filter f l = l.
Proof.
  induction l as [|x l IH]; simpl; [reflexivity|].
  rewrite andb_true_iff. intros [Hx Hl]. rewrite Hx, (IH Hl). reflexivity.
Qed.

Lemma plain_no_quote (s : str) : plain s = true -> needs_quote s = false.
Proof.
  unfold plain, needs_quote. induction s as [|c s IH]; simpl; [reflexivity|].
  rewrite andb_true_iff. intros [Hc Hs]. rewrite (IH Hs), orb_false_r.
  unfold plain_char in Hc. rewrite negb_true_iff, !orb_false_iff in Hc.
  destruct Hc as [[[[[[H44 H34] H10] _] _] _] _].
  rewrite H44, H34, H10. reflexivity.
Qed.

Lemma plain_no_char (s : str) (sep : char) :
  plain_char sep = false -> plain s = true ->
  existsb (fun c => char_eqb c sep) s = false.
Proof.
  intros Hsep. unfold plain. induction s as [|c s IH]; simpl; [reflexivity|].
  rewrite andb_true_iff. intros [Hc Hs]. rewrite (IH Hs), orb_false_r.
  destruct (char_eqb c sep) eqn:E; [|reflexivity].
  apply char_eqb_eq in E. subst. congruence.
Qed.

Lemma map_csv_field_plain (fields : list str) :
  forallb plain fields = true -> map csv_field fields = fields.
Proof.
  induction fields as [|x fields IH]; simpl; [reflexivity|].
  rewrite andb_true_iff. intros [Hx Hrest].
  unfold csv_field at 1. rewrite (plain_no_quote _ Hx), (IH Hrest).
  reflexivity.
Qed.

(** A record of at least two plain fields is written as the fields with
    commas between them. *)
Lemma csv_line_plain (fields : list str) :
  (2 <= length fields)%nat -> forallb plain fields = true ->
  csv_line fields = join [44%N] fields ++ [10%N].
Proof.
  intros Hlen Hplain. unfold csv_line. rewrite (map_csv_field_plain _ Hplain).
  destruct fields as [|x [|y fields]]; simpl in Hlen; try lia.
  destruct x; reflexivity.
Qed.

Lemma plain_join (fields : list str) :
  forallb plain fields = true ->
  forallb (fun c => plain_char c || char_eqb c 44) (join [44%N] fields) = true.
Proof.
  induction fields as [|x fields IH]; [reflexivity|].
  cbn [forallb]. rewrite andb_true_iff. intros [Hx Hrest].
  assert (Hx' : forallb (fun c => plain_char c || char_eqb c 44) x = true).
  { unfold plain in Hx. rewrite forallb_forall in *. intros c Hc.
    rewrite (Hx c Hc). reflexivity. }
  destruct fields as [|y fields]; [exact Hx'|].
  change (join [44%N] (x :: y :: fields))
    with (x ++ 44%N :: join [44%N] (y :: fields)).
  rewrite forallb_app, Hx'. simpl. apply IH. exact Hrest.
Qed.

Lemma join_not_blank (fields : list str) :
  (2 <= length fields)%nat ->
  forallb is_blank_ws (join [44%N] fields) = false.
Proof.
  destruct fields as [|x [|y fields]]; simpl; try lia. intros _.
  rewrite forallb_app. simpl. apply andb_false_r.
Qed.

Lemma join_no_newline (fields : list str) :
  forallb plain fields = true ->
  existsb (fun c => char_eqb c 10) (join [44%N] fields) = false.
Proof.
  intros H. pose proof (plain_join _ H) as Hj.
  induction (join [44%N] fields) as [|c s IH]; simpl in *; [reflexivity|].
  rewrite andb_true_iff in Hj. destruct Hj as [Hc Hs].
  rewrite (IH Hs), orb_false_r.
  destruct (char_eqb c 10) eqn:E; [|reflexivity].
  apply char_eqb_eq in E. subst. discriminate.
Qed.

Lemma plain_digits (d : Decimal.uint) : plain (digits_of_uint d) = true.
Proof. induction d; simpl; auto. Qed.

Lemma plain_str_of_int (z : Z) : plain (str_of_int z) = true.
Proof.
  unfold str_of_int. destruct (Z.to_int z); [|simpl]; apply plain_digits.
Qed.

(** *** Columns *)

Lemma all_some_map_some {A B} (g : A -> B) (f : A -> option B) (l : list A) :
  (forall x, In x l -> f x = Some (g x)) ->
  all_some (map f l) = Some (map g l).
Proof.
  induction l as [|x l IH]; simpl; [reflexivity|].
  intros H. rewrite (H x (or_introl eq_refl)), IH; [reflexivity|].
  intros y Hy. apply H. right. exact Hy.
Qed.

Lemma all_some_none {A} (l : list (option A)) :
  In None l -> all_some l = None.
Proof.
  induction l as [|[x|] l IH]; simpl.
  - intros [].
  - intros [H | H]; [discriminate|]. rewrite (IH H). reflexivity.
  - reflexivity.
Qed.

Lemma column_ok_plain (col : list cell) (x : cell) :
  column_ok col = true -> In x col -> plain (csv_text x) = true.
Proof.
  unfold column_ok. rewrite orb_true_iff, andb_true_iff.
  intros [H | [_ H]] Hx; rewrite forallb_forall in H; specialize (H x Hx);
    destruct x as [z|s|]; simpl in *; try discriminate; try reflexivity.
  - apply plain_str_of_int.
  - apply andb_true_iff in H. tauto.
Qed.

(** A well-typed column is read back from its text as it was. *)
Lemma infer_column_ok (col : list cell) :
  column_ok col = true -> infer_column (map csv_text col) = Some col.
Proof.
  unfold column_ok, infer_column. destruct (forallb is_int64 col) eqn:Hint.
  - intros _.
    assert (H : exists zs,
               all_some (map str_to_int64 (map csv_text col)) = Some zs
               /\ map CInt zs = col).
    { clear -Hint. induction col as [|x col IH]; simpl in *.
      - exists []. auto.
      - rewrite andb_true_iff in Hint. destruct Hint as [Hx Hcol].
        destruct (IH Hcol) as (zs & Hzs & Hmap).
        destruct x as [z|s|]; try discriminate. simpl in Hx.
        rewrite andb_true_iff, !Z.leb_le in Hx. simpl.
        rewrite (str_to_int64_str_of_int z) by lia. rewrite Hzs.
        exists (z :: zs). simpl. rewrite Hmap. auto. }
    destruct H as (zs & -> & ->). reflexivity.
  - simpl. rewrite andb_true_iff. intros [Htext Hobj].
    apply existsb_exists in Htext. destruct Htext as (x & Hx & Hxt).
    destruct x as [z|s|]; try discriminate. simpl in Hxt.
    rewrite all_some_none.
    2:{ apply in_map_iff. exists s. split.
        - apply definitely_text_not_int. exact Hxt.
        - apply in_map_iff. exists (CStr s). auto. }
    assert (He : existsb definitely_text (map csv_text col) = true).
    { apply existsb_exists. exists s. split; [|exact Hxt].
      apply in_map_iff. exists (CStr s). auto. }
    rewrite He. f_equal. rewrite map_map.
    clear -Hobj. induction col as [|x col IH]; simpl in *; [reflexivity|].
    rewrite andb_true_iff in Hobj. destruct Hobj as [Hx Hcol].
    rewrite (IH Hcol). f_equal.
    destruct x as [z|s|]; simpl in *; try discriminate.
    + apply andb_true_iff in Hx. destruct Hx as [_ Hna].
      apply negb_true_iff in Hna. rewrite Hna. reflexivity.
    + reflexivity.
Qed.

(** *** Rows and columns of a rectangular table *)

Lemma map_nth_seq {A} (d : A) (l : list A) :
  map (fun i => nth i l d) (seq 0 (length l)) = l.
Proof.
  induction l as [|x l IH]; simpl; [reflexivity|].
  f_equal. rewrite <- seq_shift, map_map. exact IH.
Qed.

Lemma nth_map_in {A B} (g : A -> B) (l : list A) (i : nat) (d : A) (e : B) :
  (i < length l)%nat -> nth i (map g l) e = g (nth i l d).
Proof.
  revert i. induction l as [|x l IH]; intros [|i]; simpl; try lia; auto.
  intros H. apply IH. lia.
Qed.

(** Taking the columns of a rectangular table and then the rows of the
    columns gives the table back. *)
Lemma transpose_twice (n : nat) (table : list row) :
  forallb (fun r => (length r =? n)%nat) table = true ->
  map (fun i => column_at CNaN
                  (map (fun j => column_at CNaN table j) (seq 0 n)) i)
      (seq 0 (length table))
  = table.
Proof.
  intros Hrect.
  transitivity (map (fun i => nth i table []) (seq 0 (length table)));
    [|apply map_nth_seq].
  apply map_ext_in. intros i Hi. apply in_seq in Hi.
  unfold column_at. rewrite map_map.
  assert (Hrow : length (nth i table []) = n).
  { rewrite forallb_forall in Hrect. apply Nat.eqb_eq. apply Hrect.
    apply nth_In. lia. }
  transitivity (map (fun j => nth j (nth i table []) CNaN) (seq 0 n));
    [|rewrite <- Hrow; apply map_nth_seq].
  apply map_ext. intros j.
  apply (nth_map_in (fun r => nth j r CNaN) table i [] CNaN).
  exact (proj2 Hi).
Qed.

Lemma column_at_text (rows : list row) (j : nat) :
  column_at [] (map (map csv_text) rows) j
  = map csv_text (column_at CNaN rows j).
Proof.
  unfold column_at. rewrite !map_map. apply map_ext. intros r.
  change (@nil char) with (csv_text CNaN). apply map_nth.
Qed.

(** *** The round trip *)

Lemma clean_content (s : str) :
  forallb (fun c => plain_char c || char_eqb c 44 || char_eqb c 10) s = true ->
  existsb (fun c => char_eqb c 34 || char_eqb c 13 || char_eqb c 65279
                    || char_eqb c 0 || is_surrogate c) s
  = false.
Proof.
  induction s as [|c s IH]; cbn [forallb existsb]; [reflexivity|].
  rewrite andb_true_iff. intros [Hc Hs]. rewrite (IH Hs), orb_false_r.
  rewrite !orb_true_iff in Hc. destruct Hc as [[Hc | Hc] | Hc].
  - unfold plain_char in Hc. rewrite negb_true_iff, !orb_false_iff in Hc.
    destruct Hc as [[[[[[_ H34] _] H13] Hbom] H0] Hsur].
    rewrite H34, H13, Hbom, H0, Hsur. reflexivity.
  - apply char_eqb_eq in Hc. subst. reflexivity.
  - apply char_eqb_eq in Hc. subst. reflexivity.
Qed.

Lemma lines_clean (ls : list str) :
  forallb (fun l => forallb (fun c => plain_char c || char_eqb c 44) l) ls
  = true ->
  forallb (fun c => plain_char c || char_eqb c 44 || char_eqb c 10)
          (List.concat (map (fun l => l ++ [10%N]) ls)) = true.
Proof.
  induction ls as [|l ls IH]; [reflexivity|].
  cbn [forallb map List.concat]. rewrite andb_true_iff. intros [Hl Hls].
  rewrite !forallb_app, !andb_true_iff.
  split; [split; [|reflexivity] | exact (IH Hls)].
  rewrite forallb_forall in *. intros c Hc. rewrite (Hl c Hc). reflexivity.
Qed.

(** The cells of the rows of a storable frame are plain text, one per
    column. *)
Lemma storable_rows (cols : list str) (rows : list row) (r : row) :
  rectangular (mkDataFrame cols rows) = true ->
  forallb (fun j => column_ok (column_at CNaN rows j)) (seq 0 (length cols))
  = true ->
  In r rows ->
  length r = length cols /\ forallb plain (map csv_text r) = true.
Proof.
  unfold rectangular. cbn [columns Pandas.rows].
  rewrite !forallb_forall. intros Hrect Hcols Hr.
  assert (Hlen : length r = length cols).
  { apply Nat.eqb_eq. apply Hrect. exact Hr. }
  split; [exact Hlen|]. intros t Ht.
  apply in_map_iff in Ht. destruct Ht as (x & <- & Hx).
  destruct (In_nth r x CNaN Hx) as (j & Hj & Hnth).
  apply (column_ok_plain (column_at CNaN rows j)).
  - apply Hcols. apply in_seq. lia.
  - unfold column_at. apply in_map_iff. exists r. auto.
Qed.

(** The text that [to_csv] writes for plain fields: one line of
    comma-separated fields per record, after the line of the labels. *)
Lemma to_csv_lines (cols : list str) (rows : list row) :
  (2 <= length cols)%nat -> forallb plain cols = true ->
  (forall r, In r rows ->
             length r = length cols /\ forallb plain (map csv_text r) = true) ->
  to_csv (mkDataFrame cols rows)
  = List.concat (map (fun l => l ++ [10%N])
                     (join [44%N] cols
                      :: map (join [44%N]) (map (map csv_text) rows))).
Proof.
  intros Hlen Hplain Hrows. unfold to_csv. cbn [columns Pandas.rows].
  cbn [map List.concat]. rewrite (csv_line_plain cols Hlen Hplain). f_equal.
  rewrite !map_map. f_equal. apply map_ext_in.
  intros r Hr. destruct (Hrows r Hr) as [H1 H2].
  apply csv_line_plain; [rewrite length_map; lia | exact H2].
Qed.

(** [read_csv] on such a text: the labels, and the columns of the fields
    as [infer_column] types them. *)
Lemma read_csv_table (names : list str) (texts : list (list str)) :
  (2 <= length names)%nat -> no_dup names = true -> mem [] names = false ->
  forallb plain names = true ->
  (forall t, In t texts ->
             length t = length names /\ forallb plain t = true) ->
  read_csv (List.concat (map (fun l => l ++ [10%N])
                             (join [44%N] names :: map (join [44%N]) texts)))
  = match texts with
    | [] => Ok (mkDataFrame names [])
    | _ =>
        match all_some (map (fun j => infer_column (column_at [] texts j))
                            (seq 0 (length names))) with
        | Some cols =>
            Ok (mkDataFrame names
                  (map (fun i => column_at CNaN cols i)
                       (seq 0 (length texts))))
        | None => Unmodelled
        end
    end.
Proof.
  intros Hlen Hnd Hne Hplain Htexts.
  set (ls := join [44%N] names :: map (join [44%N]) texts).
  assert (Hls_plain : forallb (fun l => forallb (fun c => plain_char c
                                                   || char_eqb c 44) l) ls
                      = true).
  { subst ls. simpl. rewrite (plain_join names Hplain). simpl.
    apply forallb_forall. intros l Hl. apply in_map_iff in Hl.
    destruct Hl as (t & <- & Ht). apply plain_join. apply (Htexts t Ht). }
  assert (Hls_nl : forallb (fun x => negb (existsb (fun c => char_eqb c 10) x))
                           ls = true).
  { subst ls. simpl. rewrite (join_no_newline names Hplain). simpl.
    apply forallb_forall. intros l Hl. apply in_map_iff in Hl.
    destruct Hl as (t & <- & Ht). rewrite join_no_newline; [reflexivity|].
    apply (Htexts t Ht). }
  assert (Hls_nb : forallb (fun l => negb (forallb is_blank_ws l)) ls = true).
  { subst ls. simpl. rewrite (join_not_blank names Hlen). simpl.
    apply forallb_forall. intros l Hl. apply in_map_iff in Hl.
    destruct Hl as (t & <- & Ht). rewrite join_not_blank; [reflexivity|].
    destruct (Htexts t Ht) as [H1 _]. lia. }
  assert (Hsplit : forall fields,
             (2 <= length fields)%nat -> forallb plain fields = true ->
             split_on 44 (join [44%N] fields) = fields).
  { intros fields H2 Hp. apply split_on_join.
    - destruct fields; simpl in H2; [lia|discriminate].
    - apply forallb_forall. intros x Hx. apply negb_true_iff.
      apply plain_no_char; [reflexivity|].
      rewrite forallb_forall in Hp. apply Hp. exact Hx. }
  unfold read_csv.
  rewrite (clean_content _ (lines_clean _ Hls_plain)).
  rewrite (split_on_lines _ Hls_nl), filter_app. cbn [filter forallb negb].
  rewrite app_nil_r.
  assert (Hf : @filter str (fun l : list char =>
                              negb (forallb is_blank_ws l)) ls = ls)
    by (apply filter_all; exact Hls_nb).
  rewrite Hf. subst ls. cbv iota beta zeta.
  rewrite (Hsplit names Hlen Hplain), Hnd, Hne.
  assert (Htable : map (split_on 44) (map (join [44%N]) texts) = texts).
  { rewrite map_map. rewrite <- (map_id texts) at 2. apply map_ext_in.
    intros t Ht. destruct (Htexts t Ht) as [H1 H2].
    apply Hsplit; [lia | exact H2]. }
  rewrite Htable.
  assert (Hwidth : forallb (fun r => (length r =? length names)%nat) texts
                   = true).
  { apply forallb_forall. intros t Ht. apply Nat.eqb_eq.
    apply (Htexts t Ht). }
  rewrite Hwidth. reflexivity.
Qed.

Lemma read_csv_to_csv (df : DataFrame) :
  storable df = true -> read_csv (to_csv df) = Ok df.
Proof.
  destruct df as [cols rows]. unfold storable. cbn [columns Pandas.rows].
  rewrite !andb_true_iff.
  intros [[[[[Hlen Hnd] Hne] Hplain] Hrect] Hcols].
  apply Nat.leb_le in Hlen. apply negb_true_iff in Hne.
  pose proof (storable_rows cols rows) as Hrows.
  specialize (fun r => Hrows r Hrect Hcols).
  rewrite (to_csv_lines cols rows Hlen Hplain Hrows).
  rewrite (read_csv_table cols (map (map csv_text) rows) Hlen Hnd Hne Hplain).
  2:{ intros t Ht. apply in_map_iff in Ht. destruct Ht as (r & <- & Hr).
      destruct (Hrows r Hr) as [H1 H2]. rewrite length_map. auto. }
  assert (Hinfer : all_some (map (fun j => infer_column
                                             (column_at []
                                                (map (map csv_text) rows) j))
                                 (seq 0 (length cols)))
                   = Some (map (fun j => column_at CNaN rows j)
                               (seq 0 (length cols)))).
  { apply all_some_map_some. intros j Hj.
    rewrite column_at_text. apply infer_column_ok.
    rewrite forallb_forall in Hcols. apply Hcols. exact Hj. }
  rewrite Hinfer.
  assert (Hback : map (fun i => column_at CNaN
                                  (map (fun j => column_at CNaN rows j)
                                       (seq 0 (length cols))) i)
                      (seq 0 (length (map (map csv_text) rows))) = rows).
  { rewrite length_map. apply transpose_twice. exact Hrect. }
  rewrite Hback. destruct rows; reflexivity.
Qed.

(** What [read_csv] reads holds no surrogate. *)
Lemma read_csv_encodable (content : str) (df : DataFrame) :
  read_csv content = Ok df -> encodable content = true.
Proof.
  unfold read_csv. destruct (existsb _ content) eqn:Hclean; [discriminate|].
  intros _. unfold encodable. apply negb_true_iff.
  induction content as [|c content IH]; [reflexivity|].
  cbn [existsb] in *. apply orb_false_iff in Hclean.
  destruct Hclean as [Hc Hrest]. rewrite !orb_false_iff in Hc.
  destruct Hc as [_ Hc]. rewrite Hc, (IH Hrest). reflexivity.
Qed.



(** *** What [load] returns *)

Lemma split_on_chars (sep : char) (P : char -> bool) (s : str) :
  forallb P s = true ->
  forallb (forallb (fun c => P c && negb (char_eqb c sep))) (split_on sep s)
  = true.
Proof.
  induction s as [|c r IH]; [reflexivity|].
  cbn [forallb split_on]. rewrite andb_true_iff. intros [Hc Hr].
  specialize (IH Hr). destruct (char_eqb c sep) eqn:E.
  - cbn [forallb]. exact IH.
  - destruct (split_on sep r) as [|x xs]; cbn [forallb] in *.
    + rewrite Hc, E. reflexivity.
    + rewrite Hc, E. exact IH.
Qed.

Lemma forallb_filter {A} (P f : A -> bool) (l : list A) :
  forallb P l = true -> forallb P (filter f l) = true.
Proof.
  rewrite !forallb_forall. intros H x Hx. apply filter_In in Hx.
  apply H. tauto.
Qed.

Lemma not_exists_forall {A} (P : A -> bool) (l : list A) :
  existsb P l = false -> forallb (fun x => negb (P x)) l = true.
Proof.
  induction l as [|x l IH]; simpl; [reflexivity|].
  rewrite orb_false_iff. intros [Hx Hl]. rewrite Hx, (IH Hl). reflexivity.
Qed.

(** The fields of the lines of a text free of quotes, carriage returns,
    byte-order marks, NUL and surrogates are plain. *)
Lemma fields_plain (content line : str) :
  existsb (fun c => char_eqb c 34 || char_eqb c 13 || char_eqb c 65279
                    || char_eqb c 0 || is_surrogate c)
          content = false ->
  In line (split_on 10 content) ->
  forallb plain (split_on 44 line) = true.
Proof.
  intros Hclean Hline. apply not_exists_forall in Hclean.
  pose proof (split_on_chars 10 _ content Hclean) as Hlines.
  rewrite forallb_forall in Hlines. specialize (Hlines line Hline).
  pose proof (split_on_chars 44 _ line Hlines) as Hfields.
  revert Hfields. apply forallb_impl. intros t. unfold plain.
  apply forallb_impl. intros c. unfold plain_char.
  rewrite !andb_true_iff, !negb_true_iff, !orb_false_iff. tauto.
Qed.

Lemma all_some_forallb {A B} (f : A -> option B) (Q : B -> bool)
      (l : list A) (r : list B) :
  (forall x y, In x l -> f x = Some y -> Q y = true) ->
  all_some (map f l) = Some r -> forallb Q r = true.
Proof.
  revert r. induction l as [|x l IH]; intros r HQ; simpl.
  - intros H; inversion H; reflexivity.
  - destruct (f x) as [y|] eqn:Ey; [|discriminate].
    destruct (all_some (map f l)) as [ys|] eqn:Eys; [|discriminate].
    simpl. intros H; inversion H; subst. simpl.
    rewrite (HQ x y (or_introl eq_refl) Ey). simpl.
    apply IH; [|reflexivity]. intros a b Ha. apply HQ. right. exact Ha.
Qed.

Lemma definitely_text_no_marker (t : str) :
  definitely_text t = true -> mem t na_values = false.
Proof.
  unfold definitely_text. destruct t as [|c t]; [discriminate|].
  rewrite !andb_true_iff, !negb_true_iff. tauto.
Qed.

(** A column inferred from plain tokens is typed as [column_ok] says, and
    is as long as the tokens. *)
Lemma infer_column_typed (tokens : list str) (col : list cell) :
  forallb plain tokens = true ->
  infer_column tokens = Some col ->
  column_ok col = true /\ length col = length tokens.
Proof.
  intros Hplain. unfold infer_column, column_ok.
  destruct (all_some (map str_to_int64 tokens)) as [zs|] eqn:Ezs.
  - intros H; inversion H; subst col; clear H. split.
    + apply orb_true_iff. left. rewrite forallb_map_comp.
      assert (Hall : forallb (fun z => is_int64 (CInt z)) zs = true).
      { apply (all_some_forallb str_to_int64 _ tokens zs); [|exact Ezs].
        intros t z _. apply str_to_int64_range. }
      exact Hall.
    + rewrite length_map. apply all_some_length in Ezs.
      rewrite length_map in Ezs. exact Ezs.
  - destruct (existsb definitely_text tokens) eqn:Etext; [|discriminate].
    intros [= <-]. split.
    + apply orb_true_iff. right. apply andb_true_iff. split.
      * apply existsb_exists in Etext. destruct Etext as (t & Ht & Htext).
        apply existsb_exists.
        exists (if mem t na_values then CNaN else CStr t). split.
        -- apply in_map_iff. exists t. auto.
        -- rewrite (definitely_text_no_marker t Htext). exact Htext.
      * rewrite forallb_map_comp. rewrite forallb_forall in *. intros t Ht.
        change (is_object (if mem t na_values then CNaN else CStr t) = true).
        destruct (mem t na_values) eqn:E; [reflexivity|]. cbn [is_object].
        rewrite (Hplain t Ht), E. reflexivity.
    + apply length_map.
Qed.

Lemma nth_plain (j : nat) (r : list str) :
  forallb plain r = true -> plain (nth j r []) = true.
Proof.
  intros H. destruct (Nat.lt_ge_cases j (length r)) as [Hj | Hj].
  - rewrite forallb_forall in H. apply H. apply nth_In. exact Hj.
  - rewrite nth_overflow; [reflexivity | exact Hj].
Qed.

Lemma read_csv_storable (content : str) (df : DataFrame) :
  read_csv content = Ok df -> (2 <= length (columns df))%nat ->
  storable df = true.
Proof.
  unfold read_csv.
  destruct (existsb _ content) eqn:Hclean; [discriminate|].
  match goal with
  | |- context [filter ?g (split_on 10 content)] =>
      destruct (filter g (split_on 10 content)) as [|header body] eqn:Hlines
  end; [discriminate|].
  assert (Hin : forall l, In l (header :: body) -> In l (split_on 10 content)).
  { intros l Hl. rewrite <- Hlines in Hl. apply filter_In in Hl. tauto. }
  assert (Hnames : forallb plain (split_on 44 header) = true).
  { apply (fields_plain content header Hclean). apply Hin. left. reflexivity. }
  assert (Htable : forall r, In r (map (split_on 44) body) ->
                             forallb plain r = true).
  { intros r Hr. apply in_map_iff in Hr. destruct Hr as (l & <- & Hl).
    apply (fields_plain content l Hclean). apply Hin. right. exact Hl. }
  clear Hin Hlines Hclean.
  set (names := split_on 44 header) in *.
  set (table := map (split_on 44) body) in *.
  destruct (no_dup names) eqn:Hnd; [|discriminate]. cbn [negb orb].
  destruct (mem [] names) eqn:Hmem; [discriminate|]. cbn [negb orb].
  match goal with
  | |- context [forallb ?g table] => destruct (forallb g table) eqn:Hrect
  end; [|discriminate]. cbn [negb].
  destruct table as [|row0 table'] eqn:Etable.
  { intros H; inversion H; subst df; clear H. cbn [columns]. intros Hlen.
    unfold storable, rectangular. cbn [columns rows].
    apply Nat.leb_le in Hlen. rewrite Hlen, Hnd, Hmem, Hnames.
    cbn [andb negb forallb]. apply forallb_forall. reflexivity. }
  rewrite <- Etable in *.
  match goal with
  | |- context [all_some ?l] => destruct (all_some l) as [cols|] eqn:Hcols
  end; [|discriminate].
  replace (match table with [] => Ok (mkDataFrame names []) | _ :: _ =>
             Ok (mkDataFrame names (map (fun i => column_at CNaN cols i)
                                        (seq 0 (length table)))) end)
    with (Ok (mkDataFrame names (map (fun i => column_at CNaN cols i)
                                     (seq 0 (length table)))))
    by (rewrite Etable; reflexivity).
  intros H; inversion H; subst df; clear H. cbn [columns]. intros Hlen.
  assert (Hcols_len : length cols = length names).
  { apply all_some_length in Hcols.
    rewrite length_map, length_seq in Hcols. exact Hcols. }
  assert (Hcols_ok : forallb (fun c => column_ok c
                                       && (length c =? length table)%nat)
                             cols = true).
  { refine (all_some_forallb _ _ _ _ _ Hcols). intros j c _ Hc.
    destruct (infer_column_typed (column_at [] table j) c) as [H1 H2].
    - unfold column_at. rewrite forallb_map_comp. apply forallb_forall.
      intros r Hr. apply nth_plain. apply Htable. exact Hr.
    - exact Hc.
    - rewrite H1, H2. unfold column_at. rewrite length_map.
      apply Nat.eqb_refl. }
  assert (Hback : map (fun j => column_at CNaN
                                  (map (fun i => column_at CNaN cols i)
                                       (seq 0 (length table))) j)
                      (seq 0 (length names)) = cols).
  { rewrite <- Hcols_len. apply transpose_twice.
    revert Hcols_ok. apply forallb_impl. intros c.
    rewrite andb_true_iff. tauto. }
  unfold storable, rectangular. cbn [columns rows].
  apply Nat.leb_le in Hlen. rewrite Hlen, Hnd, Hmem, Hnames.
  cbn [andb negb]. apply andb_true_iff. split.
  - apply forallb_forall. intros r Hr. apply in_map_iff in Hr.
    destruct Hr as (i & <- & _). unfold column_at. rewrite length_map.
    rewrite Hcols_len. apply Nat.eqb_refl.
  - rewrite <- (forallb_map_comp
                  (fun j => column_at CNaN
                              (map (fun i => column_at CNaN cols i)
                                   (seq 0 (length table))) j)
                  column_ok).
    rewrite Hback. revert Hcols_ok. apply forallb_impl. intros c.
    rewrite andb_true_iff. tauto.
Qed.

(** X18: loading, saving and loading once more changes nothing.  Within
    what the model covers of [read_csv] (a file without quoted fields,
    carriage returns, byte-order mark or NUL, with distinct non-empty
    labels and as many fields in every row as there are labels, every
    column either all 64-bit integers or holding a value that is text
    beyond doubt), a frame of at least two columns that [load] returns is
    saved without error, and the file then loads as the same frame. *)
Theorem loaded_frame_round_trip (f : option str) (df : DataFrame)
        (w : World) :
  CSVDataStorage_load f = Ok df ->
  (2 <= length (columns df))%nat ->
  fst (CSVDataStorage_save df w) = Ok tt
  /\ CSVDataStorage_load (file (snd (CSVDataStorage_save df w))) = Ok df.
Proof.
  intros Hload Hlen.
  assert (Hst : storable df = true).
  { destruct f as [content|]; cbn [CSVDataStorage_load] in Hload.
    - exact (read_csv_storable content df Hload Hlen).
    - injection Hload as <-. vm_compute. reflexivity. }
  pose proof (read_csv_to_csv df Hst) as Hread.
  rewrite (save_ok _ _ (read_csv_encodable _ _ Hread)).
  cbn [fst snd file CSVDataStorage_load]. split; [reflexivity | exact Hread].
Qed.

Lemma loaded_frame_round_trip_witness :
  let w := one_record_world "007" "7654321" [] in
  let df := mkDataFrame schema
              [[CInt 1; CStr (utf8 "Ivanov"); CStr (utf8 "Ivan");
                CStr (utf8 "Ivanovich"); CStr (utf8 "Acme");
                CInt 7; CInt 7654321]] in
  fst (CSVDataStorage_save df w) = Ok tt
  /\ CSVDataStorage_load (file (snd (CSVDataStorage_save df w))) = Ok df.
Proof.
  intros w df. refine (@loaded_frame_round_trip (file w) df w _ _).
  - vm_compute. reflexivity.
  - vm_compute. lia.
Defined.

(** *** Choices 2 and 4 of the menu *)

Lemma existsb_map_comp {A B} (g : A -> B) (P : B -> bool) (l : list A) :
  existsb P (map g l) = existsb (fun x => P (g x)) l.
Proof.
  induction l as [|x l IH]; simpl; [reflexivity|]. rewrite IH. reflexivity.
Qed.

Lemma scan_digits_none (b : bool) (acc : Z) (n : nat) (s : str) :
  existsb is_ascii_digit s = false ->
  match scan_digits b acc n s with
  | Some (_, n', _) => n' = n
  | None => True
  end.
Proof.
  revert b. induction s as [|c s IH]; intros b; simpl.
  - destruct b; auto.
  - rewrite orb_false_iff. intros [Hc Hs]. rewrite Hc.
    destruct (char_eqb c 95).
    + destruct b; [exact I|]. apply IH. exact Hs.
    + destruct b; auto.
Qed.

Lemma skip_py_spaces_digits (s : str) :
  existsb is_ascii_digit s = false ->
  existsb is_ascii_digit (skip_py_spaces s) = false.
Proof.
  induction s as [|c s IH]; simpl; [reflexivity|].
  rewrite orb_false_iff. intros [Hc Hs].
  destruct (Py_ISSPACE c); [apply IH; exact Hs|].
  simpl. rewrite Hc, Hs. reflexivity.
Qed.

(** [int] refuses every string without a decimal digit. *)
Lemma int_of_str_no_digit (s : str) :
  existsb (fun c => is_ascii_digit (to_ascii c)) s = false ->
  int_of_str s = None.
Proof.
  intros H. unfold int_of_str.
  assert (Hp : existsb is_ascii_digit (skip_py_spaces (map to_ascii s))
               = false).
  { apply skip_py_spaces_digits. rewrite existsb_map_comp. exact H. }
  set (p := skip_py_spaces (map to_ascii s)) in *. clearbody p. clear H.
  assert (Hcore : forall (g : Z -> Z) q,
             existsb is_ascii_digit q = false ->
             match scan_digits false 0%Z 0%nat q with
             | Some (v, n, rest) =>
                 if (n =? 0)%nat || (4300 <? n)%nat then None
                 else match skip_py_spaces rest with
                      | [] => Some (g v)
                      | _ => None
                      end
             | None => None
             end = None).
  { intros g q Hq. pose proof (scan_digits_none false 0%Z 0%nat q Hq) as Hs.
    destruct (scan_digits false 0%Z 0%nat q) as [[[v n] rest]|];
      [subst n|]; reflexivity. }
  assert (Hsecond : forall (g : Z -> Z) q,
             existsb is_ascii_digit q = false ->
             match q with
             | 95%N :: _ => None
             | _ =>
                 match scan_digits false 0%Z 0%nat q with
                 | Some (v, n, rest) =>
                     if (n =? 0)%nat || (4300 <? n)%nat then None
                     else match skip_py_spaces rest with
                          | [] => Some (g v)
                          | _ => None
                          end
                 | None => None
                 end
             end = None).
  { intros g q Hq. destruct q as [|c q]; [apply Hcore; exact Hq|].
    destruct c as [|c]; [apply Hcore; exact Hq|].
    repeat (destruct c as [c|c|];
            try reflexivity; try (apply Hcore; exact Hq)). }
  destruct p as [|c p]; [reflexivity|].
  assert (Htail : existsb is_ascii_digit p = false).
  { simpl in Hp. apply orb_false_iff in Hp. tauto. }
  destruct c as [|c]; [exact (Hsecond (fun v => v) _ Hp)|].
  repeat (destruct c as [c|c|];
          try exact (Hsecond (fun v => v) _ Hp);
          try exact (Hsecond (fun v => v) _ Htail);
          try exact (Hsecond (fun v => (- v)%Z) _ Htail)).
Qed.

(** X19: choice 4 does not guard [int].  A line without any decimal digit
    at the prompt for the identifier (the empty line included) ends
    [main] with the uncaught [ValueError]: the collection and the file
    are as they were, [edit_record] is not called and the lines after it
    stay unread. *)
Theorem main_loop_value_error (line : str) (rest : list str) (w : World)
        (fuel : nat) :
  stdin w = [52%N] :: line :: rest ->
  existsb (fun c => is_ascii_digit (to_ascii c)) line = false ->
  main_loop (S fuel) w
  = Some (UncaughtValueError,
          mkWorld (self w) (file w) rest
                  (trace w ++ [EvPrompt menu; EvPrompt id_prompt])).
Proof.
  intros Hin Hline. cbn [main_loop].
  unfold menu_round, bind at 1, input at 1. rewrite Hin.
  change (str_eqb [52%N] [49%N]) with false.
  change (str_eqb [52%N] [50%N]) with false.
  change (str_eqb [52%N] [51%N]) with false.
  change (str_eqb [52%N] [52%N]) with true. cbv iota.
  unfold bind, input. cbn [stdin self file trace].
  rewrite (int_of_str_no_digit line Hline). unfold ret.
  rewrite <- app_assoc. reflexivity.
Qed.

Lemma main_loop_value_error_witness :
  let w := one_record_world "1234567" "7654321"
             [utf8 "4"; utf8 "one"; utf8 "5"] in
  main_loop 1 w
  = Some (UncaughtValueError,
          mkWorld (self w) (file w) [utf8 "5"]
                  (trace w ++ [EvPrompt menu; EvPrompt id_prompt])).
Proof.
  intros w.
  refine (@main_loop_value_error (utf8 "one") [utf8 "5"] w 0 _ _).
  - vm_compute. reflexivity.
  - vm_compute. reflexivity.
Defined.

Lemma ask_fields_enough (cols : list str) (acc : dict str) (w : World)
      (inputs rest : list str) :
  stdin w = inputs ++ rest ->
  length inputs = length (non_id_columns cols) ->
  ask_fields cols acc w
  = (Ok (fold_left (fun a ci => dict_set a (fst ci) (snd ci))
                   (combine (non_id_columns cols) inputs) acc),
     mkWorld (self w) (file w) rest
             (trace w ++ map (fun c => EvPrompt (add_prompt c))
                             (non_id_columns cols))).
Proof.
  revert acc w inputs.
  induction cols as [|c cols IH]; intros acc w inputs; simpl.
  - intros Hin Hlen. destruct inputs; [|discriminate]. simpl in Hin.
    unfold ret. simpl. rewrite app_nil_r, <- Hin.
    destruct w; reflexivity.
  - unfold non_id_columns. simpl.
    destruct (str_eqb c col_ID); simpl.
    + apply IH.
    + intros Hin Hlen. destruct inputs as [|l inputs]; [discriminate|].
      simpl in Hin, Hlen. unfold bind, input. rewrite Hin. simpl.
      rewrite (IH _ _ inputs); simpl;
        [|reflexivity|unfold non_id_columns; lia].
      rewrite <- app_assoc. reflexivity.
Qed.

(** X20: a record typed at choice 2.  On the program's own columns, when
    neither the collection nor the lines typed hold a surrogate, six
    lines that are not blank, the last two of them valid phones, are
    stored as one new record in the order typed, under the next
    identifier; the file holds the new collection, and the [5] that
    follows ends [main] normally. *)
Theorem main_loop_adds_record (w : World) (s n p o work mobile : str)
        (rest : list str) (fuel : nat) :
  columns (data (self w)) = schema ->
  frame_encodable (data (self w)) = true ->
  stdin w = [50%N] :: s :: n :: p :: o :: work :: mobile :: [53%N] :: rest ->
  existsb blank [s; n; p; o; work; mobile] = false ->
  forallb encodable [s; n; p; o; work; mobile] = true ->
  validate_phone work = true ->
  validate_phone mobile = true ->
  exists w',
    main_loop (S (S fuel)) w = Some (Returned, w')
    /\ data (self w')
       = concat_row (data (self w))
           [CInt (next_id (self w)); CStr s; CStr n; CStr p; CStr o;
            CStr work; CStr mobile]
    /\ next_id (self w') = (next_id (self w) + 1)%Z
    /\ file w' = Some (to_csv (data (self w')))
    /\ saves (trace w') = saves (trace w) ++ [data (self w')]
    /\ stdin w' = rest.
Proof.
  intros Hcols Henc Hin Hblank Hvalues Hwork Hmobile.
  set (r := [CInt (next_id (self w)); CStr s; CStr n; CStr p; CStr o;
             CStr work; CStr mobile]).
  set (record := [(col_surname, s); (col_name, n); (col_patronymic, p);
                  (col_organization, o); (col_work_phone, work);
                  (col_mobile_phone, mobile)]).
  set (w1 := mkWorld (self w) (file w) ([53%N] :: rest)
                     (trace w ++ [EvPrompt menu]
                      ++ map (fun c => EvPrompt (add_prompt c))
                             (non_id_columns schema))).
  assert (Hround : menu_round w = (Ok Again, added_world w1 r)).
  { unfold menu_round, bind at 1, input at 1. rewrite Hin.
    change (str_eqb [50%N] [49%N]) with false.
    change (str_eqb [50%N] [50%N]) with true. cbv iota.
    unfold bind at 1, get_self at 1. cbn [self]. rewrite Hcols.
    unfold bind at 1.
    rewrite (ask_fields_enough schema [] _ [s; n; p; o; work; mobile]
                               ([53%N] :: rest));
      [|reflexivity|reflexivity].
    cbn [self file trace].
    change (fold_left (fun a ci => dict_set a (fst ci) (snd ci))
              (combine (non_id_columns schema) [s; n; p; o; work; mobile]) [])
      with record.
    rewrite <- app_assoc. fold w1. unfold bind.
    rewrite (add_record_accepted record w1 work mobile r).
    - reflexivity.
    - exact Hblank.
    - reflexivity.
    - exact Hwork.
    - reflexivity.
    - exact Hmobile.
    - subst w1. cbn [self]. rewrite Hcols. reflexivity.
    - apply (encodable_addition _ (next_id (self w1)) record r).
      + exact Henc.
      + reflexivity.
      + exact Hvalues.
      + subst w1. cbn [self]. rewrite Hcols. reflexivity. }
  eexists. split.
  - cbn [main_loop]. rewrite Hround.
    unfold menu_round, bind at 1, input at 1.
    unfold added_world at 1. cbn [stdin]. subst w1. cbn [stdin].
    change (str_eqb [53%N] [49%N]) with false.
    change (str_eqb [53%N] [50%N]) with false.
    change (str_eqb [53%N] [51%N]) with false.
    change (str_eqb [53%N] [52%N]) with false.
    change (str_eqb [53%N] [53%N]) with true. cbv iota.
    unfold ret. reflexivity.
  - cbn [self data next_id file stdin trace added_world].
    split; [reflexivity|]. split; [reflexivity|]. split; [reflexivity|].
    split; [|reflexivity].
    rewrite !saves_app. cbn [saves]. simpl. rewrite !app_nil_r.
    reflexivity.
Qed.

Lemma main_loop_adds_record_witness :
  let w := fresh_world
             [utf8 "2"; utf8 "Petrov"; utf8 "Petr"; utf8 "Petrovich";
              utf8 "Initech"; utf8 "007"; utf8 "89001112233"; utf8 "5";
              utf8 "1"] in
  exists w',
    main_loop 2 w = Some (Returned, w')
    /\ data (self w')
       = concat_row (data (self w))
           [CInt (next_id (self w)); CStr (utf8 "Petrov");
            CStr (utf8 "Petr"); CStr (utf8 "Petrovich");
            CStr (utf8 "Initech"); CStr (utf8 "007");
            CStr (utf8 "89001112233")]
    /\ next_id (self w') = (next_id (self w) + 1)%Z
    /\ file w' = Some (to_csv (data (self w')))
    /\ saves (trace w') = saves (trace w) ++ [data (self w')]
    /\ stdin w' = [utf8 "1"].
Proof.
  intros w.
  refine (@main_loop_adds_record w (utf8 "Petrov") (utf8 "Petr")
            (utf8 "Petrovich") (utf8 "Initech") (utf8 "007")
            (utf8 "89001112233") [utf8 "1"] 0 _ _ _ _ _ _ _).
  - vm_compute. reflexivity.
  - vm_compute. reflexivity.
  - vm_compute. reflexivity.
  - vm_compute. reflexivity.
  - vm_compute. reflexivity.
  - vm_compute. reflexivity.
  - vm_compute. reflexivity.
Defined.

Lemma mem_false_not_in (k : str) (l : list str) :
  mem k l = false -> ~ In k l.
Proof.
  unfold mem. induction l as [|x l IH]; simpl; [tauto|].
  rewrite orb_false_iff. intros [Hx Hl] [-> | H].
  - rewrite str_eqb_refl in Hx. discriminate.
  - exact (IH Hl H).
Qed.

Lemma dict_get_not_in {V} (d : dict V) (k : str) :
  ~ In k (map fst d) -> dict_get d k = None.
Proof.
  induction d as [|[a x] d IH]; simpl; [reflexivity|].
  intros H. destruct (str_eqb a k) eqn:E.
  - apply str_eqb_eq in E. tauto.
  - apply IH. tauto.
Qed.

(** X21: the columns are those of the file, not those of the schema.  On
    a collection without the work-phone column, choice 2 asks for every
    column that is there and then, when no line typed was blank, leaves
    [main] with the uncaught [KeyError] of the work-phone lookup; nothing
    is stored or saved. *)
Theorem main_loop_foreign_columns (w : World) (inputs rest : list str)
        (fuel : nat) :
  mem col_work_phone (columns (data (self w))) = false ->
  stdin w = [50%N] :: inputs ++ rest ->
  length inputs = length (non_id_columns (columns (data (self w)))) ->
  existsb blank inputs = false ->
  main_loop (S fuel) w
  = Some (Uncaught (KeyError col_work_phone),
          mkWorld (self w) (file w) rest
                  (trace w ++ EvPrompt menu
                   :: map (fun c => EvPrompt (add_prompt c))
                          (non_id_columns (columns (data (self w)))))).
Proof.
  intros Hmem Hin Hlen Hblank. cbn [main_loop].
  unfold menu_round, bind at 1, input at 1. rewrite Hin.
  change (str_eqb [50%N] [49%N]) with false.
  change (str_eqb [50%N] [50%N]) with true. cbv iota.
  unfold bind at 1, get_self at 1. cbn [self]. unfold bind at 1.
  set (w0 := mkWorld (self w) (file w) (inputs ++ rest)
                     (trace w ++ [EvPrompt menu])).
  pose proof (ask_fields_enough (columns (data (self w))) [] w0 inputs rest
                                eq_refl Hlen) as Hask.
  destruct (ask_fields_effects _ _ _ _ _ Hask)
    as (_ & _ & _ & _ & [Habs | (record & Hrec & Hkeys)]);
    [discriminate|].
  rewrite Hask. injection Hrec as Hrec. rewrite Hrec.
  assert (Hvalues : existsb blank (dict_values record) = false).
  { destruct (existsb blank (dict_values record)) eqn:E; [|reflexivity].
    apply existsb_exists in E. destruct E as (v & Hv & Hb).
    rewrite <- Hrec in Hv. apply (field_dict_values _ inputs) in Hv.
    rewrite <- Hblank. symmetry. apply existsb_exists. exists v. auto. }
  assert (Hget : dict_get record col_work_phone = None).
  { apply dict_get_not_in. intros Hk.
    destruct (Hkeys _ Hk) as [[] | [Hc _]].
    exact (mem_false_not_in _ _ Hmem Hc). }
  unfold bind, add_record. rewrite existsb_strip_blank, Hvalues.
  run. rewrite Hget. subst w0. cbn [self file trace].
  rewrite <- app_assoc. reflexivity.
Qed.

Lemma main_loop_foreign_columns_witness :
  let w := mkWorld (mkDirectory
                      (mkDataFrame [col_ID; col_surname]
                                   [[CInt 1; CStr (utf8 "Ivanov")]]) 2)
                   None [utf8 "2"; utf8 "Petrov"; utf8 "5"] [] in
  main_loop 1 w
  = Some (Uncaught (KeyError col_work_phone),
          mkWorld (self w) (file w) [utf8 "5"]
                  (trace w ++ EvPrompt menu
                   :: map (fun c => EvPrompt (add_prompt c))
                          (non_id_columns (columns (data (self w)))))).
Proof.
  intros w.
  refine (@main_loop_foreign_columns w [utf8 "Petrov"] [utf8 "5"] 0 _ _ _ _).
  - vm_compute. reflexivity.
  - vm_compute. reflexivity.
  - vm_compute. reflexivity.
  - vm_compute. reflexivity.
Defined.

(** *** Phones that went through the file *)
















(** ** An aborted edit and the next save *)

(** X23: the fields that an aborted edit has already written are not
    saved by that call, but they are part of the collection: the next
    successful [add_record] saves them together with the new record, so
    they reach the file although the edit reported that the changes were
    not saved.  In the collection that the addition saves, the edited
    record holds, in each column for which a non-empty line came before
    the refused phone, that line, and its other cells as they were.
    (Distinct column labels; no surrogate in the collection, the lines
    written or the new record, so that [save] does not raise.) *)
Theorem aborted_edit_is_saved_later (record_id : Z) (w : World)
        (j index : nat) (others : list nat) (inputs rest : list str)
        (before after : dict str) (key value : str)
        (record : dict str) (work mobile : str) (r : row) :
  index_of col_ID (columns (data (self w))) = Some j ->
  positions_from 0 j record_id (rows (data (self w))) = index :: others ->
  stdin w = inputs ++ rest ->
  length inputs = length (non_id_columns (columns (data (self w)))) ->
  no_dup (columns (data (self w))) = true ->
  field_dict (columns (data (self w))) inputs
  = before ++ (key, value) :: after ->
  existsb item_fails before = false ->
  item_fails (key, value) = true ->
  existsb blank (dict_values record) = false ->
  dict_get record col_work_phone = Some work ->
  validate_phone work = true ->
  dict_get record col_mobile_phone = Some mobile ->
  validate_phone mobile = true ->
  row_of_record (columns (data (self w)))
                (record_with_id (next_id (self w)) record) = Some r ->
  frame_encodable (data (self w)) = true ->
  forallb encodable (dict_values before) = true ->
  no_dup (map fst record) = true ->
  forallb encodable (dict_values record) = true ->
  exists w1 w2 old new,
    edit_record record_id w = (Ok tt, w1)
    /\ data (self w1) = apply_items (data (self w)) index before
    /\ saves (trace w1) = saves (trace w)
    /\ file w1 = file w
    /\ add_record record w1 = (Ok tt, w2)
    /\ data (self w2)
       = concat_row (apply_items (data (self w)) index before) r
    /\ saves (trace w2) = saves (trace w) ++ [data (self w2)]
    /\ file w2 = Some (to_csv (data (self w2)))
    /\ nth_error (rows (data (self w))) index = Some old
    /\ nth_error (rows (data (self w2))) index = Some new
    /\ (forall jc c x,
          nth_error (columns (data (self w))) jc = Some c ->
          nth_error old jc = Some x ->
          nth_error new jc =
          Some (match dict_get before c with
                | Some l => if str_eqb l [] then x else CStr l
                | None => x
                end)).
Proof.
  intros Hj Hpos Hin Hlen Hnd Hsplit Hpass Hfail Hblank Hw Hvw Hm Hvm Hr
         Hdf Hbefore Hrec Hvalues.
  pose proof (edit_record_first_fail _ _ _ _ _ _ _ _ _ _ _
                Hj Hpos Hin Hlen Hsplit Hpass Hfail) as Hedit.
  assert (Hkeys : no_dup (map fst before ++ key :: map fst after) = true).
  { pose proof (f_equal (map fst) Hsplit) as E.
    rewrite (field_dict_combine _ _ Hnd Hlen),
      (map_fst_combine_same _ _ Hlen), map_app in E.
    cbn [map fst] in E. rewrite <- E. apply no_dup_filter. exact Hnd. }
  destruct (positions_from_row _ _ _ _ _ Hpos) as (old & Hold).
  destruct (apply_items_row before (data (self w)) index old
              (no_dup_app_l _ _ Hkeys) Hold) as (new & Hnew & _ & Hcells).
  eexists. eexists. exists old, new.
  split; [exact Hedit|].
  split; [reflexivity|].
  split.
  { cbn [trace]. rewrite !saves_app, saves_edit_prompts. simpl.
    apply app_nil_r. }
  split; [reflexivity|].
  split.
  { apply (add_record_accepted record _ work mobile r Hblank Hw Hvw Hm Hvm).
    - cbn [self data next_id]. rewrite apply_items_columns. exact Hr.
    - cbn [self data next_id].
      apply (encodable_addition _ (next_id (self w)) record r).
      + apply frame_encodable_apply_items; [exact Hdf|].
        rewrite forallb_forall in Hbefore. exact Hbefore.
      + exact Hrec.
      + exact Hvalues.
      + rewrite apply_items_columns. exact Hr. }
  unfold added_world. cbn [self data file trace].
  split; [reflexivity|]. split.
  { rewrite !saves_app, saves_edit_prompts. simpl. rewrite !app_nil_r.
    reflexivity. }
  split; [reflexivity|]. split; [exact Hold|]. split; [|exact Hcells].
  cbn [concat_row rows]. rewrite nth_error_app1; [exact Hnew|].
  apply nth_error_Some. rewrite Hnew. discriminate.
Qed.

Lemma aborted_edit_is_saved_later_witness :
  let inputs := [utf8 "Petrov"; enter; enter; enter; enter; utf8 "abc"] in
  let w := one_record_world "1234567" "7654321" inputs in
  let before := [(col_surname, utf8 "Petrov"); (col_name, enter);
                 (col_patronymic, enter); (col_organization, enter);
                 (col_work_phone, enter)] in
  let record := ivanov "1" "2" in
  let r := ivanov_row 2 "1" "2" in
  exists w1 w2 old new,
    edit_record 1 w = (Ok tt, w1)
    /\ data (self w1) = apply_items (data (self w)) 0 before
    /\ saves (trace w1) = saves (trace w)
    /\ file w1 = file w
    /\ add_record record w1 = (Ok tt, w2)
    /\ data (self w2)
       = concat_row (apply_items (data (self w)) 0 before) r
    /\ saves (trace w2) = saves (trace w) ++ [data (self w2)]
    /\ file w2 = Some (to_csv (data (self w2)))
    /\ nth_error (rows (data (self w))) 0 = Some old
    /\ nth_error (rows (data (self w2))) 0 = Some new
    /\ (forall jc c x,
          nth_error (columns (data (self w))) jc = Some c ->
          nth_error old jc = Some x ->
          nth_error new jc =
          Some (match dict_get before c with
                | Some l => if str_eqb l [] then x else CStr l
                | None => x
                end)).
Proof.
  intros inputs w before record r.
  refine (@aborted_edit_is_saved_later 1 w 0%nat 0%nat [] inputs [] before []
            col_mobile_phone (utf8 "abc") record (utf8 "1") (utf8 "2") r
            _ _ _ _ _ _ _ _ _ _ _ _ _ _ _ _ _ _).
  - vm_compute. reflexivity.
  - vm_compute. reflexivity.
  - vm_compute. reflexivity.
  - vm_compute. reflexivity.
  - vm_compute. reflexivity.
  - vm_compute. reflexivity.
  - vm_compute. reflexivity.
  - vm_compute. reflexivity.
  - vm_compute. reflexivity.
  - vm_compute. reflexivity.
  - vm_compute. reflexivity.
  - vm_compute. reflexivity.
  - vm_compute. reflexivity.
  - vm_compute. reflexivity.
  - vm_compute. reflexivity.
  - vm_compute. reflexivity.
  - vm_compute. reflexivity.
  - vm_compute. reflexivity.
Defined.
